(** * UDM download engine: chunk planning, strategy selection, probing,
      chunk workers and progress tracking

    A shallow embedding of the Go sources of the engine.  Go's [int] and
    [int64] are modelled as [Z] with the 64-bit two's-complement wrap-around
    written out ([int] is 64 bits wide on the platforms the engine targets);
    a slice is a [list]; [nil] pointers and [nil] errors are [None]; a
    run-time panic (index out of range, division by zero) is [None] as well. *)

From Stdlib Require Import ZArith Lia String Ascii Uint63.
From Corelib Require Import PrimFloat SpecFloat FloatOps.
From stdpp Require Import base list gmap strings pretty.

Local Open Scope Z_scope.

(** ** Machine integers *)

Module Int64.

Definition min_int : Z := - 2 ^ 63.
Definition max_int : Z := 2 ^ 63 - 1.

(** The value an [int64] (or 64-bit [int]) holds after an arithmetic
    operation whose mathematical result is [z]. *)
Definition wrap (z : Z) : Z := (z + 2 ^ 63) mod 2 ^ 64 - 2 ^ 63.

Definition in_range (z : Z) : Prop := min_int <= z <= max_int.

End Int64.

(** ** Chunk planner (DivideChunks, initializeChunks) *)

Section ChunkPlanner.

Import Int64.

(** The body of the [for i := 0; i < chunkCount; i++] loop of DivideChunks,
    run on the slice [chunks]; [fuel] bounds the number of iterations. *)
Fixpoint DivideChunks_loop (fuel : nat) (i chunkCount chunkSize underFlowSize : Z)
    (chunks : list Z) : list Z :=
  match fuel with
  | O => chunks
  | S fuel' =>
      if i <? chunkCount then
        if i =? wrap (chunkCount - 2) then
          DivideChunks_loop fuel' (wrap (i + 1)) chunkCount chunkSize underFlowSize
            (<[Z.to_nat i := wrap (chunkSize + underFlowSize)]> chunks)
        else
          DivideChunks_loop fuel' (wrap (i + 1)) chunkCount chunkSize underFlowSize
            (<[Z.to_nat i := chunkSize]> chunks)
      else chunks
  end.

(** [DivideChunks fileSize chunkCount]: [None] when Go panics
    ([make] with a negative length, integer division by zero).  [make]
    also panics on a length no slice can hold; that limit of the machine
    is not modelled, and the statements about panics below are made for
    counts up to [max_workers]. *)
Definition DivideChunks (fileSize chunkCount : Z) : option (list Z) :=
  if chunkCount <? 0 then None
  else
    let chunks := replicate (Z.to_nat chunkCount) 0 in
    if chunkCount =? 0 then None
    else
      let chunkSize := wrap (Z.quot fileSize chunkCount) in
      let totalAllocatedSize := wrap (chunkCount * chunkSize) in
      let underFlowSize := wrap (fileSize - totalAllocatedSize) in
      Some (DivideChunks_loop (Z.to_nat chunkCount) 0 chunkCount chunkSize
              underFlowSize chunks).

Record ChunkData := mkChunkData {
  Index : Z;
  Start : Z;
  End : Z;
  Size : Z;
  IsCompleted : bool
}.

Record ChunkManager := mkChunkManager {
  cmChunks : list ChunkData;
  cmChunkSize : Z;
  cmTotalSize : Z;
  cmCompletedBytes : Z
}.

(** The [for i, size := range chunkSizes] loop of initializeChunks: the
    slice element written at index [i], with the running [currentOffset]. *)
Fixpoint initializeChunks_loop (i currentOffset : Z) (chunkSizes : list Z)
    : list ChunkData :=
  match chunkSizes with
  | [] => []
  | size :: rest =>
      {| Index := i;
         Start := currentOffset;
         End := wrap (wrap (currentOffset + size) - 1);
         Size := size;
         IsCompleted := false |}
      :: initializeChunks_loop (i + 1) (wrap (currentOffset + size)) rest
  end.

(** initializeChunks returns the new [d.Chunks] and [d.ChunkManager];
    [chunkSizes[0]] panics on an empty slice. *)
Definition initializeChunks (Filesize : Z) (chunkSizes : list Z)
    : option (list ChunkData * ChunkManager) :=
  let Chunks := initializeChunks_loop 0 0 chunkSizes in
  match chunkSizes !! 0%nat with
  | None => None
  | Some first =>
      Some (Chunks,
            {| cmChunks := Chunks; cmChunkSize := first;
               cmTotalSize := Filesize; cmCompletedBytes := 0 |})
  end.

(** The chunk planner as executeMultiStreamDownload runs it. *)
Definition planChunks (Filesize threadCount : Z) : option (list ChunkData) :=
  match DivideChunks Filesize threadCount with
  | None => None
  | Some chunkSizes =>
      match initializeChunks Filesize chunkSizes with
      | None => None
      | Some (Chunks, _) => Some Chunks
      end
  end.

End ChunkPlanner.


(** ** Errors and strings *)

(** Go [error] values.  [context.Canceled], [io.EOF] and
    [io.ErrUnexpectedEOF] are the sentinel values the engine compares
    against or receives from a response body; every other error is known by
    its message. *)
Inductive error :=
  | Canceled
  | EOF
  | ErrUnexpectedEOF
  | ErrorString (msg : string).

(** [err.Error()], as [%v] prints it. *)
Definition Error_string (e : error) : string :=
  match e with
  | Canceled => "context canceled"
  | EOF => "EOF"
  | ErrUnexpectedEOF => "unexpected EOF"
  | ErrorString msg => msg
  end.

(** [%v] of a possibly nil error. *)
Definition fmt_v (e : option error) : string :=
  match e with
  | None => "<nil>"
  | Some e => Error_string e
  end.

(** [%d] of an integer. *)
Definition fmt_d (z : Z) : string := pretty z.

Definition error_eqb (a b : error) : bool :=
  match a, b with
  | Canceled, Canceled => true
  | EOF, EOF => true
  | ErrUnexpectedEOF, ErrUnexpectedEOF => true
  | ErrorString x, ErrorString y => String.eqb x y
  | _, _ => false
  end.

(** [strings.HasPrefix s prefix]. *)
Definition HasPrefix (s prefix : string) : bool := String.prefix prefix s.

(** [strings.TrimPrefix s prefix]. *)
Definition TrimPrefix (s prefix : string) : string :=
  if HasPrefix s prefix
  then String.substring (String.length prefix)
         (String.length s - String.length prefix) s
  else s.

(** [strings.Contains s substr]: [substr] occurs in [s], byte for byte. *)
Fixpoint Contains (s substr : string) : bool :=
  if String.prefix substr s then true
  else
    match s with
    | EmptyString => false
    | String _ s' => Contains s' substr
    end.

(** ASCII lower-casing of one byte and of a string ([strings.ToLower] on
    ASCII text); the engine itself never lower-cases header values, the
    function states what a case-insensitive comparison would look at. *)
Definition lower_ascii (c : ascii) : ascii :=
  let n := nat_of_ascii c in
  if (Nat.leb 65 n && Nat.leb n 90)%bool then ascii_of_nat (n + 32) else c.

Fixpoint ToLower (s : string) : string :=
  match s with
  | EmptyString => EmptyString
  | String c s' => String (lower_ascii c) (ToLower s')
  end.

(** ** Data model (DownloaderModels.go, ServerHeaders) *)

Record UserPreferences := mkUserPreferences {
  DownloadDir : string;
  fileName : string;
  threadCount : Z;
  maxRetries : Z
}.

Record CustomHeaders := mkCustomHeaders {
  Cookies : string;
  Headers : gmap string string
}.

Record ServerData := mkServerData {
  Filename : string;
  Filesize : Z;
  Filetype : string;
  AcceptsRanges : bool;
  FinalURL : string
}.

Record FileInfo := mkFileInfo {
  Dir : string;
  Name : string;
  FullPath : string
}.

Definition DOWNLOAD_QUEUED : string := "queued".
Definition DOWNLOAD_IN_PROGRESS : string := "in_progress".
Definition DOWNLOAD_PAUSED : string := "paused".
Definition DOWNLOAD_COMPLETED : string := "completed".
Definition DOWNLOAD_FAILED : string := "failed".
Definition DOWNLOAD_STOPPED : string := "stopped".

(** The fields of [Downloader] the engine's control flow reads and writes.
    [isPaused] is [d.PauseControl.isPaused].  [Progress], [TimeStats] and the
    progress bar carry timing and display data only and are left to the
    progress section below. *)
Record Downloader := mkDownloader {
  Url : string;
  fileInfo : FileInfo;
  Prefs : UserPreferences;
  dHeaders : CustomHeaders;
  ServerHeaders : ServerData;
  Chunks : list ChunkData;
  dChunkManager : option ChunkManager;
  isPaused : bool;
  Status : string;
  Error : option error
}.

Definition getThreadCount (d : Downloader) : Z := threadCount (Prefs d).
Definition getRetryCount (d : Downloader) : Z := maxRetries (Prefs d).

(** ** Strategy selector (StartDownload.go, getOptimalThreadCount) *)

Definition minSizeForMultiStream : Z := 10 * 1024 * 1024.

Definition shouldUseMultiStream (d : Downloader) : bool :=
  if negb (AcceptsRanges (ServerHeaders d)) then false
  else if Filesize (ServerHeaders d) <=? 0 then false
  else if Filesize (ServerHeaders d) <? minSizeForMultiStream then false
  else if getThreadCount d =? 1 then false
  else true.

Inductive Strategy := MultiStream | SingleStream.

(** executeDownloadStrategy, returning the download method it invokes. *)
Definition executeDownloadStrategy (d : Downloader) : Strategy :=
  if (AcceptsRanges (ServerHeaders d) && shouldUseMultiStream d)%bool
  then MultiStream
  else SingleStream.

(** The worker count the multi-stream path runs with. *)
Definition getOptimalThreadCount (d : Downloader) : Z :=
  let userThreadCount := getThreadCount d in
  if userThreadCount >? 0 then userThreadCount
  else
    let fileSize := Filesize (ServerHeaders d) in
    if fileSize <? 10 * 1024 * 1024 then 2
    else if fileSize <? 100 * 1024 * 1024 then 4
    else if fileSize <? 1024 * 1024 * 1024 then 8
    else 12.

(** ** Probe (GetServerData, tryGetServerData) *)

(** What a HEAD response offers to the probe: the status code, the headers
    under their canonical names, and the URL of the last request after
    redirects ([resp.Request.URL.String()]). *)
Record Response := mkResponse {
  StatusCode : Z;
  Header : gmap string (list string);
  RequestURL : string
}.

(** [h.Get(key)]: the first value stored under [key], or the empty string. *)
Definition Header_Get (h : gmap string (list string)) (key : string) : string :=
  match h !! key with
  | Some (v :: _) => v
  | _ => ""
  end.

(** The functions of Go's standard library the probe calls, as an
    interface.  A [None] result is a non-nil [err]. *)
Class GoLib := mkGoLib {
  (** [http.NewRequest(method, url, nil)]: the error, if any. *)
  http_NewRequest : string -> string -> option error;
  (** [mime.ParseMediaType(v)]: the parameters. *)
  mime_ParseMediaType : string -> option (gmap string string);
  url_QueryUnescape : string -> option string;
  (** [url.Parse(rawURL)] followed by [.Path]. *)
  url_Parse_Path : string -> option string;
  path_Base : string -> string;
  (** The value [fmt.Sscanf(s, "%d", &size)] leaves in [size]
      (0 when nothing could be scanned). *)
  fmt_Sscanf_d : string -> Z
}.

(** What [client.Do(req)] answers: an error, or a response. *)
Definition DoResult : Type := error + Response.

(** The state the probe runs in: how many requests have been sent and how
    long it has slept, in seconds. *)
Record ProbeState := mkProbeState {
  sent : nat;
  slept : Z
}.

Definition mimeExtensionFromContentType (ct : string) : string :=
  let mapping : gmap string string :=
    list_to_map
      [("image/jpeg", ".jpg"); ("image/png", ".png"); ("image/gif", ".gif");
       ("text/html", ".html"); ("application/pdf", ".pdf")] in
  match mapping !! ct with
  | Some ext => ext
  | None => ""
  end.

Section Probe.

Context {lib : GoLib}.

(** The network: the answer to the [n]-th request the probe sends to a
    URL (counting from 0). *)
Variable client_Do : nat -> string -> DoResult.

(** Step 3 of tryGetServerData: the filename of Content-Disposition, or
    the empty string the fresh [ServerData] holds. *)
Definition dispositionFilename (cd : string) : string :=
  if String.eqb cd "" then ""
  else
    match mime_ParseMediaType cd with
    | None => ""
    | Some params =>
        match params !! "filename" with
        | Some name => name
        | None =>
            match params !! "filename*" with
            | Some name =>
                if HasPrefix name "UTF-8''" then
                  match url_QueryUnescape (TrimPrefix name "UTF-8''") with
                  | Some decoded => decoded
                  | None => ""
                  end
                else ""
            | None => ""
            end
        end
    end.

(** Step 4: fall back to the last element of the URL path. *)
Definition urlFilename (finalURL : string) (current : string) : string :=
  if String.eqb current "" then
    match url_Parse_Path finalURL with
    | Some p =>
        let base := path_Base p in
        if (negb (String.eqb base "") && Contains base ".")%bool then base
        else current
    | None => current
    end
  else current.

(** Steps 3 to 8 of tryGetServerData on a response it accepted. *)
Definition serverDataOf (resp : Response) : ServerData :=
  let finalURL := RequestURL resp in
  let name3 := dispositionFilename (Header_Get (Header resp) "Content-Disposition") in
  let name4 := urlFilename finalURL name3 in
  let cl := Header_Get (Header resp) "Content-Length" in
  let size := if String.eqb cl "" then 0 else fmt_Sscanf_d cl in
  let ftype := Header_Get (Header resp) "Content-Type" in
  let ranges :=
    if Contains (Header_Get (Header resp) "Accept-Ranges") "bytes" then true
    else false in
  let name8 :=
    if String.eqb name4 "" then
      String.append "downloaded_file" (mimeExtensionFromContentType ftype)
    else name4 in
  {| Filename := name8; Filesize := size; Filetype := ftype;
     AcceptsRanges := ranges; FinalURL := finalURL |}.

(** tryGetServerData: the pair [(data, err)] it returns, and the state
    after it.  On [err != nil || resp.StatusCode >= 400] the code returns
    [nil, err]: with a response of status 400 or more, [err] is nil.  The
    request is a HEAD request, so the final step, which drains the body of
    a GET response, does nothing. *)
Definition tryGetServerData (downloadURL : string) (st : ProbeState)
    : (option ServerData * option error) * ProbeState :=
  match http_NewRequest "HEAD" downloadURL with
  | Some err => ((None, Some err), st)
  | None =>
      let st' := {| sent := S (sent st); slept := slept st |} in
      match client_Do (sent st) downloadURL with
      | inl err => ((None, Some err), st')
      | inr resp =>
          if StatusCode resp >=? 400 then
            let err : option error := None in
            ((None, err), st')
          else ((Some (serverDataOf resp), None), st')
      end
  end.

Definition probe_maxRetries : Z := 3.

(** The [for attempt := 1; attempt <= maxRetries; attempt++] loop of
    GetServerData with [n] iterations left, and the return after it. *)
Fixpoint GetServerData_loop (n : nat) (attempt : Z) (lastErr : option error)
    (downloadURL : string) (st : ProbeState)
    : (option ServerData * option error) * ProbeState :=
  match n with
  | O =>
      ((None,
        Some (ErrorString
                (String.append "failed after "
                   (String.append (fmt_d probe_maxRetries)
                      (String.append " attempts: " (fmt_v lastErr)))))),
       st)
  | S n' =>
      let '((data, err), st1) := tryGetServerData downloadURL st in
      match err with
      | None => ((data, None), st1)
      | Some e =>
          let st2 :=
            if attempt <? probe_maxRetries
            then {| sent := sent st1; slept := slept st1 + 2 |}
            else st1 in
          GetServerData_loop n' (attempt + 1) (Some e) downloadURL st2
      end
  end.

Definition GetServerData (downloadURL : string) (st : ProbeState)
    : (option ServerData * option error) * ProbeState :=
  GetServerData_loop (Z.to_nat probe_maxRetries) 1 None downloadURL st.

(** Prefetch, as far as the probe's result decides it: the error it
    returns, or the server headers it stores. *)
Definition Prefetch_headers (downloadURL : string) (st : ProbeState)
    : (error + ServerData) * ProbeState :=
  let '((headers, err), st1) := GetServerData downloadURL st in
  match err with
  | Some e =>
      (inl (ErrorString (String.append "failed to get server data: " (fmt_v (Some e)))), st1)
  | None =>
      match headers with
      | None =>
          (inl (ErrorString (String.append "failed to get server data: " (fmt_v err))), st1)
      | Some h => (inr h, st1)
      end
  end.

End Probe.

(** A stand-in for Go's library that accepts every URL, finds no media-type
    parameters, and reads an unsigned decimal Content-Length; used to run
    the probe on concrete responses. *)
Fixpoint scan_digits (s : string) (acc : Z) : Z :=
  match s with
  | EmptyString => acc
  | String c s' =>
      let n := Z.of_nat (nat_of_ascii c) in
      if ((48 <=? n) && (n <=? 57))%bool then scan_digits s' (10 * acc + (n - 48))
      else acc
  end.

Definition plainLib : GoLib :=
  {| http_NewRequest := fun _ _ => None;
     mime_ParseMediaType := fun _ => None;
     url_QueryUnescape := fun s => Some s;
     url_Parse_Path := fun _ => None;
     path_Base := fun s => s;
     fmt_Sscanf_d := fun s => scan_digits s 0 |}.

(** ** The multi-stream engine: files, requests, workers, orchestrator *)

Definition byte : Type := Byte.byte.

(** One call of [reader.Read(buffer)]: the bytes it delivered and its error. *)
Definition ReadResult : Type := list byte * option error.

Record Request := mkRequest {
  reqMethod : string;
  reqURL : string;
  reqHeader : gmap string string
}.

Record ChunkResponse := mkChunkResponse {
  respStatus : Z;
  Body : list ReadResult
}.

(** The callbacks the engine invokes, in the order it invokes them. *)
Inductive Event :=
  | OnStart
  | OnStop
  | OnError (err : error)
  | OnFinish
  | OnPause
  | OnChunkStart (chunkIndex start_ end_ : Z)
  | OnChunkFinish (chunkIndex start_ end_ bytesWritten : Z)
  | OnChunkError (chunkIndex start_ end_ : Z) (err : error)
  | OnAssembleStart
  | OnAssembleFinish
  | OnAssembleError (err : error).

(** The state a download runs in.  [fs] maps a path to the contents of the
    file stored there (operations fail only on a missing file); [ticks]
    counts the times the context has been looked at, [requests] the chunk
    requests sent; [totalCompletedBytes] is the shared atomic counter;
    [events] lists the callback sites reached (callbacks are taken not to
    touch the downloader).  The progress tracker, the time statistics and
    the sampler goroutine monitorMultiStreamProgress only feed the progress
    display and are not part of this state. *)
Record World := mkWorld {
  dl : Downloader;
  fs : gmap string (list byte);
  ticks : nat;
  requests : nat;
  totalCompletedBytes : Z;
  events : list Event
}.

(** How a call ends: it returns, it waits for ever on the pause gate, or it
    panics. *)
Inductive Run (A : Type) :=
  | Returns (a : A)
  | Blocks
  | Panics.
Arguments Returns {A} a.
Arguments Blocks {A}.
Arguments Panics {A}.

Definition M (A : Type) : Type := World -> Run A * World.

Definition ret {A} (a : A) : M A := fun w => (Returns a, w).

Definition bind {A B} (m : M A) (k : A -> M B) : M B :=
  fun w =>
    match m w with
    | (Returns a, w') => k a w'
    | (Blocks, w') => (Blocks, w')
    | (Panics, w') => (Panics, w')
    end.

Notation "'do' x <- m ; k" := (bind m (fun x => k))
  (at level 10, x pattern, m at level 100, k at level 200).
Notation "'do_' m ; k" := (bind m (fun _ => k))
  (at level 10, m at level 100, k at level 200).

Definition get : M World := fun w => (Returns w, w).
Definition panic {A} : M A := fun w => (Panics, w).
Definition block {A} : M A := fun w => (Blocks, w).

Definition set_dl (f : Downloader -> Downloader) : M unit :=
  fun w => (Returns tt,
            {| dl := f (dl w); fs := fs w; ticks := ticks w; requests := requests w;
               totalCompletedBytes := totalCompletedBytes w; events := events w |}).

Definition set_fs (f : gmap string (list byte) -> gmap string (list byte)) : M unit :=
  fun w => (Returns tt,
            {| dl := dl w; fs := f (fs w); ticks := ticks w; requests := requests w;
               totalCompletedBytes := totalCompletedBytes w; events := events w |}).

Definition emit (e : Event) : M unit :=
  fun w => (Returns tt,
            {| dl := dl w; fs := fs w; ticks := ticks w; requests := requests w;
               totalCompletedBytes := totalCompletedBytes w;
               events := events w ++ [e] |}).

(** [atomic.AddInt64(totalCompletedBytes, n)]. *)
Definition atomic_AddInt64 (n : Z) : M unit :=
  fun w => (Returns tt,
            {| dl := dl w; fs := fs w; ticks := ticks w; requests := requests w;
               totalCompletedBytes := Int64.wrap (totalCompletedBytes w + n);
               events := events w |}).

Definition with_Status (s : string) (d : Downloader) : Downloader :=
  {| Url := Url d; fileInfo := fileInfo d; Prefs := Prefs d; dHeaders := dHeaders d;
     ServerHeaders := ServerHeaders d; Chunks := Chunks d;
     dChunkManager := dChunkManager d; isPaused := isPaused d;
     Status := s; Error := Error d |}.

Definition with_Error (e : option error) (d : Downloader) : Downloader :=
  {| Url := Url d; fileInfo := fileInfo d; Prefs := Prefs d; dHeaders := dHeaders d;
     ServerHeaders := ServerHeaders d; Chunks := Chunks d;
     dChunkManager := dChunkManager d; isPaused := isPaused d;
     Status := Status d; Error := e |}.

Definition with_isPaused (b : bool) (d : Downloader) : Downloader :=
  {| Url := Url d; fileInfo := fileInfo d; Prefs := Prefs d; dHeaders := dHeaders d;
     ServerHeaders := ServerHeaders d; Chunks := Chunks d;
     dChunkManager := dChunkManager d; isPaused := b;
     Status := Status d; Error := Error d |}.

Definition with_Chunks (cs : list ChunkData) (cm : option ChunkManager)
    (d : Downloader) : Downloader :=
  {| Url := Url d; fileInfo := fileInfo d; Prefs := Prefs d; dHeaders := dHeaders d;
     ServerHeaders := ServerHeaders d; Chunks := cs;
     dChunkManager := cm; isPaused := isPaused d;
     Status := Status d; Error := Error d |}.

Definition complete (c : ChunkData) : ChunkData :=
  {| Index := Index c; Start := Start c; End := End c; Size := Size c;
     IsCompleted := true |}.

(** [d.Chunks[chunkIndex].IsCompleted = true]; an index out of range
    panics.  The chunk manager, whose slice shares the array of
    [d.Chunks], is left as it is here: the statements below speak of
    [d.Chunks]. *)
Definition markCompleted (chunkIndex : Z) : M unit :=
  do w <- get;
  if (chunkIndex <? 0) then panic
  else
    match Chunks (dl w) !! Z.to_nat chunkIndex with
    | None => panic
    | Some c =>
        set_dl (fun d =>
          with_Chunks (<[Z.to_nat chunkIndex := complete c]> (Chunks d))
            (dChunkManager d) d)
    end.

(** *** The controls (PauseDownloader.go) *)

Definition Pause (d : Downloader) : Downloader :=
  if negb (isPaused d)
  then with_Status DOWNLOAD_PAUSED (with_isPaused true d)
  else d.

Definition Resume (d : Downloader) : Downloader :=
  if isPaused d
  then with_Status DOWNLOAD_IN_PROGRESS (with_isPaused false d)
  else d.

(** Cancel clears the pause flag, sets the status and wakes the waiters. *)
Definition Cancel (d : Downloader) : Downloader :=
  with_Status DOWNLOAD_STOPPED (with_isPaused false d).

(** *** Files (package ufs, os) *)

Definition ErrNotExist : error := ErrorString "file does not exist".

(** The error [os] returns on Unix when it is asked for a file that is
    missing, a [*fs.PathError] that prints as
    [op path: no such file or directory]. *)
Definition PathError (op path : string) : error :=
  ErrorString
    (String.append op
       (String.append " " (String.append path ": no such file or directory"))).

(** [ufs.FileExists]. *)
Definition FileExists (p : string) : M bool :=
  do w <- get; ret (bool_decide (is_Some (fs w !! p))).

(** [os.Stat(p)] followed by [.Size()]. *)
Definition os_Stat_Size (p : string) : M (option Z) :=
  do w <- get; ret ((fun c : list byte => Z.of_nat (length c)) <$> fs w !! p).

(** [os.Create(p)]: the file exists and is empty afterwards. *)
Definition os_Create (p : string) : M unit := set_fs (fun m => <[p := []]> m).

(** [os.OpenFile(p, os.O_WRONLY|os.O_APPEND, 0644)], [os.Open(p)]: the error. *)
Definition os_Open (p : string) : M (option error) :=
  do w <- get;
  ret (match fs w !! p with Some _ => None | None => Some (PathError "open" p) end).

(** [file.Write(data)] on a file opened for appending or just created. *)
Definition file_Write (p : string) (data : list byte) : M unit :=
  set_fs (fun m => <[p := default [] (m !! p) ++ data]> m).

(** [os.Remove(p)]: the error. *)
Definition os_Remove (p : string) : M (option error) :=
  do w <- get;
  match fs w !! p with
  | Some _ => do_ set_fs (fun m => delete p m); ret None
  | None => ret (Some ErrNotExist)
  end.

(** The functions of [path/filepath] and [os] the file-name generator calls. *)
Class PathLib := mkPathLib {
  filepath_Abs : string -> option string;
  os_Getwd : option string;
  filepath_IsAbs : string -> bool;
  filepath_Dir : string -> string;
  filepath_Base : string -> string;
  filepath_Join : string -> string -> string;
  FileNameWithoutExtension : string -> string
}.

Section MultiStream.

Context {lib : GoLib} {plib : PathLib}.

(** [ctx tick] tells whether the context is done when it is looked at for
    the [tick]-th time. *)
Variable ctx : nat -> bool.

(** The origin: its answer to the [n]-th chunk request. *)
Variable chunk_Do : nat -> Request -> error + ChunkResponse.

Definition tick : M bool :=
  fun w => (Returns (ctx (ticks w)),
            {| dl := dl w; fs := fs w; ticks := S (ticks w); requests := requests w;
               totalCompletedBytes := totalCompletedBytes w; events := events w |}).

(** [select { case <-ctx.Done(): ...; default: }]. *)
Definition ctx_Done : M bool := tick.

(** [ctx.Err()]. *)
Definition ctx_Err : M (option error) :=
  do done <- tick; ret (if done then Some Canceled else None).

Definition client_Do_chunk (req : Request) : M (error + ChunkResponse) :=
  fun w => (Returns (chunk_Do (requests w) req),
            {| dl := dl w; fs := fs w; ticks := ticks w; requests := S (requests w);
               totalCompletedBytes := totalCompletedBytes w; events := events w |}).

Definition or_empty (o : option string) : string := default "" o.

(** [ufs.GenerateChunkFileNames]: [None] when [make] panics on a negative
    count (a count no slice can hold is not modelled, as for
    DivideChunks). *)
Definition GenerateChunkFileNames (originalFilename : string) (chunkCount : Z)
    (paths : list string) : option (list string) :=
  if chunkCount <? 0 then None
  else
    let targetDir :=
      match paths with
      | p0 :: _ =>
          if negb (String.eqb p0 "") then
            match filepath_Abs p0 with
            | Some a => a
            | None => or_empty os_Getwd
            end
          else if filepath_IsAbs originalFilename then filepath_Dir originalFilename
          else match os_Getwd with
               | Some wd => wd
               | None => or_empty (filepath_Abs ".")
               end
      | [] =>
          if filepath_IsAbs originalFilename then filepath_Dir originalFilename
          else match os_Getwd with
               | Some wd => wd
               | None => or_empty (filepath_Abs ".")
               end
      end in
    let baseFilename := filepath_Base originalFilename in
    let filenameWithoutExt := FileNameWithoutExtension baseFilename in
    Some ((fun i : Z =>
             let chunkName :=
               String.append filenameWithoutExt
                 (String.append " (" (String.append (fmt_d i) ").udtemp")) in
             let absoluteChunkPath := filepath_Join targetDir chunkName in
             if negb (filepath_IsAbs absoluteChunkPath)
             then or_empty (filepath_Abs absoluteChunkPath)
             else absoluteChunkPath) <$> seqZ 0 chunkCount).

(** [ufs.CreateFile]. *)
Definition CreateFile (pathStr : string) : M (option error) :=
  do_ os_Create pathStr; ret None.

Fixpoint GenerateChunkFiles_loop (i : Z) (chunkFileNames : list string)
    : M (option error) :=
  match chunkFileNames with
  | [] => ret None
  | chunkFileName :: rest =>
      do err <- CreateFile chunkFileName;
      match err with
      | Some e =>
          ret (Some (ErrorString
            (String.append "failed to create chunk file "
               (String.append (fmt_d i) (String.append " ("
                  (String.append chunkFileName
                     (String.append "): " (Error_string e))))))))
      | None => GenerateChunkFiles_loop (i + 1) rest
      end
  end.

Definition GenerateChunkFiles (chunkFileNames : list string) : M (option error) :=
  GenerateChunkFiles_loop 0 chunkFileNames.

(** CleanupChunkFiles: removes every chunk file, collecting the failures
    other than a missing file. *)
Fixpoint CleanupChunkFiles_loop (i : Z) (chunkFileNames : list string)
    (errors : list string) : M (list string) :=
  match chunkFileNames with
  | [] => ret errors
  | chunkFileName :: rest =>
      do err <- os_Remove chunkFileName;
      match err with
      | Some e =>
          if error_eqb e ErrNotExist then CleanupChunkFiles_loop (i + 1) rest errors
          else
            CleanupChunkFiles_loop (i + 1) rest
              (errors ++
               [String.append "chunk "
                  (String.append (fmt_d i) (String.append " ("
                     (String.append chunkFileName
                        (String.append "): " (Error_string e)))))])
      | None => CleanupChunkFiles_loop (i + 1) rest errors
      end
  end.

Definition CleanupChunkFiles (chunkFileNames : list string) : M (option error) :=
  do errors <- CleanupChunkFiles_loop 0 chunkFileNames [];
  if (0 <? Z.of_nat (length errors))
  then
    ret (Some (ErrorString
      (String.append "failed to cleanup some chunk files: ["
         (String.append (String.concat " " errors) "]"))))
  else ret None.

(** The loop of MergeChunkFiles.  A chunk file that is missing cannot be
    opened; copying a chunk file that is there does not fail in this file
    system. *)
Fixpoint MergeChunkFiles_loop (i : Z) (chunkFileNames : list string)
    (outputFilePath : string) : M (option error) :=
  match chunkFileNames with
  | [] => ret None
  | chunkFileName :: rest =>
      do w <- get;
      match fs w !! chunkFileName with
      | None =>
          ret (Some (ErrorString
            (String.append "failed to open chunk file "
               (String.append (fmt_d i) (String.append " ("
                  (String.append chunkFileName
                     (String.append "): "
                        (Error_string (PathError "open" chunkFileName)))))))))
      | Some content =>
          do_ file_Write outputFilePath content;
          do _ <- os_Remove chunkFileName;
          MergeChunkFiles_loop (i + 1) rest outputFilePath
      end
  end.

Definition MergeChunkFiles (chunkFileNames : list string) (outputFilePath : string)
    : M (option error) :=
  do err <- CreateFile outputFilePath;
  match err with
  | Some e =>
      ret (Some (ErrorString (String.append "failed to create output file: " (Error_string e))))
  | None =>
      do oerr <- os_Open outputFilePath;
      match oerr with
      | Some e =>
          ret (Some (ErrorString
            (String.append "failed to open output file for writing: " (Error_string e))))
      | None => MergeChunkFiles_loop 0 chunkFileNames outputFilePath
      end
  end.

(** *** The chunk worker *)

Definition detectChunkResumeOffset (chunkFile : string) (expectedSize : Z)
    : M (Z * option error) :=
  do ex <- FileExists chunkFile;
  if negb ex then ret (0, None)
  else
    do sz <- os_Stat_Size chunkFile;
    match sz with
    | None => ret (0, None)
    | Some currentSize =>
        if currentSize >=? expectedSize then ret (expectedSize, None)
        else ret (currentSize, None)
    end.

(** openChunkFile: the error; the handle is the path. *)
Definition openChunkFile (chunkFile : string) (resumeOffset : Z) : M (option error) :=
  if resumeOffset >? 0 then os_Open chunkFile
  else do_ os_Create chunkFile; ret None.

(** checkPauseState: with the pause flag set the worker reports the pause
    and waits for a Resume or Cancel of another goroutine. *)
Definition checkPauseState : M unit :=
  do w <- get;
  if isPaused (dl w) then do_ emit OnPause; block
  else ret tt.

(** downloadChunkWithProgress, from the loop head with [totalWritten] bytes
    written and [reader] left to read; a reader that has nothing left
    answers [0, io.EOF].  The writer is a chunk file of this file system,
    whose writes do not fail; [downloadChunkWithProgress_on] below is the
    loop with a writer that can fail. *)
Fixpoint downloadChunkWithProgress (chunkIndex : Z) (reader : list ReadResult)
    (writer : string) (expectedBytes totalWritten : Z) : M (Z * option error) :=
  if totalWritten <? expectedBytes then
    do_ checkPauseState;
    do done <- ctx_Done;
    if done then ret (totalWritten, Some Canceled)
    else
      match reader with
      | [] => ret (totalWritten, None)
      | (data, err) :: rest =>
          let n := Z.of_nat (length data) in
          do totalWritten' <-
            (if n >? 0 then
               do_ file_Write writer data;
               do_ atomic_AddInt64 n;
               ret (Int64.wrap (totalWritten + n))
             else ret totalWritten);
          match err with
          | Some EOF => ret (totalWritten', None)
          | Some e =>
              ret (totalWritten',
                   Some (ErrorString
                           (String.append "failed to read chunk data: " (Error_string e))))
          | None =>
              downloadChunkWithProgress chunkIndex rest writer expectedBytes totalWritten'
          end
      end
  else ret (totalWritten, None).

(** The request of downloadSingleChunk: the custom headers, the cookie and
    the range of the chunk (header names are taken in canonical form). *)
Definition chunkRequest (d : Downloader) (startByte endByte : Z) : Request :=
  let h0 := Headers (dHeaders d) in
  let h1 :=
    if negb (String.eqb (Cookies (dHeaders d)) "")
    then <["Cookie" := Cookies (dHeaders d)]> h0 else h0 in
  let h2 :=
    <["Range" := String.append "bytes="
                   (String.append (fmt_d startByte)
                      (String.append "-" (fmt_d endByte)))]> h1 in
  {| reqMethod := "GET"; reqURL := Url d; reqHeader := h2 |}.

Definition downloadSingleChunk (chunkIndex : Z) (chunkData : ChunkData)
    (chunkFile : string) (resumeOffset : Z) : M (option error) :=
  do_ emit (OnChunkStart chunkIndex (Start chunkData) (End chunkData));
  let startByte := Int64.wrap (Start chunkData + resumeOffset) in
  let endByte := End chunkData in
  do w <- get;
  match http_NewRequest "GET" (Url (dl w)) with
  | Some err =>
      ret (Some (ErrorString (String.append "failed to create request: " (Error_string err))))
  | None =>
      do r <- client_Do_chunk (chunkRequest (dl w) startByte endByte);
      match r with
      | inl err =>
          ret (Some (ErrorString (String.append "failed to make request: " (Error_string err))))
      | inr resp =>
          if negb (respStatus resp =? 206) then
            ret (Some (ErrorString
                         (String.append "unexpected status code: " (fmt_d (respStatus resp)))))
          else
            do oerr <- openChunkFile chunkFile resumeOffset;
            match oerr with
            | Some err =>
                ret (Some (ErrorString
                             (String.append "failed to open chunk file: " (Error_string err))))
            | None =>
                do r <-
                  downloadChunkWithProgress chunkIndex (Body resp) chunkFile
                    (Int64.wrap (Size chunkData - resumeOffset)) 0;
                let '(bytesWritten, err) := r in
                match err with
                | Some e =>
                    do_ emit (OnChunkError chunkIndex (Start chunkData) (End chunkData) e);
                    ret (Some e)
                | None =>
                    do_ markCompleted chunkIndex;
                    do_ emit (OnChunkFinish chunkIndex (Start chunkData) (End chunkData)
                                bytesWritten);
                    ret None
                end
            end
      end
  end.

(** The goroutine downloadChunksConcurrently starts for one chunk: what it
    sends on the error channel, if anything. *)
Definition chunkWorker (chunkIndex : Z) (chunkData : ChunkData) (chunkFile : string)
    : M (option error) :=
  do r <- detectChunkResumeOffset chunkFile (Size chunkData);
  let '(resumeOffset, err) := r in
  match err with
  | Some e =>
      ret (Some (ErrorString
        (String.append "chunk "
           (String.append (fmt_d chunkIndex)
              (String.append " resume detection failed: " (Error_string e))))))
  | None =>
      if resumeOffset >=? Size chunkData then
        do_ atomic_AddInt64 (Size chunkData);
        do_ markCompleted chunkIndex;
        do_ emit (OnChunkFinish chunkIndex (Start chunkData) (End chunkData)
                    (Size chunkData));
        ret None
      else
        do derr <- downloadSingleChunk chunkIndex chunkData chunkFile resumeOffset;
        match derr with
        | Some e =>
            ret (Some (ErrorString
              (String.append "chunk "
                 (String.append (fmt_d chunkIndex)
                    (String.append " download failed: " (Error_string e))))))
        | None => ret None
        end
  end.

(** The workers of downloadChunksConcurrently, run one after the other in
    chunk order (one of the schedules of the goroutines); [errorChan] holds
    the errors sent so far.  [chunkFileNames[i]] panics when the slice is
    too short. *)
Fixpoint runWorkers (i : Z) (chunks : list ChunkData) (chunkFileNames : list string)
    (errorChan : list error) : M (list error) :=
  match chunks with
  | [] => ret errorChan
  | chunk :: rest =>
      match chunkFileNames !! Z.to_nat i with
      | None => panic
      | Some chunkFile =>
          do r <- chunkWorker i chunk chunkFile;
          runWorkers (i + 1) rest chunkFileNames
            (match r with Some e => errorChan ++ [e] | None => errorChan end)
      end
  end.

Definition downloadChunksConcurrently (chunkFileNames : list string) : M (option error) :=
  do w <- get;
  do_ (fun w0 => (Returns tt,
         {| dl := dl w0; fs := fs w0; ticks := ticks w0; requests := requests w0;
            totalCompletedBytes := 0; events := events w0 |}));
  do errorChan <- runWorkers 0 (Chunks (dl w)) chunkFileNames [];
  match errorChan with
  | e :: _ => ret (Some e)
  | [] => ret None
  end.

(** *** The orchestrator *)

Definition handleDownloadError (err : error) : M unit :=
  do_ set_dl (fun d => with_Error (Some err) (with_Status DOWNLOAD_FAILED d));
  emit (OnError err).

Definition finalizeDownload : M unit :=
  do_ set_dl (with_Status DOWNLOAD_COMPLETED);
  emit OnFinish.

Definition mergeChunksToFinalFile (chunkFileNames : list string) : M (option error) :=
  do_ emit OnAssembleStart;
  do w <- get;
  do err <- MergeChunkFiles chunkFileNames (FullPath (fileInfo (dl w)));
  match err with
  | Some e => do_ emit (OnAssembleError e); ret (Some e)
  | None => do_ emit OnAssembleFinish; ret None
  end.

(** The second half of executeMultiStreamDownload: the concurrent download
    of the chunks and what follows it (cleanup, or merge and completion). *)
Definition executeMultiStreamDownload_chunks (chunkFileNames : list string) : M unit :=
  do derr <- downloadChunksConcurrently chunkFileNames;
  match derr with
  | Some err =>
      do _ <- CleanupChunkFiles chunkFileNames;
      do cerr <- ctx_Err;
      match cerr with
      | Some Canceled =>
          do_ set_dl (with_Status DOWNLOAD_STOPPED);
          emit OnStop
      | _ => handleDownloadError err
      end
  | None =>
      do merr <- mergeChunksToFinalFile chunkFileNames;
      match merr with
      | Some e =>
          handleDownloadError
            (ErrorString (String.append "failed to merge chunks: " (Error_string e)))
      | None => finalizeDownload
      end
  end.

(** executeMultiStreamDownload.  The progress tracker
    ([d.Progress.UpdateProgress]) and the sampler goroutine
    (monitorMultiStreamProgress) with its on-progress callbacks are not
    part of the state modelled: [events] holds the callbacks of the job
    and its workers. *)
Definition executeMultiStreamDownload : M unit :=
  do w <- get;
  let d := dl w in
  let threadCount := getOptimalThreadCount d in
  match DivideChunks (Filesize (ServerHeaders d)) threadCount with
  | None => panic
  | Some chunkSizes =>
      match initializeChunks (Filesize (ServerHeaders d)) chunkSizes with
      | None => panic
      | Some (cs, cm) =>
          do_ set_dl (with_Chunks cs (Some cm));
          match GenerateChunkFileNames (Name (fileInfo d)) threadCount [Dir (fileInfo d)] with
          | None => panic
          | Some chunkFileNames =>
              do gerr <- GenerateChunkFiles chunkFileNames;
              match gerr with
              | Some e =>
                  handleDownloadError
                    (ErrorString (String.append "failed to create chunk files: " (Error_string e)))
              | None => executeMultiStreamDownload_chunks chunkFileNames
              end
          end
      end
  end.

End MultiStream.

(** DownloadMultiStream hands executeMultiStreamDownload a context derived
    from [context.Background()] together with its cancel function, which
    nothing calls before executeMultiStreamDownload has returned (it is
    neither called there nor stored): no look at this context finds it
    done. *)
Definition DownloadMultiStream_ctx : nat -> bool := fun _ => false.

(** A stand-in for [path/filepath] on slash-separated absolute paths, used
    to run the engine on concrete downloads. *)
Fixpoint cut_extension (s : string) : option string :=
  match s with
  | EmptyString => None
  | String c s' =>
      match cut_extension s' with
      | Some r => Some (String c r)
      | None => if Ascii.eqb c "."%char then Some EmptyString else None
      end
  end.

Definition plainPaths : PathLib :=
  {| filepath_Abs := fun s => Some s;
     os_Getwd := Some "/";
     filepath_IsAbs := fun s => String.prefix "/" s;
     filepath_Dir := fun s => s;
     filepath_Base := fun s => s;
     filepath_Join := fun a b => String.append a (String.append "/" b);
     FileNameWithoutExtension := fun s => default s (cut_extension s) |}.

(** ** Progress tracking (updateProgress, UpdateProgress) *)

(** A [time.Time] is the number of nanoseconds since the zero time, a
    [time.Duration] a number of nanoseconds held in an [int64]; a
    [float64] is a binary64 float of the kernel. *)
Definition Time : Type := Z.
Definition Duration : Type := Z.

Definition Second : Duration := 1000000000.

Definition Time_IsZero (t : Time) : bool := t =? 0.

(** [t.Sub(u)], which saturates at the ends of [int64]. *)
Definition Time_Sub (t u : Time) : Duration :=
  if t - u <? Int64.min_int then Int64.min_int
  else if Int64.max_int <? t - u then Int64.max_int
  else t - u.

(** The conversion [float64(z)] of an [int64]. *)
Definition float64_of_int64 (z : Z) : float :=
  if z =? Int64.min_int then (-9223372036854775808)%float
  else if z <? 0 then PrimFloat.opp (PrimFloat.of_uint63 (Uint63.of_Z (- z)))
  else PrimFloat.of_uint63 (Uint63.of_Z z).

(** The conversion [int64(f)]: truncation toward zero; a value that does
    not fit, an infinity or a NaN gives the least [int64], as on amd64. *)
Definition int64_of_float64 (f : float) : Z :=
  match Prim2SF f with
  | S754_zero _ => 0
  | S754_finite s m e =>
      let mag :=
        if 0 <=? e then Z.pos m * 2 ^ e else Z.pos m / 2 ^ (- e) in
      let v := if s then - mag else mag in
      if (Int64.min_int <=? v) && (v <=? Int64.max_int) then v else Int64.min_int
  | _ => Int64.min_int
  end.

(** [d.Seconds()]. *)
Definition Duration_Seconds (d : Duration) : float :=
  let sec := Z.quot d Second in
  let nsec := Z.rem d Second in
  (float64_of_int64 sec + float64_of_int64 nsec / 1e9)%float.

Record ProgressTracker := mkProgressTracker {
  BytesCompleted : Z;
  TotalBytes : Z;
  LastReported : Time;
  LastCheckTime : Time;
  SpeedBps : float;
  Percentage : float;
  ETA : Duration;
  BytesPerSecond : Z;
  StartTime : Time
}.

(** updateProgress of the single-stream downloader, run when [time.Now()]
    reads [now]: the tracker afterwards, and whether the progress callback
    is called. *)
Definition updateProgress (now : Time) (bytesRead totalSize : Z)
    (pt : ProgressTracker) : ProgressTracker * bool :=
  let completed := Int64.wrap (BytesCompleted pt + bytesRead) in
  if Time_Sub now (LastReported pt) >=? Second then
    let elapsed := Duration_Seconds (Time_Sub now (LastReported pt)) in
    ({| BytesCompleted := completed; TotalBytes := TotalBytes pt;
        LastReported := now; LastCheckTime := LastCheckTime pt;
        SpeedBps := (float64_of_int64 bytesRead / elapsed)%float;
        Percentage := Percentage pt; ETA := ETA pt;
        BytesPerSecond := BytesPerSecond pt; StartTime := StartTime pt |}, true)
  else
    ({| BytesCompleted := completed; TotalBytes := TotalBytes pt;
        LastReported := LastReported pt; LastCheckTime := LastCheckTime pt;
        SpeedBps := SpeedBps pt;
        Percentage := Percentage pt; ETA := ETA pt;
        BytesPerSecond := BytesPerSecond pt; StartTime := StartTime pt |}, false).

(** UpdateProgress of the ProgressTracker, run when [time.Now()] reads [now]. *)
Definition UpdateProgress (now : Time) (bytesRead totalSize : Z)
    (pt : ProgressTracker) : ProgressTracker :=
  let startTime := if Time_IsZero (StartTime pt) then now else StartTime pt in
  let completed := Int64.wrap (BytesCompleted pt + bytesRead) in
  let percentage :=
    if totalSize >? 0 then
      let p := (float64_of_int64 completed / float64_of_int64 totalSize * 100)%float in
      if (100 <? p)%float then 100%float else p
    else Percentage pt in
  let speed :=
    if negb (Time_IsZero (LastReported pt)) then
      let elapsed := Duration_Seconds (Time_Sub now (LastReported pt)) in
      if (0 <? elapsed)%float then (float64_of_int64 bytesRead / elapsed)%float
      else SpeedBps pt
    else SpeedBps pt in
  let totalElapsed := Duration_Seconds (Time_Sub now startTime) in
  let bytesPerSecond :=
    if (0 <? totalElapsed)%float
    then int64_of_float64 (float64_of_int64 completed / totalElapsed)%float
    else BytesPerSecond pt in
  let eta :=
    if ((0 <? speed)%float && (totalSize >? 0) && (completed <? totalSize))%bool then
      let remainingBytes := Int64.wrap (totalSize - completed) in
      let etaSeconds := (float64_of_int64 remainingBytes / speed)%float in
      Int64.wrap (int64_of_float64 etaSeconds * Second)
    else ETA pt in
  {| BytesCompleted := completed; TotalBytes := totalSize;
     LastReported := now; LastCheckTime := now;
     SpeedBps := speed; Percentage := percentage; ETA := eta;
     BytesPerSecond := bytesPerSecond; StartTime := startTime |}.

(** The sampler of the multi-stream path (monitorMultiStreamProgress): the
    speed it stores when a tick at [now] finds [current] bytes completed,
    [lastReported] bytes at the previous sample taken at [lastReportTime]. *)
Definition monitorSpeed (now lastReportTime : Time) (current lastReported : Z)
    : option float :=
  let elapsed := Duration_Seconds (Time_Sub now lastReportTime) in
  if (1 <=? elapsed)%float then
    let bytesDiff := Int64.wrap (current - lastReported) in
    Some (float64_of_int64 bytesDiff / elapsed)%float
  else None.

(** ** Notions used in the statements below *)

(** The sum of a slice of sizes. *)
Definition sumZ (l : list Z) : Z := foldr Z.add 0 l.

(** The size DivideChunks gives to chunk [i]. *)
Definition sizeAt (chunkCount chunkSize underFlowSize i : Z) : Z :=
  if i =? chunkCount - 2 then chunkSize + underFlowSize else chunkSize.

(** The decision predicate of the specification, on the worker count the
    multi-stream path would run with. *)
Definition multiStreamPredicate (d : Downloader) : Prop :=
  AcceptsRanges (ServerHeaders d) = true /\
  Filesize (ServerHeaders d) > 0 /\
  Filesize (ServerHeaders d) >= 10 * 1024 * 1024 /\
  getOptimalThreadCount d > 1.

(** A response of an origin that spells the range unit with a capital. *)
Definition response_Bytes : Response :=
  {| StatusCode := 200;
     Header := {[ "Accept-Ranges" := ["Bytes"]; "Content-Length" := ["1048576"] ]};
     RequestURL := "http://origin/file.bin" |}.

(** The response to a HEAD request for a file the origin does not have. *)
Definition response_404 : Response :=
  {| StatusCode := 404; Header := ∅; RequestURL := "http://origin/missing.bin" |}.

(** The file system after removing the files [names]. *)
Definition remove_all (names : list string) (m : gmap string (list byte))
    : gmap string (list byte) :=
  foldl (fun m p => delete p m) m names.

(** [m] sends at most [k] chunk requests, however it ends. *)
Definition sends_at_most {A} (k : nat) (m : M A) : Prop :=
  forall w, (requests (snd (m w)) <= requests w + k)%nat.

(** The resume offset a worker finds for a chunk of [size] bytes. *)
Definition resumeOffset (w : World) (chunkFile : string) (size : Z) : Z :=
  match fs w !! chunkFile with
  | Some content =>
      if Z.of_nat (length content) >=? size then size else Z.of_nat (length content)
  | None => 0
  end.

(** The state after another goroutine has run [d.Cancel()]. *)
Definition after_Cancel (w : World) : World :=
  {| dl := Cancel (dl w); fs := fs w; ticks := ticks w; requests := requests w;
     totalCompletedBytes := totalCompletedBytes w; events := events w |}.

(** A download of eight bytes in two chunks, with three retries allowed. *)
Definition job : Downloader :=
  {| Url := "http://origin/file.bin";
     fileInfo := {| Dir := "/dl"; Name := "file.bin"; FullPath := "/dl/file.bin" |};
     Prefs := {| DownloadDir := "/dl"; fileName := ""; threadCount := 2; maxRetries := 3 |};
     dHeaders := {| Cookies := ""; Headers := ∅ |};
     ServerHeaders := {| Filename := "file.bin"; Filesize := 8; Filetype := "";
                         AcceptsRanges := true; FinalURL := "http://origin/file.bin" |};
     Chunks := []; dChunkManager := None; isPaused := false;
     Status := DOWNLOAD_IN_PROGRESS; Error := None |}.

(** The job as executeMultiStreamDownload finds it. *)
Definition job_start : World :=
  {| dl := job; fs := ∅; ticks := 0; requests := 0; totalCompletedBytes := 0;
     events := [] |}.

(** Its chunk files and chunks. *)
Definition job_names : list string := ["/dl/file (0).udtemp"; "/dl/file (1).udtemp"].

Definition job_chunks : list ChunkData :=
  [ {| Index := 0; Start := 0; End := 3; Size := 4; IsCompleted := false |};
    {| Index := 1; Start := 4; End := 7; Size := 4; IsCompleted := false |} ].

(** The job once its chunks are planned and its chunk files created. *)
Definition job_planned : World :=
  {| dl := with_Chunks job_chunks
             (Some {| cmChunks := job_chunks; cmChunkSize := 4; cmTotalSize := 8;
                      cmCompletedBytes := 0 |}) job;
     fs := {[ "/dl/file (0).udtemp" := []; "/dl/file (1).udtemp" := [] ]};
     ticks := 0; requests := 0; totalCompletedBytes := 0; events := [] |}.

(** An origin that serves every range of four bytes in two reads. *)
Definition origin_ok : ChunkResponse :=
  {| respStatus := 206;
     Body := [([Byte.x01; Byte.x02], None); ([Byte.x03; Byte.x04], None)] |}.

(** An origin whose connection breaks once, in the middle of the first
    response, and which serves every later request. *)
Definition origin_flaky (n : nat) (req : Request) : error + ChunkResponse :=
  match n with
  | O => inr {| respStatus := 206;
                Body := [([Byte.x01; Byte.x02], None); ([], Some ErrUnexpectedEOF)] |}
  | S _ => inr origin_ok
  end.

(** A context that is cancelled after the first read of the first worker:
    the request already under way is served, a later one fails. *)
Definition cancelled_after_first_read (tick : nat) : bool := Nat.leb 1 tick.

(** The origin as the workers see it under that context. *)
Definition origin_cancelled (n : nat) (req : Request) : error + ChunkResponse :=
  match n with
  | O => inr origin_ok
  | S _ => inl (ErrorString "context canceled")
  end.

(** The job while its first worker has written two of its four bytes and
    the user has paused the download. *)
Definition job_midway : World :=
  {| dl := Pause (dl job_planned);
     fs := {[ "/dl/file (0).udtemp" := [Byte.x01; Byte.x02];
              "/dl/file (1).udtemp" := [] ]};
     ticks := 1; requests := 1; totalCompletedBytes := 2;
     events := [OnChunkStart 0 0 3] |}.

(** A tracker whose last speed sample was taken 1000 s after the zero time. *)
Definition tracker_sampled : ProgressTracker :=
  {| BytesCompleted := 0; TotalBytes := 0;
     LastReported := 1000 * Second; LastCheckTime := 0;
     SpeedBps := 0; Percentage := 0; ETA := 0; BytesPerSecond := 0;
     StartTime := 1000 * Second |}.

(** Two writes after that sample: 1000 bytes after half a second, 24 bytes
    after a full second. *)
Definition tracker_after_first_write : ProgressTracker :=
  fst (updateProgress (1000 * Second + 500000000) 1000 2000 tracker_sampled).

(** The tracker after the second of these writes. *)
Definition tracker_after_second_write : ProgressTracker :=
  fst (updateProgress (1001 * Second) 24 2000 tracker_after_first_write).

(** ** Further parts of the engine *)

(** *** StopDownload and Dispose (CancelDownload.go) *)

(** The fields of the downloader StopDownload works on: its mutex, the
    stopped flag, whether a cancel function and callbacks are installed,
    and how often the cancel function has been called. *)
Record StopState := mkStopState {
  muLocked : bool;
  isStopped : bool;
  hasCancelFunc : bool;
  cancelCalls : nat;
  hasCallbacks : bool
}.

(** [d.mu.Lock()]: a [sync.Mutex] that is held makes the caller wait, also
    when the caller itself holds it. *)
Definition mu_Lock (st : StopState) : Run unit * StopState :=
  if muLocked st then (Blocks, st)
  else (Returns tt,
        {| muLocked := true; isStopped := isStopped st;
           hasCancelFunc := hasCancelFunc st; cancelCalls := cancelCalls st;
           hasCallbacks := hasCallbacks st |}).

(** [d.mu.Unlock()], run by [defer] when the function returns. *)
Definition mu_Unlock (st : StopState) : StopState :=
  {| muLocked := false; isStopped := isStopped st;
     hasCancelFunc := hasCancelFunc st; cancelCalls := cancelCalls st;
     hasCallbacks := hasCallbacks st |}.

Definition StopDownload (st : StopState) : Run unit * StopState :=
  match mu_Lock st with
  | (Returns _, st1) =>
      if isStopped st1 then (Returns tt, mu_Unlock st1)
      else
        let calls :=
          if hasCancelFunc st1 then S (cancelCalls st1) else cancelCalls st1 in
        (Returns tt,
         mu_Unlock
           {| muLocked := muLocked st1; isStopped := true;
              hasCancelFunc := hasCancelFunc st1; cancelCalls := calls;
              hasCallbacks := false |})
  | (r, st1) => (r, st1)
  end.

Definition Dispose (st : StopState) : Run unit * StopState :=
  match mu_Lock st with
  | (Returns _, st1) =>
      match StopDownload st1 with
      | (Returns _, st2) => (Returns tt, mu_Unlock st2)
      | (r, st2) => (r, st2)
      end
  | (r, st1) => (r, st1)
  end.

(** *** Per-chunk progress (DownloaderModels.go) *)

Record ChunkProgressData := mkChunkProgressData {
  cpIndex : Z;
  cpPercentage : float;
  cpIsComplete : bool;
  cpBytesDownloaded : Z;
  cpTotalBytes : Z
}.

(** InitializeChunkProgress: the new [d.ChunkProgress].  [make] panics on
    a negative count; it also panics on a count no slice can hold, which
    is not modelled: the statements about this function are for counts up
    to [max_workers]. *)
Definition InitializeChunkProgress (chunkCount : Z) : option (list ChunkProgressData) :=
  if chunkCount <? 0 then None
  else
    Some ((fun i : Z =>
             {| cpIndex := i; cpPercentage := 0%float; cpIsComplete := false;
                cpBytesDownloaded := 0; cpTotalBytes := 0 |})
          <$> seqZ 0 chunkCount).

(** UpdateChunkProgress on [d.ChunkProgress]. *)
Definition UpdateChunkProgress (chunkIndex bytesDownloaded totalBytes : Z)
    (ChunkProgress : list ChunkProgressData) : list ChunkProgressData :=
  if ((chunkIndex >=? 0) && (chunkIndex <? Z.of_nat (length ChunkProgress)))%bool then
    match ChunkProgress !! Z.to_nat chunkIndex with
    | None => ChunkProgress
    | Some e =>
        <[Z.to_nat chunkIndex :=
            {| cpIndex := cpIndex e;
               cpPercentage :=
                 if totalBytes >? 0
                 then (float64_of_int64 bytesDownloaded
                       / float64_of_int64 totalBytes * 100)%float
                 else cpPercentage e;
               cpIsComplete := ((bytesDownloaded >=? totalBytes) && (totalBytes >? 0))%bool;
               cpBytesDownloaded := bytesDownloaded;
               cpTotalBytes := totalBytes |}]> ChunkProgress
    end
  else ChunkProgress.

Definition IsMultiStreamDownload (ChunkProgress : list ChunkProgressData) : bool :=
  Z.of_nat (length ChunkProgress) >? 1.

(** *** Headers learnt during a single-stream download *)

Definition with_ServerHeaders (h : ServerData) (d : Downloader) : Downloader :=
  {| Url := Url d; fileInfo := fileInfo d; Prefs := Prefs d; dHeaders := dHeaders d;
     ServerHeaders := h; Chunks := Chunks d;
     dChunkManager := dChunkManager d; isPaused := isPaused d;
     Status := Status d; Error := Error d |}.

(** shouldElevateToMultiStream, with [completed] the bytes the tracker
    has counted. *)
Definition shouldElevateToMultiStream (completed : Z) (headers : ServerData)
    (totalSize : Z) : bool :=
  if negb (AcceptsRanges headers) then false
  else if ((Filesize headers >? 0) && (Filesize headers <? 10 * 1024 * 1024))%bool then false
  else if ((totalSize >? 0)
           && (0.25 <? float64_of_int64 completed / float64_of_int64 totalSize)%float)%bool
       then false
  else true.

(** handleUpdatedHeaders: the downloader and the elevation flag afterwards. *)
Definition handleUpdatedHeaders (completed : Z) (headers : ServerData)
    (elevationChecked : bool) (totalSize : Z) (d : Downloader) : Downloader * bool :=
  let h0 := ServerHeaders d in
  let h1 :=
    if ((Filesize headers >? 0) && (Filesize h0 =? 0))%bool
    then {| Filename := Filename h0; Filesize := Filesize headers;
            Filetype := Filetype h0; AcceptsRanges := AcceptsRanges h0;
            FinalURL := FinalURL h0 |}
    else h0 in
  let h2 :=
    if (AcceptsRanges headers && negb (AcceptsRanges h1))%bool
    then {| Filename := Filename h1; Filesize := Filesize h1;
            Filetype := Filetype h1; AcceptsRanges := true;
            FinalURL := FinalURL h1 |}
    else h1 in
  let checked :=
    if (negb elevationChecked && shouldElevateToMultiStream completed headers totalSize)%bool
    then true else elevationChecked in
  (with_ServerHeaders h2 d, checked).

(** *** Resuming a single-stream download *)

(** detectResumeOffset of the single-stream downloader. *)
Definition detectResumeOffset : M (Z * option error) :=
  do w <- get;
  do ex <- FileExists (FullPath (fileInfo (dl w)));
  if negb ex then ret (0, None)
  else
    do sz <- os_Stat_Size (FullPath (fileInfo (dl w)));
    match sz with
    | None => ret (0, None)
    | Some size =>
        if AcceptsRanges (ServerHeaders (dl w)) then ret (size, None)
        else ret (0, None)
    end.

(** *** Request headers ([net/http], [net/textproto]) *)

Definition upper_ascii (c : ascii) : ascii :=
  let n := nat_of_ascii c in
  if (Nat.leb 97 n && Nat.leb n 122)%bool then ascii_of_nat (n - 32) else c.

(** [validHeaderFieldByte]: letters, digits and the other token characters
    of RFC 7230. *)
Definition validHeaderFieldByte (c : ascii) : bool :=
  let n := nat_of_ascii c in
  ((Nat.leb 48 n && Nat.leb n 57) || (Nat.leb 65 n && Nat.leb n 90)
   || (Nat.leb 97 n && Nat.leb n 122)
   || existsb (Ascii.eqb c)
        ["!"; "#"; "$"; "%"; "&"; "'"; "*"; "+"; "-"; "."; "^"; "_"; "`"; "|"; "~"]%char)%bool.

Fixpoint all_bytes (f : ascii -> bool) (s : string) : bool :=
  match s with
  | EmptyString => true
  | String c s' => (f c && all_bytes f s')%bool
  end.

(** The loop of [canonicalMIMEHeaderKey]: the first letter and every
    letter after a hyphen in upper case, the other letters in lower case. *)
Fixpoint canonicalMIMEHeaderKey (upper : bool) (s : string) : string :=
  match s with
  | EmptyString => EmptyString
  | String c s' =>
      let c' := if upper then upper_ascii c else lower_ascii c in
      String c' (canonicalMIMEHeaderKey (Ascii.eqb c' "-") s')
  end.

(** [textproto.CanonicalMIMEHeaderKey]: a key with a byte that is not a
    token character is returned as it is. *)
Definition CanonicalMIMEHeaderKey (s : string) : string :=
  if all_bytes validHeaderFieldByte s then canonicalMIMEHeaderKey true s else s.

(** [h.Set(key, value)]: the entry is stored under the canonical form of
    the key and replaces the one that was there. *)
Definition Header_Set (key value : string) (h : gmap string string)
    : gmap string string :=
  <[CanonicalMIMEHeaderKey key := value]> h.

(** The loop [for key, value := range d.Headers.Headers] with
    [req.Header.Set(key, value)] in its body, on the headers [h]; [order]
    is the order in which the loop meets the entries of the map, which Go
    leaves open. *)
Definition Header_Set_all (order : list (string * string)) (h : gmap string string)
    : gmap string string :=
  foldl (fun h kv => Header_Set (fst kv) (snd kv) h) h order.

(** [order] is an order in which a [range] loop can meet the entries of
    [m]: every entry once. *)
Definition ranges_over (order : list (string * string)) (m : gmap string string)
    : Prop :=
  order ≡ₚ map_to_list m.

(** The request of downloadSingleChunk, with the header names as
    [Header.Set] stores them; [chunkRequest] is this request for custom
    headers whose names are canonical. *)
Definition chunkRequest_in_order (order : list (string * string)) (d : Downloader)
    (startByte endByte : Z) : Request :=
  let h1 := Header_Set_all order ∅ in
  let h2 :=
    if negb (String.eqb (Cookies (dHeaders d)) "")
    then Header_Set "Cookie" (Cookies (dHeaders d)) h1 else h1 in
  let h3 :=
    Header_Set "Range"
      (String.append "bytes="
         (String.append (fmt_d startByte) (String.append "-" (fmt_d endByte)))) h2 in
  {| reqMethod := "GET"; reqURL := Url d; reqHeader := h3 |}.

(** The request of performSingleStreamDownload. *)
Definition singleStreamRequest (order : list (string * string)) (d : Downloader)
    (resumeOffset : Z) : Request :=
  let h1 := Header_Set_all order ∅ in
  let h2 :=
    if negb (String.eqb (Cookies (dHeaders d)) "")
    then Header_Set "Cookie" (Cookies (dHeaders d)) h1 else h1 in
  let h3 :=
    if ((resumeOffset >? 0) && AcceptsRanges (ServerHeaders d))%bool
    then Header_Set "Range"
           (String.append "bytes=" (String.append (fmt_d resumeOffset) "-")) h2
    else h2 in
  {| reqMethod := "GET"; reqURL := Url d; reqHeader := h3 |}.

(** openOutputFile: the error; the handle is the path. *)
Definition openOutputFile (resumeOffset : Z) : M (option error) :=
  do w <- get;
  if resumeOffset >? 0 then os_Open (FullPath (fileInfo (dl w)))
  else do_ os_Create (FullPath (fileInfo (dl w))); ret None.

(** *** File placement (CheckPreferences) *)

(** What CheckPreferences needs of [os] beyond [PathLib]: the home
    directory, and the errors [os.Getwd] and [filepath.Abs] report when
    they fail. *)
Class OsLib := mkOsLib {
  os_UserHomeDir : option string;
  os_Getwd_error : error;
  filepath_Abs_error : string -> error
}.

Definition with_fileInfo (f : FileInfo) (d : Downloader) : Downloader :=
  {| Url := Url d; fileInfo := f; Prefs := Prefs d; dHeaders := dHeaders d;
     ServerHeaders := ServerHeaders d; Chunks := Chunks d;
     dChunkManager := dChunkManager d; isPaused := isPaused d;
     Status := Status d; Error := Error d |}.

Section Placement.

Context {plib : PathLib} {olib : OsLib}.

(** The filename CheckPreferences settles on. *)
Definition CheckPreferences_name (d : Downloader) : string :=
  let headers := ServerHeaders d in
  if negb (String.eqb (fileName (Prefs d)) "") then fileName (Prefs d)
  else if negb (String.eqb (Filename headers) "") then Filename headers
  else
    let name := "downloaded_file" in
    if negb (String.eqb (Filetype headers) "") then
      let ext := mimeExtensionFromContentType (Filetype headers) in
      if negb (String.eqb ext "") then String.append name ext else name
    else name.

(** CheckPreferences: the error it returns and the downloader it leaves. *)
Definition CheckPreferences (d : Downloader) : option error * Downloader :=
  let name := CheckPreferences_name d in
  let d1 := with_fileInfo {| Dir := Dir (fileInfo d); Name := name;
                             FullPath := FullPath (fileInfo d) |} d in
  let dir : error + string :=
    if negb (String.eqb (DownloadDir (Prefs d)) "") then inr (DownloadDir (Prefs d))
    else
      match os_UserHomeDir with
      | None =>
          match os_Getwd with
          | None =>
              inl (ErrorString (String.append "failed to get current directory: "
                                  (Error_string os_Getwd_error)))
          | Some cwd => inr cwd
          end
      | Some userHomeDir => inr (filepath_Join userHomeDir "Downloads")
      end in
  match dir with
  | inl err => (Some err, d1)
  | inr dir0 =>
      let d2 := with_fileInfo {| Dir := dir0; Name := name;
                                 FullPath := FullPath (fileInfo d) |} d in
      match filepath_Abs dir0 with
      | None =>
          (Some (ErrorString (String.append "failed to resolve absolute path: "
                                (Error_string (filepath_Abs_error dir0)))), d2)
      | Some absDir =>
          (None,
           with_fileInfo {| Dir := absDir; Name := name;
                            FullPath := filepath_Join absDir name |} d)
      end
  end.

End Placement.

(** *** The second filename extraction of the probe (extractFilename) *)

Section ExtractFilename.

Context {lib : GoLib}.

Definition extractFilename (resp : Response) : string :=
  let cd := Header_Get (Header resp) "Content-Disposition" in
  let fromURL :=
    match url_Parse_Path (RequestURL resp) with
    | Some p =>
        let base := path_Base p in
        if (negb (String.eqb base "") && Contains base ".")%bool then base else ""
    | None => ""
    end in
  if negb (String.eqb cd "") then
    match mime_ParseMediaType cd with
    | Some params =>
        match params !! "filename" with
        | Some name => name
        | None =>
            match params !! "filename*" with
            | Some name =>
                if HasPrefix name "UTF-8''" then
                  match url_QueryUnescape (TrimPrefix name "UTF-8''") with
                  | Some decoded => decoded
                  | None => fromURL
                  end
                else fromURL
            | None => fromURL
            end
        end
    | None => fromURL
    end
  else fromURL.

End ExtractFilename.

(** A stand-in for Go's library that reads a URL as its own path. *)
Definition urlPathLib : GoLib :=
  {| http_NewRequest := fun _ _ => None;
     mime_ParseMediaType := fun _ => None;
     url_QueryUnescape := fun s => Some s;
     url_Parse_Path := fun s => Some s;
     path_Base := fun s => s;
     fmt_Sscanf_d := fun s => scan_digits s 0 |}.

(** A stand-in for [os] with a home directory. *)
Definition plainOs : OsLib :=
  {| os_UserHomeDir := Some "/home/user";
     os_Getwd_error := ErrorString "getwd: no such file or directory";
     filepath_Abs_error := fun _ => ErrorString "getwd: no such file or directory" |}.

(** *** The chunk loop with a writer that can fail *)

(** One call of [writer.Write(data)]: [None] when all of [data] is written,
    [Some (k, e)] when it fails with [e] after [k] bytes of it. *)
Definition WriteResult : Type := option (nat * error).

(** [writer.Write(data)] on the file [p] with the outcome [o]: the error. *)
Definition file_Write_result (p : string) (data : list byte) (o : WriteResult)
    : M (option error) :=
  match o with
  | None => do_ file_Write p data; ret None
  | Some (k, e) => do_ file_Write p (take k data); ret (Some e)
  end.

(** downloadChunkWithProgress with the outcomes [writes] of the calls of
    [writer.Write], in order (a call past the end of [writes] succeeds).
    downloadChunkWithProgress above is this loop for a writer that never
    fails. *)
Fixpoint downloadChunkWithProgress_on (ctx : nat -> bool) (chunkIndex : Z)
    (reader : list ReadResult) (writer : string) (writes : list WriteResult)
    (expectedBytes totalWritten : Z) : M (Z * option error) :=
  if totalWritten <? expectedBytes then
    do_ checkPauseState;
    do done <- ctx_Done ctx;
    if done then ret (totalWritten, Some Canceled)
    else
      match reader with
      | [] => ret (totalWritten, None)
      | (data, err) :: rest =>
          let n := Z.of_nat (length data) in
          let after (totalWritten' : Z) (writes' : list WriteResult) :=
            match err with
            | Some EOF => ret (totalWritten', None)
            | Some e =>
                ret (totalWritten',
                     Some (ErrorString
                             (String.append "failed to read chunk data: " (Error_string e))))
            | None =>
                downloadChunkWithProgress_on ctx chunkIndex rest writer writes'
                  expectedBytes totalWritten'
            end in
          if n >? 0 then
            do writeErr <- file_Write_result writer data (default None (head writes));
            match writeErr with
            | Some e =>
                ret (totalWritten,
                     Some (ErrorString
                             (String.append "failed to write chunk data: " (Error_string e))))
            | None =>
                do_ atomic_AddInt64 n;
                after (Int64.wrap (totalWritten + n)) (tail writes)
            end
          else after totalWritten writes
      end
  else ret (totalWritten, None).

(** *** Notions used in the statements of this part *)

(** A number of workers for which [make] allocates the slices of the
    planner.  [make] panics for a length no slice can hold and the runtime
    gives up when the memory is not there: the statements on panics are
    made for jobs of up to this many workers. *)
Definition max_workers : Z := 65536.

(** A download of 200 MiB whose thread count is left to the engine. *)
Definition big_job : Downloader :=
  {| Url := "http://origin/big.iso";
     fileInfo := {| Dir := "/dl"; Name := "big.iso"; FullPath := "/dl/big.iso" |};
     Prefs := {| DownloadDir := "/dl"; fileName := ""; threadCount := 0; maxRetries := 3 |};
     dHeaders := {| Cookies := ""; Headers := ∅ |};
     ServerHeaders := {| Filename := "big.iso"; Filesize := 200 * 1024 * 1024;
                         Filetype := ""; AcceptsRanges := true;
                         FinalURL := "http://origin/big.iso" |};
     Chunks := []; dChunkManager := None; isPaused := false;
     Status := DOWNLOAD_QUEUED; Error := None |}.

(** The downloader with the chunk at position [j], which holds [c], marked
    completed. *)
Definition marked_at (j : nat) (c : ChunkData) (d : Downloader) : Downloader :=
  with_Chunks (<[j := complete c]> (Chunks d)) (dChunkManager d) d.

(** The file system after creating the files [names] anew. *)
Definition create_all (names : list string) (m : gmap string (list byte))
    : gmap string (list byte) :=
  foldl (fun m p => <[p := []]> m) m names.

(** The contents of the files [names], one after the other. *)
Definition contents_of (names : list string) (m : gmap string (list byte)) : list byte :=
  concat ((fun p => default [] (m !! p)) <$> names).

(** A run of calls of updateProgress and of UpdateProgress, each with its
    time, its bytes and its total size. *)
Definition updateProgress_all (calls : list (Time * Z * Z)) (pt : ProgressTracker)
    : ProgressTracker :=
  foldl (fun pt c => fst (updateProgress (fst (fst c)) (snd (fst c)) (snd c) pt)) pt calls.

Definition UpdateProgress_all (calls : list (Time * Z * Z)) (pt : ProgressTracker)
    : ProgressTracker :=
  foldl (fun pt c => UpdateProgress (fst (fst c)) (snd (fst c)) (snd c) pt) pt calls.

(** The bytes a run of calls reports. *)
Definition bytes_of (calls : list (Time * Z * Z)) : Z :=
  foldr (fun c acc => snd (fst c) + acc) 0 calls.

(** * Properties *)

(** ** Machine integers *)

Lemma wrap_small z : Int64.in_range z -> Int64.wrap z = z.
Proof.
  unfold Int64.in_range, Int64.min_int, Int64.max_int, Int64.wrap. intros Hz.
  rewrite Z.mod_small; lia.
Qed.

Lemma wrap_in_range z : Int64.in_range (Int64.wrap z).
Proof.
  unfold Int64.in_range, Int64.min_int, Int64.max_int, Int64.wrap.
  pose proof (Z.mod_pos_bound (z + 2 ^ 63) (2 ^ 64) ltac:(lia)). lia.
Qed.

Ltac unwrap :=
  repeat (rewrite wrap_small
            by (unfold Int64.in_range, Int64.min_int, Int64.max_int in *; lia)).

(** Case analysis on the integer comparisons of the goal. *)
Ltac case_Z :=
  repeat match goal with
    | |- context [?a <=? ?b] => destruct (Z.leb_spec a b)
    | |- context [?a <? ?b] => destruct (Z.ltb_spec a b)
    | |- context [?a =? ?b] => destruct (Z.eqb_spec a b)
    | |- context [?a >=? ?b] => rewrite (Z.geb_leb a b)
    | |- context [?a >? ?b] => rewrite (Z.gtb_ltb a b)
    end; simpl.

(** ** Chunk planner *)

Lemma sumZ_app l1 l2 : sumZ (l1 ++ l2) = sumZ l1 + sumZ l2.
Proof. induction l1 as [|x l1 IH]; simpl; [reflexivity | rewrite IH; lia]. Qed.

Lemma DivideChunks_loop_spec fuel : forall i k b u chunks,
  0 <= i -> i + Z.of_nat fuel = k -> 1 <= k <= Int64.max_int ->
  Int64.in_range (b + u) ->
  length chunks = Z.to_nat k ->
  DivideChunks_loop fuel i k b u chunks
  = take (Z.to_nat i) chunks ++ (sizeAt k b u <$> seqZ i (Z.of_nat fuel)).
Proof.
  induction fuel as [|fuel IH]; intros i k b u chunks Hi Hk Hr Hbu Hlen.
  - simpl. rewrite take_ge by lia. rewrite app_nil_r. reflexivity.
  - cbn [DivideChunks_loop].
    assert (Hlt : (i <? k) = true) by (apply Z.ltb_lt; lia). rewrite Hlt.
    assert (Hw2 : Int64.wrap (k - 2) = k - 2) by (unwrap; reflexivity).
    assert (Hw1 : Int64.wrap (i + 1) = i + 1) by (unwrap; reflexivity).
    rewrite Hw2, Hw1.
    assert (Hin : (Z.to_nat i < length chunks)%nat) by lia.
    destruct (lookup_lt_is_Some_2 chunks _ Hin) as [old Hold].
    rewrite seqZ_cons by lia. rewrite fmap_cons.
    replace (Z.pred (Z.of_nat (S fuel))) with (Z.of_nat fuel) by lia.
    replace (Z.succ i) with (i + 1) by lia.
    assert (Hstep : forall v,
      take (Z.to_nat (i + 1)) (<[Z.to_nat i := v]> chunks)
      = take (Z.to_nat i) chunks ++ [v]).
    { intros v. replace (Z.to_nat (i + 1)) with (S (Z.to_nat i)) by lia.
      erewrite take_S_r by (apply list_lookup_insert_eq; exact Hin).
      rewrite take_insert_ge by lia. reflexivity. }
    unfold sizeAt at 1.
    destruct (i =? k - 2) eqn:E.
    + rewrite IH; [ | lia | lia | lia | exact Hbu | rewrite length_insert; lia ].
      rewrite wrap_small by exact Hbu.
      rewrite Hstep, <- app_assoc. reflexivity.
    + rewrite IH; [ | lia | lia | lia | exact Hbu | rewrite length_insert; lia ].
      rewrite Hstep, <- app_assoc. reflexivity.
Qed.

(** DivideChunks on a size and a count that fit the machine integers. *)
Lemma DivideChunks_sizes N k :
  0 <= N <= Int64.max_int -> 1 <= k <= Int64.max_int ->
  DivideChunks N k = Some (sizeAt k (N / k) (N - k * (N / k)) <$> seqZ 0 k).
Proof.
  intros HN Hk. unfold DivideChunks.
  assert (H0 : (k <? 0) = false) by (apply Z.ltb_ge; lia).
  assert (H1 : (k =? 0) = false) by (apply Z.eqb_neq; lia).
  rewrite H0, H1.
  rewrite Z.quot_div_nonneg by lia.
  pose proof (Z.div_pos N k ltac:(lia) ltac:(lia)) as Hb0.
  pose proof (Z.mul_div_le N k ltac:(lia)) as Hb1.
  assert (Hb2 : N / k <= N) by (apply Z.div_le_upper_bound; nia).
  assert (Hwb : Int64.wrap (N / k) = N / k) by (unwrap; reflexivity).
  rewrite Hwb.
  assert (Hwt : Int64.wrap (k * (N / k)) = k * (N / k)) by (unwrap; reflexivity).
  rewrite Hwt.
  assert (Hwu : Int64.wrap (N - k * (N / k)) = N - k * (N / k)) by (unwrap; reflexivity).
  rewrite Hwu.
  rewrite DivideChunks_loop_spec with (k := k);
    [ | lia | lia | lia
      | unfold Int64.in_range, Int64.min_int, Int64.max_int in *; nia
      | apply length_replicate ].
  simpl take. rewrite Z2Nat.id by lia. reflexivity.
Qed.

Lemma sumZ_sizeAt k b u n : forall i,
  sumZ (sizeAt k b u <$> seqZ i (Z.of_nat n))
  = Z.of_nat n * b + (if (i <=? k - 2) && (k - 2 <? i + Z.of_nat n) then u else 0).
Proof.
  induction n as [|n IH]; intros i.
  - simpl. case_Z; lia.
  - rewrite seqZ_cons by lia. rewrite fmap_cons. simpl sumZ. fold (sumZ).
    replace (Z.pred (Z.of_nat (S n))) with (Z.of_nat n) by lia.
    change (foldr Z.add 0 (sizeAt k b u <$> seqZ (Z.succ i) (Z.of_nat n)))
      with (sumZ (sizeAt k b u <$> seqZ (Z.succ i) (Z.of_nat n))).
    rewrite IH. unfold sizeAt. case_Z; lia.
Qed.

Lemma sumZ_nonneg l : Forall (fun s => 0 <= s) l -> 0 <= sumZ l.
Proof. induction 1; simpl; lia. Qed.

Lemma sumZ_take_le l n : Forall (fun s => 0 <= s) l -> sumZ (take n l) <= sumZ l.
Proof.
  intros Hl. rewrite <- (take_drop n l) at 2. rewrite sumZ_app.
  pose proof (sumZ_nonneg (drop n l) (Forall_drop _ n l Hl)). lia.
Qed.

Lemma length_initializeChunks_loop sizes : forall i off,
  length (initializeChunks_loop i off sizes) = length sizes.
Proof. induction sizes as [|s sizes IH]; intros i off; simpl; [|rewrite IH]; reflexivity. Qed.

Lemma Size_initializeChunks_loop sizes : forall i off,
  Size <$> initializeChunks_loop i off sizes = sizes.
Proof.
  induction sizes as [|s sizes IH]; intros i off; simpl; [|rewrite IH]; reflexivity.
Qed.

(** The chunk initializeChunks writes at index [j], as long as the running
    offset stays within [int64]. *)
Lemma initializeChunks_loop_lookup sizes : forall i off j c,
  0 <= off -> Forall (fun s => 0 <= s) sizes -> off + sumZ sizes <= Int64.max_int ->
  initializeChunks_loop i off sizes !! j = Some c ->
  exists size, sizes !! j = Some size /\
    Index c = i + Z.of_nat j /\
    Start c = off + sumZ (take j sizes) /\
    End c = Start c + size - 1 /\
    Size c = size /\ IsCompleted c = false.
Proof.
  induction sizes as [|s sizes IH]; intros i off j c Hoff Hall Hsum Hc.
  - discriminate.
  - inversion Hall as [|? ? Hs Hrest]; subst. simpl in Hsum.
    pose proof (sumZ_nonneg sizes Hrest) as Hnn.
    assert (Hw : Int64.wrap (off + s) = off + s) by (unwrap; reflexivity).
    destruct j as [|j]; simpl in Hc.
    + inversion Hc; subst; clear Hc. exists s. simpl.
      rewrite Hw. unwrap. repeat split; lia.
    + rewrite Hw in Hc.
      apply IH in Hc; [ | lia | exact Hrest | lia ].
      destruct Hc as (size & H1 & H2 & H3 & H4 & H5 & H6).
      exists size. simpl. repeat split; try assumption; lia.
Qed.

(** What the planner's chunks look like, given the sizes. *)
Lemma initializeChunks_loop_partition sizes (C : list ChunkData) :
  Forall (fun s => 0 <= s) sizes -> sumZ sizes <= Int64.max_int ->
  C = initializeChunks_loop 0 0 sizes ->
  length C = length sizes /\
  sumZ (Size <$> C) = sumZ sizes /\
  (forall i c, C !! i = Some c ->
     Index c = Z.of_nat i /\ Some (Size c) = sizes !! i /\
     Size c = End c - Start c + 1 /\ Start c = sumZ (take i sizes)) /\
  (forall i c c', C !! i = Some c -> C !! S i = Some c' -> End c + 1 = Start c').
Proof.
  intros Hall Hsum ->. split; [apply length_initializeChunks_loop|].
  split; [rewrite Size_initializeChunks_loop; reflexivity|].
  split.
  - intros i c Hc.
    apply initializeChunks_loop_lookup in Hc; [ | lia | exact Hall | lia ].
    destruct Hc as (size & H1 & H2 & H3 & H4 & H5 & H6).
    rewrite H1, H5. repeat split; lia.
  - intros i c c' Hc Hc'.
    apply initializeChunks_loop_lookup in Hc; [ | lia | exact Hall | lia ].
    apply initializeChunks_loop_lookup in Hc'; [ | lia | exact Hall | lia ].
    destruct Hc as (size & H1 & H2 & H3 & H4 & H5 & H6).
    destruct Hc' as (size' & H1' & H2' & H3' & H4' & H5' & H6').
    rewrite (take_S_r _ _ _ H1), sumZ_app in H3'. simpl in H3'. lia.
Qed.

Lemma planChunks_sizes N k :
  0 <= N <= Int64.max_int -> 1 <= k <= Int64.max_int ->
  planChunks N k
  = Some (initializeChunks_loop 0 0 (sizeAt k (N / k) (N - k * (N / k)) <$> seqZ 0 k)).
Proof.
  intros HN Hk. unfold planChunks. rewrite DivideChunks_sizes by assumption.
  unfold initializeChunks.
  rewrite list_lookup_fmap, lookup_seqZ_lt by lia. reflexivity.
Qed.

Lemma sizes_sum N k :
  0 <= N -> 1 <= k ->
  sumZ (sizeAt k (N / k) (N - k * (N / k)) <$> seqZ 0 k) = N.
Proof.
  intros HN Hk.
  replace (seqZ 0 k) with (seqZ 0 (Z.of_nat (Z.to_nat k))) by (rewrite Z2Nat.id; [reflexivity|lia]).
  rewrite sumZ_sizeAt. rewrite Z2Nat.id by lia.
  case_Z; try lia.
  assert (k = 1) by lia. subst k. rewrite Z.div_1_r. lia.
Qed.

Lemma sizes_lookup N k (i : nat) :
  Z.of_nat i < k ->
  (sizeAt k (N / k) (N - k * (N / k)) <$> seqZ 0 k) !! i
  = Some (sizeAt k (N / k) (N - k * (N / k)) (Z.of_nat i)).
Proof. intros Hi. rewrite list_lookup_fmap, lookup_seqZ_lt by lia. reflexivity. Qed.

Lemma sizes_Forall (P : Z -> Prop) N k :
  (forall i, 0 <= i < k -> P (sizeAt k (N / k) (N - k * (N / k)) i)) ->
  Forall P (sizeAt k (N / k) (N - k * (N / k)) <$> seqZ 0 k).
Proof.
  intros H. apply Forall_fmap, Forall_seqZ. intros i Hi. apply H. lia.
Qed.

(** C4. For a file of [N] bytes and [k] workers with [N >= k >= 1], the
    chunk planner (DivideChunks followed by initializeChunks) returns [k]
    chunks whose sizes sum to [N]; every chunk is a non-empty inclusive
    range of its size, consecutive chunks are contiguous
    ([C[i].End + 1 = C[i+1].Start]), the first starts at 0 and the last
    ends at [N - 1]. *)
Theorem planChunks_partition N k :
  1 <= k -> k <= N -> N <= Int64.max_int ->
  exists C, planChunks N k = Some C /\
    length C = Z.to_nat k /\
    sumZ (Size <$> C) = N /\
    (forall i c, C !! i = Some c ->
       Index c = Z.of_nat i /\ Start c <= End c /\ Size c = End c - Start c + 1) /\
    (forall i c c', C !! i = Some c -> C !! S i = Some c' -> End c + 1 = Start c') /\
    Start <$> C !! 0%nat = Some 0 /\
    End <$> C !! Z.to_nat (k - 1) = Some (N - 1).
Proof.
  intros Hk HkN HN.
  set (sizes := sizeAt k (N / k) (N - k * (N / k)) <$> seqZ 0 k).
  exists (initializeChunks_loop 0 0 sizes).
  assert (Hb : 1 <= N / k) by (apply Z.div_le_lower_bound; lia).
  pose proof (Z.mul_div_le N k ltac:(lia)) as Hu.
  assert (Hpos : Forall (fun s => 1 <= s) sizes).
  { apply sizes_Forall. intros i Hi. unfold sizeAt. case_Z; lia. }
  assert (Hnn : Forall (fun s => 0 <= s) sizes).
  { eapply Forall_impl; [exact Hpos|]. simpl. intros; lia. }
  assert (Hsum : sumZ sizes = N) by (apply sizes_sum; lia).
  assert (Hlen : length sizes = Z.to_nat k).
  { unfold sizes. rewrite length_fmap, length_seqZ. reflexivity. }
  destruct (initializeChunks_loop_partition sizes _ Hnn ltac:(lia) eq_refl)
    as (HL & HS & Hone & Hadj).
  split; [apply planChunks_sizes; lia|].
  split; [lia|]. split; [lia|]. split; [|split; [exact Hadj|split]].
  - intros i c Hc. destruct (Hone i c Hc) as (H1 & H2 & H3 & H4).
    repeat split; try assumption.
    symmetry in H2. eapply Forall_lookup_1 in H2; [|exact Hpos]. simpl in H2. lia.
  - destruct (lookup_lt_is_Some_2 (initializeChunks_loop 0 0 sizes) 0%nat ltac:(lia))
      as [c Hc].
    rewrite Hc. simpl. destruct (Hone _ _ Hc) as (H1 & H2 & H3 & H4).
    rewrite H4. reflexivity.
  - destruct (lookup_lt_is_Some_2 (initializeChunks_loop 0 0 sizes)
                (Z.to_nat (k - 1)) ltac:(lia)) as [c Hc].
    rewrite Hc. simpl. destruct (Hone _ _ Hc) as (H1 & H2 & H3 & H4).
    symmetry in H2.
    assert (Htk : take (S (Z.to_nat (k - 1))) sizes = sizes)
      by (apply take_ge; lia).
    rewrite (take_S_r _ _ _ H2) in Htk.
    rewrite <- Htk, sumZ_app, <- H4 in Hsum. simpl in Hsum.
    f_equal. lia.
Qed.

Lemma planChunks_partition_witness :
  exists C, planChunks 10485761 4 = Some C /\
    length C = Z.to_nat 4 /\
    sumZ (Size <$> C) = 10485761 /\
    (forall i c, C !! i = Some c ->
       Index c = Z.of_nat i /\ Start c <= End c /\ Size c = End c - Start c + 1) /\
    (forall i c c', C !! i = Some c -> C !! S i = Some c' -> End c + 1 = Start c') /\
    Start <$> C !! 0%nat = Some 0 /\
    End <$> C !! Z.to_nat (4 - 1) = Some (10485761 - 1).
Proof.
  apply (planChunks_partition 10485761 4); unfold Int64.max_int; lia.
Defined.

(** C5. For [N >= k >= 1], DivideChunks gives every chunk the base size
    [floor(N/k)] except the chunk at index [k-2], which receives the base
    size plus the remainder [N - k*floor(N/k)]; with one chunk the size is
    [N], with two chunks the remainder goes to chunk 0, and
    [DivideChunks(10485761, 4) = [2621440, 2621440, 2621441, 2621440]]. *)
Theorem DivideChunks_remainder_placement N k :
  1 <= k -> k <= N -> N <= Int64.max_int ->
  exists sizes, DivideChunks N k = Some sizes /\
    length sizes = Z.to_nat k /\
    (forall i, 0 <= i < k ->
       sizes !! Z.to_nat i
       = Some (if i =? k - 2 then N / k + (N - k * (N / k)) else N / k)) /\
    (k = 1 -> sizes = [N]) /\
    (k = 2 -> sizes = [N / 2 + (N - 2 * (N / 2)); N / 2]) /\
    DivideChunks 10485761 4 = Some [2621440; 2621440; 2621441; 2621440].
Proof.
  intros Hk HkN HN. eexists. split; [apply DivideChunks_sizes; lia|].
  split; [rewrite length_fmap, length_seqZ; reflexivity|].
  split; [|split; [|split]].
  - intros i Hi. rewrite sizes_lookup by lia. rewrite Z2Nat.id by lia. reflexivity.
  - intros ->. cbn. unfold sizeAt. simpl. rewrite Z.div_1_r. reflexivity.
  - intros ->. reflexivity.
  - reflexivity.
Qed.

Lemma DivideChunks_remainder_placement_witness :
  exists sizes, DivideChunks 7 2 = Some sizes /\
    length sizes = Z.to_nat 2 /\
    (forall i, 0 <= i < 2 ->
       sizes !! Z.to_nat i
       = Some (if i =? 2 - 2 then 7 / 2 + (7 - 2 * (7 / 2)) else 7 / 2)) /\
    (2 = 1 -> sizes = [7]) /\
    (2 = 2 -> sizes = [7 / 2 + (7 - 2 * (7 / 2)); 7 / 2]) /\
    DivideChunks 10485761 4 = Some [2621440; 2621440; 2621441; 2621440].
Proof.
  apply (DivideChunks_remainder_placement 7 2); unfold Int64.max_int; lia.
Defined.

(** C10. For [k >= 2] workers and a file of [0 <= N < k] bytes,
    DivideChunks still returns [k] sizes that sum to [N]: index [k-2]
    receives all [N] bytes and every other chunk has size 0, so every chunk
    but the one at [k-2] (the last one among them) is an empty range whose
    [End] is less than its [Start]. *)
Theorem DivideChunks_fewer_bytes_than_chunks N k :
  2 <= k -> k <= Int64.max_int -> 0 <= N -> N < k ->
  exists sizes C, DivideChunks N k = Some sizes /\ planChunks N k = Some C /\
    length sizes = Z.to_nat k /\
    sumZ sizes = N /\
    (forall i, 0 <= i < k ->
       sizes !! Z.to_nat i = Some (if i =? k - 2 then N else 0)) /\
    (forall i c, C !! i = Some c -> Z.of_nat i <> k - 2 ->
       Size c = 0 /\ End c < Start c) /\
    (exists c, C !! Z.to_nat (k - 1) = Some c /\ End c < Start c).
Proof.
  intros Hk Hmax HN HNk.
  set (sizes := sizeAt k (N / k) (N - k * (N / k)) <$> seqZ 0 k).
  exists sizes, (initializeChunks_loop 0 0 sizes).
  assert (Hb : N / k = 0) by (apply Z.div_small; lia).
  assert (Hnn : Forall (fun s => 0 <= s) sizes).
  { apply sizes_Forall. intros i Hi. unfold sizeAt. rewrite Hb. case_Z; lia. }
  assert (Hsum : sumZ sizes = N) by (apply sizes_sum; lia).
  assert (Hlen : length sizes = Z.to_nat k).
  { unfold sizes. rewrite length_fmap, length_seqZ. reflexivity. }
  destruct (initializeChunks_loop_partition sizes _ Hnn ltac:(lia) eq_refl)
    as (HL & HS & Hone & Hadj).
  assert (Hempty : forall i c, initializeChunks_loop 0 0 sizes !! i = Some c ->
            Z.of_nat i <> k - 2 -> Size c = 0 /\ End c < Start c).
  { intros i c Hc Hne. destruct (Hone i c Hc) as (H1 & H2 & H3 & H4).
    assert (Hi : Z.of_nat i < k).
    { apply lookup_lt_Some in Hc. lia. }
    unfold sizes in H2. rewrite sizes_lookup in H2 by lia.
    unfold sizeAt in H2. rewrite Hb in H2.
    destruct (Z.eqb_spec (Z.of_nat i) (k - 2)); [contradiction|].
    inversion H2. lia. }
  split; [apply DivideChunks_sizes; lia|].
  split; [apply planChunks_sizes; lia|].
  split; [exact Hlen|]. split; [exact Hsum|]. split; [|split; [exact Hempty|]].
  - intros i Hi. unfold sizes. rewrite sizes_lookup by lia.
    rewrite Z2Nat.id by lia. unfold sizeAt. rewrite Hb.
    destruct (i =? k - 2); f_equal; lia.
  - destruct (lookup_lt_is_Some_2 (initializeChunks_loop 0 0 sizes)
                (Z.to_nat (k - 1)) ltac:(lia)) as [c Hc].
    exists c. split; [exact Hc|]. apply (Hempty _ _ Hc). lia.
Qed.

Lemma DivideChunks_fewer_bytes_than_chunks_witness :
  exists sizes C, DivideChunks 2 4 = Some sizes /\ planChunks 2 4 = Some C /\
    length sizes = Z.to_nat 4 /\
    sumZ sizes = 2 /\
    (forall i, 0 <= i < 4 ->
       sizes !! Z.to_nat i = Some (if i =? 4 - 2 then 2 else 0)) /\
    (forall i c, C !! i = Some c -> Z.of_nat i <> 4 - 2 ->
       Size c = 0 /\ End c < Start c) /\
    (exists c, C !! Z.to_nat (4 - 1) = Some c /\ End c < Start c).
Proof.
  apply (DivideChunks_fewer_bytes_than_chunks 2 4); unfold Int64.max_int; lia.
Defined.

Example planChunks_2_bytes_4_chunks :
  planChunks 2 4
  = Some [ {| Index := 0; Start := 0; End := -1; Size := 0; IsCompleted := false |};
           {| Index := 1; Start := 0; End := -1; Size := 0; IsCompleted := false |};
           {| Index := 2; Start := 0; End := 1; Size := 2; IsCompleted := false |};
           {| Index := 3; Start := 2; End := 1; Size := 0; IsCompleted := false |} ].
Proof. reflexivity. Qed.

(** ** Strategy selector *)

Lemma shouldUseMultiStream_true d :
  shouldUseMultiStream d = true <->
  AcceptsRanges (ServerHeaders d) = true /\
  0 < Filesize (ServerHeaders d) /\
  minSizeForMultiStream <= Filesize (ServerHeaders d) /\
  getThreadCount d <> 1.
Proof.
  unfold shouldUseMultiStream.
  destruct (AcceptsRanges (ServerHeaders d)); simpl.
  - case_Z; split; try discriminate; try tauto; try lia; intros; repeat split; lia.
  - split; [discriminate | intros (H & _); discriminate].
Qed.

(** Above the size threshold, the worker count is above 1 unless the user
    asked for exactly one thread. *)
Lemma getOptimalThreadCount_gt_1 d :
  minSizeForMultiStream <= Filesize (ServerHeaders d) ->
  (getOptimalThreadCount d > 1 <-> getThreadCount d <> 1).
Proof.
  unfold getOptimalThreadCount, minSizeForMultiStream. intros Hsz.
  case_Z; lia.
Qed.

(** C6. The strategy selector takes the multi-stream path if and only if
    the server accepts ranges, the size is known (positive), the size is at
    least 10 MiB and the effective worker count is greater than 1; when any
    of these fails it takes the single-stream path. *)
Theorem executeDownloadStrategy_multi_iff d :
  (executeDownloadStrategy d = MultiStream <-> multiStreamPredicate d) /\
  (executeDownloadStrategy d = SingleStream <-> ~ multiStreamPredicate d).
Proof.
  assert (Hiff : executeDownloadStrategy d = MultiStream <-> multiStreamPredicate d).
  { unfold executeDownloadStrategy, multiStreamPredicate.
    destruct (AcceptsRanges (ServerHeaders d)) eqn:Ha; simpl.
    - destruct (shouldUseMultiStream d) eqn:Hs.
      + apply shouldUseMultiStream_true in Hs. destruct Hs as (_ & H1 & H2 & H3).
        split; [intros _ | reflexivity].
        repeat split; try lia.
        * unfold minSizeForMultiStream in H2. lia.
        * apply getOptimalThreadCount_gt_1; assumption.
      + split; [discriminate|]. intros (_ & H1 & H2 & H3). exfalso.
        assert (Hs' : shouldUseMultiStream d = true).
        { apply shouldUseMultiStream_true. rewrite Ha.
          repeat split; try lia.
          - unfold minSizeForMultiStream. lia.
          - apply getOptimalThreadCount_gt_1; [unfold minSizeForMultiStream; lia | exact H3]. }
        congruence.
    - split; [discriminate | intros (H & _); discriminate]. }
  split; [exact Hiff|].
  destruct (executeDownloadStrategy d) eqn:E.
  - split; [discriminate|]. intros Hn. exfalso. apply Hn, Hiff. reflexivity.
  - split; [|reflexivity]. intros _ Hp. apply Hiff in Hp. discriminate.
Qed.

(** Below 10 MiB the single-stream path is taken even when the server
    accepts ranges. *)
Example executeDownloadStrategy_below_threshold :
  executeDownloadStrategy
    {| Url := ""; fileInfo := {| Dir := ""; Name := ""; FullPath := "" |};
       Prefs := {| DownloadDir := ""; fileName := ""; threadCount := 8; maxRetries := 3 |};
       dHeaders := {| Cookies := ""; Headers := ∅ |};
       ServerHeaders := {| Filename := "a.bin"; Filesize := 10 * 1024 * 1024 - 1;
                           Filetype := ""; AcceptsRanges := true; FinalURL := "" |};
       Chunks := []; dChunkManager := None; isPaused := false;
       Status := DOWNLOAD_QUEUED; Error := None |}
  = SingleStream.
Proof. reflexivity. Qed.

(** ** Probe *)

Lemma append_String c s t : String.append (String c s) t = String c (String.append s t).
Proof. reflexivity. Qed.

Lemma append_Empty t : String.append "" t = t.
Proof. reflexivity. Qed.

Lemma prefix_append t : forall s,
  String.prefix t s = true <-> exists post, s = String.append t post.
Proof.
  induction t as [|a t IH]; intros s.
  - destruct s; simpl; split; eauto.
  - destruct s as [|b s]; simpl.
    + split; [discriminate | intros (post & H); discriminate].
    + destruct (ascii_dec a b) as [->|Hne].
      * rewrite IH. split; intros (post & H); exists post;
          rewrite append_String in *; congruence.
      * split; [discriminate | intros (post & H); rewrite append_String in H; congruence].
Qed.

(** [Contains s t] holds exactly when [t] occurs in [s], byte for byte. *)
Lemma Contains_spec t : forall s,
  Contains s t = true <->
  exists pre post, s = String.append pre (String.append t post).
Proof.
  induction s as [|c s IH]; cbn [Contains].
  - destruct (String.prefix t "") eqn:E.
    + split; [intros _ | reflexivity].
      apply prefix_append in E. destruct E as (post & E). exists "", post. exact E.
    + split; [discriminate|]. intros (pre & post & H).
      destruct pre; [rewrite append_Empty in H | rewrite append_String in H; discriminate].
      assert (String.prefix t "" = true) by (apply prefix_append; eauto).
      congruence.
  - destruct (String.prefix t (String c s)) eqn:E.
    + split; [intros _ | reflexivity].
      apply prefix_append in E. destruct E as (post & E). exists "", post. exact E.
    + rewrite IH. split.
      * intros (pre & post & H). exists (String c pre), post.
        rewrite append_String. congruence.
      * intros (pre & post & H). destruct pre as [|c' pre].
        -- rewrite append_Empty in H.
           assert (String.prefix t (String c s) = true) by (apply prefix_append; eauto).
           congruence.
        -- rewrite append_String in H. exists pre, post. congruence.
Qed.

(** C8, as stated, fails: a server that answers [Accept-Ranges: Bytes]
    offers ranges under a case-insensitive reading of the header, and the
    probe reports that it does not accept ranges. *)
Lemma AcceptsRanges_Bytes_counterexample :
  Contains (ToLower (Header_Get (Header response_Bytes) "Accept-Ranges")) "bytes" = true /\
  AcceptsRanges <$>
    fst (fst (tryGetServerData (lib := plainLib) (fun _ _ => inr response_Bytes)
                "http://origin/file.bin" {| sent := 0; slept := 0 |}))
  = Some false.
Proof. split; vm_compute; reflexivity. Qed.

(** C8, amended. Whenever the probe returns server data, it was answered
    with a response, and the accepts-ranges flag is true if and only if the
    Accept-Ranges header of that response contains the substring [bytes]
    byte for byte, in lower case; a value of [Bytes] yields false. *)
Theorem AcceptsRanges_case_sensitive (lib : GoLib) (client_Do : nat -> string -> DoResult)
    (downloadURL : string) (st : ProbeState) :
  match fst (tryGetServerData client_Do downloadURL st) with
  | (Some data, _) =>
      exists resp, client_Do (sent st) downloadURL = inr resp /\
        (AcceptsRanges data = true <->
         exists pre post,
           Header_Get (Header resp) "Accept-Ranges"
           = String.append pre (String.append "bytes" post))
  | (None, _) => True
  end.
Proof.
  unfold tryGetServerData.
  destruct (http_NewRequest "HEAD" downloadURL); simpl; [exact I|].
  destruct (client_Do (sent st) downloadURL) as [err|resp]; simpl; [exact I|].
  destruct (StatusCode resp >=? 400); simpl; [exact I|].
  exists resp. split; [reflexivity|].
  rewrite <- Contains_spec.
  destruct (Contains (Header_Get (Header resp) "Accept-Ranges") "bytes");
    split; congruence.
Qed.

Example AcceptsRanges_bytes :
  AcceptsRanges <$>
    fst (fst (tryGetServerData (lib := plainLib)
                (fun _ _ => inr {| StatusCode := 200;
                                   Header := {[ "Accept-Ranges" := ["bytes"] ]};
                                   RequestURL := "http://origin/file.bin" |})
                "http://origin/file.bin" {| sent := 0; slept := 0 |}))
  = Some true.
Proof. vm_compute. reflexivity. Qed.

(** C7 fails on the code: whenever the HEAD request of the first attempt
    is answered with a status of 400 or more, GetServerData returns a nil
    result together with a nil error, after this one request and without a
    retry or an aggregated error. *)
Theorem GetServerData_status_ge_400 (lib : GoLib) (client_Do : nat -> string -> DoResult)
    (downloadURL : string) (st : ProbeState) (resp : Response) :
  http_NewRequest "HEAD" downloadURL = None ->
  client_Do (sent st) downloadURL = inr resp ->
  400 <= StatusCode resp ->
  GetServerData client_Do downloadURL st
  = ((None, None), {| sent := S (sent st); slept := slept st |}).
Proof.
  intros Hreq Hdo Hst. unfold GetServerData. simpl.
  unfold tryGetServerData. rewrite Hreq, Hdo.
  assert (H : (StatusCode resp >=? 400) = true) by (rewrite Z.geb_leb; apply Z.leb_le; lia).
  rewrite H. reflexivity.
Qed.

Lemma GetServerData_404_returns_nil_nil :
  GetServerData (lib := plainLib) (fun _ _ => inr response_404)
    "http://origin/missing.bin" {| sent := 0; slept := 0 |}
  = ((None, None), {| sent := 1; slept := 0 |}).
Proof.
  apply (GetServerData_status_ge_400 plainLib (fun _ _ => inr response_404)
           "http://origin/missing.bin" {| sent := 0; slept := 0 |} response_404);
    [ reflexivity | reflexivity | simpl; lia ].
Defined.

(** Three transport errors, on the other hand, end in the aggregated error,
    after two waits of two seconds. *)
Example GetServerData_transport_errors :
  GetServerData (lib := plainLib) (fun _ _ => inl (ErrorString "dial tcp: timeout"))
    "http://origin/file.bin" {| sent := 0; slept := 0 |}
  = ((None, Some (ErrorString "failed after 3 attempts: dial tcp: timeout")),
     {| sent := 3; slept := 4 |}).
Proof. reflexivity. Qed.

(** Prefetch turns the nil result into an error of its own, whose text
    prints the nil error. *)
Example Prefetch_404 :
  fst (Prefetch_headers (lib := plainLib) (fun _ _ => inr response_404)
         "http://origin/missing.bin" {| sent := 0; slept := 0 |})
  = inl (ErrorString "failed to get server data: <nil>").
Proof. reflexivity. Qed.

(** ** Multi-stream engine *)

(** *** Cleanup *)

Lemma remove_all_lookup names : forall (m : gmap string (list byte)) p,
  remove_all names m !! p = if decide (p ∈ names) then None else m !! p.
Proof.
  induction names as [|n names IH]; intros m p; simpl.
  - destruct (decide (p ∈ [])) as [H|H]; [inversion H | reflexivity].
  - rewrite IH.
    destruct (decide (p ∈ names)) as [Hin|Hnin].
    + rewrite decide_True by (apply elem_of_cons; auto). reflexivity.
    + destruct (decide (p = n)) as [->|Hne].
      * rewrite decide_True by (apply elem_of_cons; auto). apply lookup_delete_eq.
      * rewrite decide_False by (rewrite elem_of_cons; tauto).
        apply lookup_delete_ne. congruence.
Qed.

Section MultiStreamProofs.

Context {lib : GoLib} {plib : PathLib}.
Variable ctx : nat -> bool.
Variable chunk_Do : nat -> Request -> error + ChunkResponse.

(** The cleanup removes every chunk file, reports nothing and leaves the
    rest of the state alone. *)
Lemma CleanupChunkFiles_loop_run names : forall i errors w,
  CleanupChunkFiles_loop i names errors w
  = (Returns errors,
     {| dl := dl w; fs := remove_all names (fs w); ticks := ticks w;
        requests := requests w; totalCompletedBytes := totalCompletedBytes w;
        events := events w |}).
Proof.
  induction names as [|n names IH]; intros i errors w.
  - destruct w; reflexivity.
  - cbn [CleanupChunkFiles_loop]. unfold bind at 1. unfold os_Remove, bind, get.
    destruct (fs w !! n) eqn:E.
    + unfold set_fs, ret. rewrite IH. simpl. reflexivity.
    + unfold ret. change (error_eqb ErrNotExist ErrNotExist) with true. cbv iota.
      rewrite IH. simpl. rewrite (delete_id _ _ E). reflexivity.
Qed.

Lemma CleanupChunkFiles_run names w :
  CleanupChunkFiles names w
  = (Returns None,
     {| dl := dl w; fs := remove_all names (fs w); ticks := ticks w;
        requests := requests w; totalCompletedBytes := totalCompletedBytes w;
        events := events w |}).
Proof.
  unfold CleanupChunkFiles, bind. rewrite CleanupChunkFiles_loop_run. reflexivity.
Qed.


End MultiStreamProofs.

(** *** Requests sent by the workers *)

Create HintDb sends discriminated.

Lemma sends_ret {A} k (a : A) : sends_at_most k (ret a).
Proof. intros w. simpl. lia. Qed.

Lemma sends_get k : sends_at_most k get.
Proof. intros w. simpl. lia. Qed.

Lemma sends_panic {A} k : sends_at_most k (@panic A).
Proof. intros w. simpl. lia. Qed.

Lemma sends_block {A} k : sends_at_most k (@block A).
Proof. intros w. simpl. lia. Qed.

Lemma sends_set_dl k f : sends_at_most k (set_dl f).
Proof. intros w. simpl. lia. Qed.

Lemma sends_set_fs k f : sends_at_most k (set_fs f).
Proof. intros w. simpl. lia. Qed.

Lemma sends_emit k e : sends_at_most k (emit e).
Proof. intros w. simpl. lia. Qed.

Lemma sends_atomic_AddInt64 k n : sends_at_most k (atomic_AddInt64 n).
Proof. intros w. simpl. lia. Qed.

Lemma sends_bind {A B} a b (m : M A) (f : A -> M B) :
  sends_at_most a m -> (forall x, sends_at_most b (f x)) ->
  sends_at_most (a + b) (bind m f).
Proof.
  intros Hm Hf w. unfold bind. specialize (Hm w).
  destruct (m w) as [[x| |] w']; simpl in *; [|lia|lia].
  specialize (Hf x w'). lia.
Qed.

Lemma sends_bind_0 {A B} k (m : M A) (f : A -> M B) :
  sends_at_most 0 m -> (forall x, sends_at_most k (f x)) ->
  sends_at_most k (bind m f).
Proof. intros Hm Hf. apply (sends_bind 0 k); assumption. Qed.

Lemma sends_weaken {A} a b (m : M A) :
  (a <= b)%nat -> sends_at_most a m -> sends_at_most b m.
Proof. intros Hab Hm w. specialize (Hm w). lia. Qed.

#[local] Hint Resolve sends_ret sends_get sends_panic sends_block sends_set_dl sends_set_fs
  sends_emit sends_atomic_AddInt64 : sends.

(** Walks through a computation made of binds and case distinctions whose
    parts send nothing. *)
Ltac sends_nothing :=
  repeat (intros;
    lazymatch goal with
    | |- sends_at_most _ (bind _ _) => apply sends_bind_0
    | |- sends_at_most _ (match ?x with _ => _ end) => destruct x
    | |- sends_at_most _ _ => solve [auto with sends]
    end).

Section Requests.

Context {lib : GoLib}.
Variable ctx : nat -> bool.
Variable chunk_Do : nat -> Request -> error + ChunkResponse.

Lemma sends_tick k : sends_at_most k (tick ctx).
Proof. intros w. simpl. lia. Qed.

Lemma sends_client_Do_chunk req : sends_at_most 1 (client_Do_chunk chunk_Do req).
Proof. intros w. simpl. lia. Qed.

Lemma sends_FileExists k p : sends_at_most k (FileExists p).
Proof. unfold FileExists. sends_nothing. Qed.

Lemma sends_os_Stat_Size k p : sends_at_most k (os_Stat_Size p).
Proof. unfold os_Stat_Size. sends_nothing. Qed.

Lemma sends_os_Create k p : sends_at_most k (os_Create p).
Proof. unfold os_Create. sends_nothing. Qed.

Lemma sends_os_Open k p : sends_at_most k (os_Open p).
Proof. unfold os_Open. sends_nothing. Qed.

Lemma sends_file_Write k p data : sends_at_most k (file_Write p data).
Proof. unfold file_Write. sends_nothing. Qed.

Lemma sends_markCompleted k i : sends_at_most k (markCompleted i).
Proof. unfold markCompleted. sends_nothing. Qed.

Lemma sends_checkPauseState k : sends_at_most k checkPauseState.
Proof. unfold checkPauseState. sends_nothing. Qed.

Hint Resolve sends_tick sends_FileExists sends_os_Stat_Size sends_os_Create sends_os_Open
  sends_file_Write sends_markCompleted sends_checkPauseState : sends.

Lemma sends_detectChunkResumeOffset k p size :
  sends_at_most k (detectChunkResumeOffset p size).
Proof. unfold detectChunkResumeOffset. sends_nothing. Qed.

Lemma sends_openChunkFile k p off : sends_at_most k (openChunkFile p off).
Proof. unfold openChunkFile. sends_nothing. Qed.

Lemma sends_downloadChunkWithProgress k idx reader writer expected :
  forall totalWritten,
    sends_at_most k (downloadChunkWithProgress ctx idx reader writer expected totalWritten).
Proof.
  induction reader as [|[data err] rest IH]; intros totalWritten;
    cbn [downloadChunkWithProgress]; unfold ctx_Done; sends_nothing.
  all: apply IH.
Qed.

Hint Resolve sends_detectChunkResumeOffset sends_openChunkFile
  sends_downloadChunkWithProgress : sends.

(** downloadSingleChunk sends one request at most: there is no second
    attempt in it. *)
Lemma sends_downloadSingleChunk idx c file off :
  sends_at_most 1 (downloadSingleChunk ctx chunk_Do idx c file off).
Proof.
  unfold downloadSingleChunk.
  apply sends_bind_0; [auto with sends|]. intros _.
  apply sends_bind_0; [auto with sends|]. intros w.
  destruct (http_NewRequest "GET" (Url (dl w))); [auto with sends|].
  apply (sends_bind 1 0); [apply sends_client_Do_chunk|].
  intros r. sends_nothing.
Qed.

Lemma sends_chunkWorker idx c file :
  sends_at_most 1 (chunkWorker ctx chunk_Do idx c file).
Proof.
  unfold chunkWorker.
  apply sends_bind_0; [auto with sends|]. intros [off err].
  destruct err; [auto with sends|].
  destruct (off >=? Size c); [sends_nothing|].
  apply (sends_bind 1 0); [apply sends_downloadSingleChunk|].
  intros r. sends_nothing.
Qed.

Lemma sends_runWorkers chunks : forall i names errorChan,
  sends_at_most (length chunks) (runWorkers ctx chunk_Do i chunks names errorChan).
Proof.
  induction chunks as [|c chunks IH]; intros i names errorChan; cbn [runWorkers].
  - auto with sends.
  - destruct (names !! Z.to_nat i); [|auto with sends].
    apply (sends_bind 1 (length chunks)); [apply sends_chunkWorker|].
    intros r. apply IH.
Qed.

(** The concurrent download sends at most one request for each chunk. *)
Lemma sends_downloadChunksConcurrently names w :
  (requests (snd (downloadChunksConcurrently ctx chunk_Do names w))
   <= requests w + length (Chunks (dl w)))%nat.
Proof.
  unfold downloadChunksConcurrently.
  unfold bind at 1. unfold get. unfold bind at 1.
  match goal with
  | |- context [bind (runWorkers ?c ?d ?i ?cs ?n ?e) ?k] =>
      assert (H : sends_at_most (length cs) (bind (runWorkers c d i cs n e) k))
  end.
  { rewrite <- (Nat.add_0_r (length _)).
    apply sends_bind; [apply sends_runWorkers|]. intros [|]; auto with sends. }
  match goal with |- context [bind _ _ ?w0] => specialize (H w0) end.
  simpl in H. exact H.
Qed.

End Requests.

(** *** Failed attempts *)

Section Attempts.

Context {lib : GoLib}.
Variable ctx : nat -> bool.
Variable chunk_Do : nat -> Request -> error + ChunkResponse.

Lemma detectChunkResumeOffset_run chunkFile size w :
  detectChunkResumeOffset chunkFile size w
  = (Returns (resumeOffset w chunkFile size, None), w).
Proof.
  unfold detectChunkResumeOffset, resumeOffset, FileExists, os_Stat_Size, bind, get, ret.
  destruct (fs w !! chunkFile) as [content|] eqn:E; simpl.
  - rewrite E. simpl.
    destruct (Z.of_nat (length content) >=? size); reflexivity.
  - reflexivity.
Qed.

(** A request that fails ends the attempt of downloadSingleChunk. *)
Lemma downloadSingleChunk_request_fails idx c file off w err :
  http_NewRequest "GET" (Url (dl w)) = None ->
  chunk_Do (requests w) (chunkRequest (dl w) (Int64.wrap (Start c + off)) (End c))
  = inl err ->
  downloadSingleChunk ctx chunk_Do idx c file off w
  = (Returns (Some (ErrorString
               (String.append "failed to make request: " (Error_string err)))),
     {| dl := dl w; fs := fs w; ticks := ticks w; requests := S (requests w);
        totalCompletedBytes := totalCompletedBytes w;
        events := events w ++ [OnChunkStart idx (Start c) (End c)] |}).
Proof.
  intros Hreq Hdo. unfold downloadSingleChunk, bind, emit, get, client_Do_chunk, ret.
  cbn [dl requests]. rewrite Hreq. cbn [dl requests]. rewrite Hdo. reflexivity.
Qed.

(** A read that fails with anything but [io.EOF] ends the loop of
    downloadChunkWithProgress with that error. *)
Lemma downloadChunkWithProgress_read_fails idx data e rest file expected tw w :
  tw < expected -> isPaused (dl w) = false -> ctx (ticks w) = false -> e <> EOF ->
  exists tw' w',
    downloadChunkWithProgress ctx idx ((data, Some e) :: rest) file expected tw w
    = (Returns (tw', Some (ErrorString
                  (String.append "failed to read chunk data: " (Error_string e)))),
       w') /\
    requests w' = requests w.
Proof.
  intros Htw Hp Hc He. cbn [downloadChunkWithProgress].
  assert (H : (tw <? expected) = true) by (apply Z.ltb_lt; exact Htw). rewrite H.
  unfold checkPauseState, ctx_Done, tick, bind, get, ret. rewrite Hp. cbn [ticks].
  rewrite Hc.
  destruct (Z.of_nat (length data) >? 0); simpl;
    destruct e; try contradiction; eexists _, _; split; reflexivity.
Qed.

(** C3 fails on the code: a chunk download is attempted once, whatever
    the job's max_retries.  The concurrent download sends at most one
    request per chunk; a worker whose request fails with a transport error
    reports that error after this one request, and a read of the body that
    fails with a transport error ends the attempt with that error, with no
    further request and no delay. *)
Theorem chunk_download_attempted_once :
  (forall names w,
     (requests (snd (downloadChunksConcurrently ctx chunk_Do names w))
      <= requests w + length (Chunks (dl w)))%nat) /\
  (forall idx c file w err,
     resumeOffset w file (Size c) < Size c ->
     http_NewRequest "GET" (Url (dl w)) = None ->
     chunk_Do (requests w)
       (chunkRequest (dl w) (Int64.wrap (Start c + resumeOffset w file (Size c))) (End c))
     = inl err ->
     exists w',
       chunkWorker ctx chunk_Do idx c file w
       = (Returns (Some (ErrorString
            (String.append "chunk "
               (String.append (fmt_d idx)
                  (String.append " download failed: "
                     (String.append "failed to make request: " (Error_string err))))))),
          w') /\
       requests w' = S (requests w) /\ fs w' = fs w) /\
  (forall idx data e rest file expected tw w,
     tw < expected -> isPaused (dl w) = false -> ctx (ticks w) = false -> e <> EOF ->
     exists tw' w',
       downloadChunkWithProgress ctx idx ((data, Some e) :: rest) file expected tw w
       = (Returns (tw', Some (ErrorString
                     (String.append "failed to read chunk data: " (Error_string e)))),
          w') /\
       requests w' = requests w).
Proof.
  split; [|split].
  - intros names w. apply sends_downloadChunksConcurrently.
  - intros idx c file w err Hoff Hreq Hdo.
    unfold chunkWorker. unfold bind at 1. rewrite detectChunkResumeOffset_run.
    assert (H : (resumeOffset w file (Size c) >=? Size c) = false).
    { rewrite Z.geb_leb. apply Z.leb_gt. exact Hoff. }
    rewrite H. unfold bind.
    rewrite (downloadSingleChunk_request_fails _ _ _ _ _ _ Hreq Hdo).
    eexists. split; [reflexivity|]. split; reflexivity.
  - apply downloadChunkWithProgress_read_fails.
Qed.

(** *** Writes of a worker *)

(** The loop of downloadChunkWithProgress only ever appends to its file. *)
Lemma downloadChunkWithProgress_appends idx file expected reader :
  forall tw w old,
    fs w !! file = Some old ->
    exists more,
      fs (snd (downloadChunkWithProgress ctx idx reader file expected tw w)) !! file
      = Some (old ++ more).
Proof.
  induction reader as [|[data err] rest IH]; intros tw w old Hold;
    cbn [downloadChunkWithProgress].
  - destruct (tw <? expected); [|exists []; rewrite app_nil_r; exact Hold].
    unfold checkPauseState, ctx_Done, tick, bind, get, ret, emit, block.
    destruct (isPaused (dl w)); simpl; [exists []; rewrite app_nil_r; exact Hold|].
    destruct (ctx (ticks w)); simpl; exists []; rewrite app_nil_r; exact Hold.
  - destruct (tw <? expected); [|exists []; rewrite app_nil_r; exact Hold].
    unfold checkPauseState, ctx_Done, tick, bind, get, ret, emit, block.
    destruct (isPaused (dl w)); simpl; [exists []; rewrite app_nil_r; exact Hold|].
    destruct (ctx (ticks w)); simpl; [exists []; rewrite app_nil_r; exact Hold|].
    destruct (Z.of_nat (length data) >? 0); simpl.
    + destruct err as [e|].
      * exists data. destruct e; simpl; rewrite lookup_insert_eq, Hold; reflexivity.
      * match goal with
        | |- context [downloadChunkWithProgress _ _ _ _ _ ?t ?w1] =>
            destruct (IH t w1 (old ++ data)) as [more Hmore]
        end.
        { simpl. rewrite lookup_insert_eq, Hold. reflexivity. }
        exists (data ++ more). rewrite app_assoc. exact Hmore.
    + destruct err as [e|].
      * exists []. rewrite app_nil_r. destruct e; simpl; exact Hold.
      * match goal with
        | |- context [downloadChunkWithProgress _ _ _ _ _ ?t ?w1] =>
            destruct (IH t w1 old) as [more Hmore]
        end.
        { simpl. exact Hold. }
        exists more. exact Hmore.
Qed.

End Attempts.

(** C2 fails on the code: Cancel sets the status to [stopped] and clears
    the pause flag but leaves the context of the download alone, so a
    worker that comes back to the head of its loop after Cancel has
    returned is neither held at the pause gate nor cancelled: it writes
    what its next read delivers to its partial file. *)
Theorem worker_writes_after_Cancel idx data rest file expected tw w old :
  tw < expected -> data <> [] -> fs w !! file = Some old ->
  Status (dl (after_Cancel w)) = DOWNLOAD_STOPPED /\
  exists more,
    fs (snd (downloadChunkWithProgress DownloadMultiStream_ctx idx
               ((data, None) :: rest) file expected tw (after_Cancel w))) !! file
    = Some (old ++ data ++ more).
Proof.
  intros Htw Hdata Hold. split; [reflexivity|]. cbn [downloadChunkWithProgress].
  assert (H : (tw <? expected) = true) by (apply Z.ltb_lt; exact Htw). rewrite H.
  unfold checkPauseState, ctx_Done, tick, bind, get, ret. simpl.
  assert (Hn : (Z.of_nat (length data) >? 0) = true).
  { destruct data; [contradiction|]. simpl length. rewrite Z.gtb_ltb. apply Z.ltb_lt. lia. }
  rewrite Hn. simpl.
  match goal with
  | |- context [downloadChunkWithProgress ?c _ _ _ _ ?t ?w1] =>
      destruct (downloadChunkWithProgress_appends c idx file expected rest t w1 (old ++ data))
        as [more Hmore]
  end.
  { simpl. rewrite lookup_insert_eq, Hold. reflexivity. }
  exists more. rewrite app_assoc. exact Hmore.
Qed.

(** *** A download of eight bytes in two chunks *)

Example executeMultiStreamDownload_plans_job :
  executeMultiStreamDownload (lib := plainLib) (plib := plainPaths)
    cancelled_after_first_read origin_cancelled job_start
  = executeMultiStreamDownload_chunks (lib := plainLib)
      cancelled_after_first_read origin_cancelled job_names job_planned.
Proof. vm_compute. reflexivity. Qed.

Example job_completes :
  let r := executeMultiStreamDownload (lib := plainLib) (plib := plainPaths)
             DownloadMultiStream_ctx (fun _ _ => inr origin_ok) job_start in
  fst r = Returns tt /\ Status (dl (snd r)) = DOWNLOAD_COMPLETED /\
  fs (snd r) !! "/dl/file.bin"
  = Some [Byte.x01; Byte.x02; Byte.x03; Byte.x04; Byte.x01; Byte.x02; Byte.x03; Byte.x04] /\
  fs (snd r) !! "/dl/file (0).udtemp" = None /\
  fs (snd r) !! "/dl/file (1).udtemp" = None.
Proof. vm_compute. repeat split; reflexivity. Qed.

(** The failing input of C1: when the context is cancelled while the
    first worker has written two bytes to its partial file, the job ends
    [stopped] with on-stop raised, and both partial files are gone. *)
Lemma cancelled_download_removes_partial_files :
  fs (snd (downloadChunksConcurrently (lib := plainLib)
             cancelled_after_first_read origin_cancelled job_names job_planned))
    !! "/dl/file (0).udtemp" = Some [Byte.x01; Byte.x02] /\
  fst (executeMultiStreamDownload (lib := plainLib) (plib := plainPaths)
         cancelled_after_first_read origin_cancelled job_start) = Returns tt /\
  Status (dl (snd (executeMultiStreamDownload (lib := plainLib) (plib := plainPaths)
                     cancelled_after_first_read origin_cancelled job_start)))
  = DOWNLOAD_STOPPED /\
  last (events (snd (executeMultiStreamDownload (lib := plainLib) (plib := plainPaths)
                       cancelled_after_first_read origin_cancelled job_start)))
  = Some OnStop /\
  fs (snd (executeMultiStreamDownload (lib := plainLib) (plib := plainPaths)
             cancelled_after_first_read origin_cancelled job_start))
    !! "/dl/file (0).udtemp" = None /\
  fs (snd (executeMultiStreamDownload (lib := plainLib) (plib := plainPaths)
             cancelled_after_first_read origin_cancelled job_start))
    !! "/dl/file (1).udtemp" = None.
Proof. vm_compute. repeat split; reflexivity. Qed.


(** With [max_retries = 3], an origin whose connection breaks once in the
    middle of the first chunk and serves every later request makes the job
    fail, after one request per chunk: the failed chunk is not attempted
    again. *)
Example transient_failure_fails_job :
  maxRetries (Prefs job) = 3 /\
  fst (executeMultiStreamDownload (lib := plainLib) (plib := plainPaths)
         DownloadMultiStream_ctx origin_flaky job_start) = Returns tt /\
  Status (dl (snd (executeMultiStreamDownload (lib := plainLib) (plib := plainPaths)
                     DownloadMultiStream_ctx origin_flaky job_start)))
  = DOWNLOAD_FAILED /\
  Error (dl (snd (executeMultiStreamDownload (lib := plainLib) (plib := plainPaths)
                    DownloadMultiStream_ctx origin_flaky job_start)))
  = Some (ErrorString
            "chunk 0 download failed: failed to read chunk data: unexpected EOF") /\
  requests (snd (executeMultiStreamDownload (lib := plainLib) (plib := plainPaths)
                   DownloadMultiStream_ctx origin_flaky job_start)) = 2%nat.
Proof. vm_compute. repeat split; reflexivity. Qed.

Lemma chunk_download_attempted_once_witness :
  exists tw' w',
    downloadChunkWithProgress DownloadMultiStream_ctx 0
      [([Byte.x01], Some ErrUnexpectedEOF)] "/dl/file (0).udtemp" 4 0 job_planned
    = (Returns (tw', Some (ErrorString "failed to read chunk data: unexpected EOF")), w') /\
    requests w' = requests job_planned.
Proof.
  apply (proj2 (proj2 (chunk_download_attempted_once (lib := plainLib)
                         DownloadMultiStream_ctx origin_flaky)));
    [ lia | reflexivity | reflexivity | discriminate ].
Defined.

(** A body that ends early with [io.EOF] ends the attempt without an error:
    the chunk is marked completed with two of its four bytes. *)
Example premature_EOF_completes_chunk :
  let r := chunkWorker (lib := plainLib) DownloadMultiStream_ctx
             (fun _ _ => inr {| respStatus := 206;
                                Body := [([Byte.x01; Byte.x02], Some EOF)] |})
             0 {| Index := 0; Start := 0; End := 3; Size := 4; IsCompleted := false |}
             "/dl/file (0).udtemp" job_planned in
  fst r = Returns None /\
  IsCompleted <$> Chunks (dl (snd r)) !! 0%nat = Some true /\
  fs (snd r) !! "/dl/file (0).udtemp" = Some [Byte.x01; Byte.x02].
Proof. vm_compute. repeat split; reflexivity. Qed.

Lemma worker_writes_after_Cancel_witness :
  Status (dl (after_Cancel job_midway)) = DOWNLOAD_STOPPED /\
  exists more,
    fs (snd (downloadChunkWithProgress DownloadMultiStream_ctx 0
               [([Byte.x03; Byte.x04], None)] "/dl/file (0).udtemp" 4 2
               (after_Cancel job_midway))) !! "/dl/file (0).udtemp"
    = Some ([Byte.x01; Byte.x02] ++ [Byte.x03; Byte.x04] ++ more).
Proof.
  apply (worker_writes_after_Cancel 0 [Byte.x03; Byte.x04] [] "/dl/file (0).udtemp"
           4 2 job_midway [Byte.x01; Byte.x02]);
    [ lia | discriminate | vm_compute; reflexivity ].
Defined.

(** The paused worker of the job is held at the pause gate; once Cancel has
    returned the job reads [stopped], and the same worker runs on to the
    end of its chunk and returns without an error. *)
Example Cancel_releases_paused_worker :
  fst (downloadChunkWithProgress DownloadMultiStream_ctx 0
         [([Byte.x03; Byte.x04], None)] "/dl/file (0).udtemp" 4 2 job_midway)
  = Blocks /\
  Status (dl (after_Cancel job_midway)) = DOWNLOAD_STOPPED /\
  fst (downloadChunkWithProgress DownloadMultiStream_ctx 0
         [([Byte.x03; Byte.x04], None)] "/dl/file (0).udtemp" 4 2
         (after_Cancel job_midway))
  = Returns (4, None) /\
  fs (snd (downloadChunkWithProgress DownloadMultiStream_ctx 0
             [([Byte.x03; Byte.x04], None)] "/dl/file (0).udtemp" 4 2
             (after_Cancel job_midway))) !! "/dl/file (0).udtemp"
  = Some [Byte.x01; Byte.x02; Byte.x03; Byte.x04].
Proof. vm_compute. repeat split; reflexivity. Qed.

(** ** Progress tracking *)

(** When updateProgress takes a speed sample, the speed is the size of the
    last write divided by the time since the previous sample: the bytes
    counted before do not enter it. *)
Lemma updateProgress_sample now bytesRead totalSize pt :
  Second <= Time_Sub now (LastReported pt) ->
  updateProgress now bytesRead totalSize pt
  = ({| BytesCompleted := Int64.wrap (BytesCompleted pt + bytesRead);
        TotalBytes := TotalBytes pt;
        LastReported := now; LastCheckTime := LastCheckTime pt;
        SpeedBps :=
          (float64_of_int64 bytesRead
           / Duration_Seconds (Time_Sub now (LastReported pt)))%float;
        Percentage := Percentage pt; ETA := ETA pt;
        BytesPerSecond := BytesPerSecond pt; StartTime := StartTime pt |}, true).
Proof.
  intros H. unfold updateProgress.
  assert (Hge : (Time_Sub now (LastReported pt) >=? Second) = true).
  { rewrite Z.geb_leb. apply Z.leb_le. exact H. }
  rewrite Hge. reflexivity.
Qed.

(** Between two samples updateProgress only counts the bytes. *)
Lemma updateProgress_no_sample now bytesRead totalSize pt :
  Time_Sub now (LastReported pt) < Second ->
  LastReported (fst (updateProgress now bytesRead totalSize pt)) = LastReported pt /\
  SpeedBps (fst (updateProgress now bytesRead totalSize pt)) = SpeedBps pt /\
  BytesCompleted (fst (updateProgress now bytesRead totalSize pt))
  = Int64.wrap (BytesCompleted pt + bytesRead).
Proof.
  intros H. unfold updateProgress.
  assert (Hge : (Time_Sub now (LastReported pt) >=? Second) = false).
  { rewrite Z.geb_leb. apply Z.leb_gt. exact H. }
  rewrite Hge. repeat split; reflexivity.
Qed.

(** C9 fails on the code: 1024 bytes arrive in the second after a speed
    sample, in writes of 1000 and 24 bytes; the next sample of
    updateProgress, one second after the previous one, reports 24 bytes per
    second (the last write alone) where the claim asks for 1024, the value
    the sampler of the multi-stream path computes from the same numbers. *)
Theorem updateProgress_speed_counts_last_write_only :
  LastReported tracker_after_first_write = LastReported tracker_sampled /\
  BytesCompleted tracker_after_second_write - BytesCompleted tracker_sampled = 1024 /\
  Time_Sub (LastReported tracker_after_second_write) (LastReported tracker_sampled)
  = Second /\
  SpeedBps tracker_after_second_write = 24%float /\
  monitorSpeed (1001 * Second) (1000 * Second) 1024 0 = Some 1024%float.
Proof. vm_compute. repeat split; reflexivity. Qed.

(** UpdateProgress of the tracker samples on every call: the same two
    writes give 24 bytes over half a second. *)
Example UpdateProgress_samples_every_call :
  SpeedBps (UpdateProgress (1001 * Second) 24 2000
              (UpdateProgress (1000 * Second + 500000000) 1000 2000 tracker_sampled))
  = 48%float.
Proof. vm_compute. reflexivity. Qed.

(** * Further properties *)

(** ** Machine integers, again *)

Lemma wrap_add a b : Int64.wrap (Int64.wrap a + b) = Int64.wrap (a + b).
Proof.
  unfold Int64.wrap.
  replace ((a + 2 ^ 63) mod 2 ^ 64 - 2 ^ 63 + b + 2 ^ 63)
    with ((a + 2 ^ 63) mod 2 ^ 64 + b) by lia.
  rewrite Zplus_mod_idemp_l. f_equal. f_equal. lia.
Qed.

(** ** Planning *)

Lemma length_DivideChunks_loop fuel : forall i k b u chunks,
  length (DivideChunks_loop fuel i k b u chunks) = length chunks.
Proof.
  induction fuel as [|fuel IH]; intros i k b u chunks; cbn [DivideChunks_loop].
  - reflexivity.
  - destruct (i <? k); [|reflexivity].
    destruct (i =? Int64.wrap (k - 2)); rewrite IH, length_insert; reflexivity.
Qed.

Lemma getOptimalThreadCount_pos d : 1 <= getOptimalThreadCount d.
Proof. unfold getOptimalThreadCount. case_Z; lia. Qed.

(** The planning steps of executeMultiStreamDownload give as many sizes,
    chunks and file names as there are workers. *)
Lemma planning_lengths (plib : PathLib) (d : Downloader) :
  let k := getOptimalThreadCount d in
  1 <= k /\
  exists chunkSizes cs cm names,
    DivideChunks (Filesize (ServerHeaders d)) k = Some chunkSizes /\
    initializeChunks (Filesize (ServerHeaders d)) chunkSizes = Some (cs, cm) /\
    GenerateChunkFileNames (Name (fileInfo d)) k [Dir (fileInfo d)] = Some names /\
    length chunkSizes = Z.to_nat k /\
    length cs = Z.to_nat k /\
    length names = Z.to_nat k.
Proof.
  intros k. pose proof (getOptimalThreadCount_pos d) as Hk. fold k in Hk.
  split; [exact Hk|].
  unfold DivideChunks, GenerateChunkFileNames.
  assert (H0 : (k <? 0) = false) by (apply Z.ltb_ge; lia).
  assert (H1 : (k =? 0) = false) by (apply Z.eqb_neq; lia).
  rewrite H0, H1.
  match goal with
  | |- context [Some (DivideChunks_loop ?f ?i ?k0 ?b ?u ?c)] =>
      set (sizes := DivideChunks_loop f i k0 b u c)
  end.
  assert (Hlen : length sizes = Z.to_nat k).
  { unfold sizes. rewrite length_DivideChunks_loop, length_replicate. reflexivity. }
  destruct (lookup_lt_is_Some_2 sizes 0%nat ltac:(lia)) as [s0 Hs0].
  exists sizes, (initializeChunks_loop 0 0 sizes).
  eexists. eexists. split; [reflexivity|].
  split; [unfold initializeChunks; rewrite Hs0; reflexivity|].
  split; [reflexivity|].
  split; [exact Hlen|]. split.
  - rewrite length_initializeChunks_loop. exact Hlen.
  - rewrite length_fmap, length_seqZ. reflexivity.
Qed.

(** X1. For a downloader with a thread count of at most [max_workers]
    (any file size; a zero or negative thread count included), the
    planning steps of executeMultiStreamDownload do not panic: the worker
    count lies between 1 and [max_workers], DivideChunks returns that many
    sizes, initializeChunks that many chunks and GenerateChunkFileNames
    that many file names. *)
Theorem planning_never_panics (plib : PathLib) (d : Downloader) :
  getThreadCount d <= max_workers ->
  let k := getOptimalThreadCount d in
  1 <= k <= max_workers /\
  exists chunkSizes cs cm names,
    DivideChunks (Filesize (ServerHeaders d)) k = Some chunkSizes /\
    initializeChunks (Filesize (ServerHeaders d)) chunkSizes = Some (cs, cm) /\
    GenerateChunkFileNames (Name (fileInfo d)) k [Dir (fileInfo d)] = Some names /\
    length chunkSizes = Z.to_nat k /\
    length cs = Z.to_nat k /\
    length names = Z.to_nat k.
Proof.
  intros Hmax k. destruct (planning_lengths plib d) as [Hk Hex]. fold k in Hk, Hex.
  split; [|exact Hex]. split; [exact Hk|].
  unfold k, getOptimalThreadCount. unfold max_workers in *. case_Z; lia.
Qed.

Lemma planning_never_panics_witness :
  1 <= getOptimalThreadCount big_job <= max_workers /\
  exists chunkSizes cs cm names,
    DivideChunks (Filesize (ServerHeaders big_job)) (getOptimalThreadCount big_job)
    = Some chunkSizes /\
    initializeChunks (Filesize (ServerHeaders big_job)) chunkSizes = Some (cs, cm) /\
    GenerateChunkFileNames (plib := plainPaths) (Name (fileInfo big_job))
      (getOptimalThreadCount big_job) [Dir (fileInfo big_job)] = Some names /\
    length chunkSizes = Z.to_nat (getOptimalThreadCount big_job) /\
    length cs = Z.to_nat (getOptimalThreadCount big_job) /\
    length names = Z.to_nat (getOptimalThreadCount big_job).
Proof.
  apply (planning_never_panics plainPaths big_job).
  unfold getThreadCount, big_job, max_workers; simpl; lia.
Defined.

(** X2. When the strategy selector takes the multi-stream path and the
    user left the thread count to the engine (zero or negative), the
    download runs with 4, 8 or 12 workers, according to the size, and never
    with more workers than bytes; the two-worker case of
    getOptimalThreadCount is not reached on this path. *)
Theorem auto_thread_count_on_multi_stream (d : Downloader) :
  executeDownloadStrategy d = MultiStream ->
  getThreadCount d <= 0 ->
  let N := Filesize (ServerHeaders d) in
  let k := getOptimalThreadCount d in
  (k = 4 /\ N < 100 * 1024 * 1024 \/
   k = 8 /\ 100 * 1024 * 1024 <= N < 1024 * 1024 * 1024 \/
   k = 12 /\ 1024 * 1024 * 1024 <= N) /\
  k <= N.
Proof.
  intros Hs Ht N k. unfold executeDownloadStrategy in Hs.
  destruct (AcceptsRanges (ServerHeaders d)); [|discriminate]. simpl in Hs.
  destruct (shouldUseMultiStream d) eqn:E; [|discriminate].
  apply shouldUseMultiStream_true in E. destruct E as (_ & H1 & H2 & H3).
  unfold minSizeForMultiStream in H2. fold N in H1, H2.
  unfold k, getOptimalThreadCount. fold N.
  rewrite Z.gtb_ltb.
  destruct (Z.ltb_spec 0 (getThreadCount d)); [lia|].
  case_Z; lia.
Qed.

Lemma auto_thread_count_on_multi_stream_witness :
  (getOptimalThreadCount big_job = 4 /\
   Filesize (ServerHeaders big_job) < 100 * 1024 * 1024 \/
   getOptimalThreadCount big_job = 8 /\
   100 * 1024 * 1024 <= Filesize (ServerHeaders big_job) < 1024 * 1024 * 1024 \/
   getOptimalThreadCount big_job = 12 /\
   1024 * 1024 * 1024 <= Filesize (ServerHeaders big_job)) /\
  getOptimalThreadCount big_job <= Filesize (ServerHeaders big_job).
Proof.
  apply (auto_thread_count_on_multi_stream big_job);
    [ reflexivity | unfold getThreadCount, big_job; simpl; lia ].
Defined.

(** ** The controls *)

(** X3. Pause, Resume and Cancel touch the pause flag and the status only;
    Pause and Cancel are idempotent, Resume undoes Pause (the download is
    running and in progress again) and does nothing to a download that is
    not paused. *)
Theorem controls_algebra (d : Downloader) :
  Pause (Pause d) = Pause d /\
  Cancel (Cancel d) = Cancel d /\
  Resume (Resume d) = Resume d /\
  isPaused (Pause d) = true /\
  isPaused (Resume (Pause d)) = false /\
  Status (Resume (Pause d)) = DOWNLOAD_IN_PROGRESS /\
  (isPaused d = false -> Resume d = d /\ Status (Pause d) = DOWNLOAD_PAUSED) /\
  (forall f : Downloader -> Downloader,
     f = Pause \/ f = Resume \/ f = Cancel ->
     with_Status (Status d) (with_isPaused (isPaused d) (f d)) = d).
Proof.
  destruct d as [u fi p h sh cs cm paused st e].
  split. { destruct paused; reflexivity. }
  split. { reflexivity. }
  split. { destruct paused; reflexivity. }
  split. { destruct paused; reflexivity. }
  split. { destruct paused; reflexivity. }
  split. { destruct paused; reflexivity. }
  split. { simpl. intros ->. split; reflexivity. }
  intros f [-> | [-> | ->]]; destruct paused; reflexivity.
Qed.

(** X4. A cancelled download is not at rest: Cancel always leaves the
    status [stopped] and the pause flag clear, a later Resume changes
    nothing, but a later Pause moves the stopped download to [paused] and a
    Resume after that to [in_progress]. *)
Theorem Cancel_is_not_final (d : Downloader) :
  Status (Cancel d) = DOWNLOAD_STOPPED /\
  isPaused (Cancel d) = false /\
  Resume (Cancel d) = Cancel d /\
  Status (Pause (Cancel d)) = DOWNLOAD_PAUSED /\
  Status (Resume (Pause (Cancel d))) = DOWNLOAD_IN_PROGRESS.
Proof. destruct d; repeat split; reflexivity. Qed.

(** ** StopDownload and Dispose *)

(** X5. StopDownload on a free mutex returns with the mutex free again, the
    stopped flag set and the callbacks cleared; it calls the cancel
    function once if there is one and the download was not stopped, and a
    second StopDownload changes nothing: the cancel function is never
    called twice. *)
Theorem StopDownload_idempotent (st : StopState) :
  muLocked st = false ->
  exists st1,
    StopDownload st = (Returns tt, st1) /\
    muLocked st1 = false /\ isStopped st1 = true /\
    (isStopped st = false -> hasCallbacks st1 = false) /\
    cancelCalls st1
    = (if (negb (isStopped st) && hasCancelFunc st)%bool
       then S (cancelCalls st) else cancelCalls st) /\
    StopDownload st1 = (Returns tt, st1).
Proof.
  intros Hmu. destruct st as [mu stopped cf calls cbs]. simpl in Hmu. subst mu.
  unfold StopDownload, mu_Lock, mu_Unlock; simpl.
  destruct stopped; simpl.
  - eexists. split; [reflexivity|]. repeat split; try reflexivity. discriminate.
  - eexists. split; [reflexivity|]. simpl. repeat split; try reflexivity.
Qed.

Lemma StopDownload_idempotent_witness :
  exists st1,
    StopDownload {| muLocked := false; isStopped := false; hasCancelFunc := true;
                    cancelCalls := 0; hasCallbacks := true |}
    = (Returns tt, st1) /\
    muLocked st1 = false /\ isStopped st1 = true /\
    (false = false -> hasCallbacks st1 = false) /\
    cancelCalls st1 = 1%nat /\
    StopDownload st1 = (Returns tt, st1).
Proof.
  apply (StopDownload_idempotent
           {| muLocked := false; isStopped := false; hasCancelFunc := true;
              cancelCalls := 0; hasCallbacks := true |}).
  reflexivity.
Defined.

(** X6. Dispose never returns: it takes the downloader's mutex and then
    calls StopDownload, which waits for the same mutex; the download is
    neither stopped nor are its callbacks cleared. *)
Theorem Dispose_never_returns (st : StopState) :
  fst (Dispose st) = Blocks /\
  isStopped (snd (Dispose st)) = isStopped st /\
  cancelCalls (snd (Dispose st)) = cancelCalls st /\
  hasCallbacks (snd (Dispose st)) = hasCallbacks st.
Proof.
  destruct st as [mu stopped cf calls cbs].
  unfold Dispose, StopDownload, mu_Lock; simpl.
  destruct mu; simpl; repeat split; reflexivity.
Qed.

(** ** Per-chunk progress *)

(** X7. UpdateChunkProgress ignores an index outside the slice (negative,
    or at or past its length); for an index inside it keeps the length and
    every other entry, keeps the entry's own index, stores the two byte
    counts and marks the entry complete exactly when the total is positive
    and reached. *)
Theorem UpdateChunkProgress_bounds (i b t : Z) (cp : list ChunkProgressData) :
  length (UpdateChunkProgress i b t cp) = length cp /\
  (i < 0 \/ Z.of_nat (length cp) <= i -> UpdateChunkProgress i b t cp = cp) /\
  (forall j, Z.of_nat j <> i -> UpdateChunkProgress i b t cp !! j = cp !! j) /\
  (forall e, 0 <= i -> cp !! Z.to_nat i = Some e ->
     exists e', UpdateChunkProgress i b t cp !! Z.to_nat i = Some e' /\
       cpIndex e' = cpIndex e /\ cpBytesDownloaded e' = b /\ cpTotalBytes e' = t /\
       (cpIsComplete e' = true <-> 0 < t <= b)).
Proof.
  unfold UpdateChunkProgress. rewrite Z.geb_leb.
  destruct (Z.leb_spec 0 i) as [Hi|Hi]; simpl.
  - destruct (Z.ltb_spec i (Z.of_nat (length cp))) as [Hl|Hl].
    + assert (Hin : (Z.to_nat i < length cp)%nat) by lia.
      destruct (lookup_lt_is_Some_2 cp _ Hin) as [e He]. rewrite He.
      split; [apply length_insert|]. split; [intros [?|?]; lia|]. split.
      * intros j Hj. apply list_lookup_insert_ne. lia.
      * intros e0 _ He0. inversion He0; subst e0.
        eexists. split; [apply list_lookup_insert_eq; exact Hin|]. simpl.
        split; [reflexivity|]. split; [reflexivity|]. split; [reflexivity|].
        rewrite ?Z.geb_leb, Z.gtb_ltb, andb_true_iff, Z.leb_le, Z.ltb_lt. lia.
    + split; [reflexivity|]. split; [reflexivity|]. split; [reflexivity|].
      intros e _ He. apply lookup_lt_Some in He. lia.
  - split; [reflexivity|]. split; [reflexivity|]. split; [reflexivity|].
    intros e Hi'. lia.
Qed.

(** X8. InitializeChunkProgress panics on a negative count; for a count
    from 0 to [max_workers] it gives one entry for each chunk, numbered by
    its position and empty, and the download counts as multi-stream
    exactly when there are at least two entries. *)
Theorem InitializeChunkProgress_entries (chunkCount : Z) :
  (chunkCount < 0 -> InitializeChunkProgress chunkCount = None) /\
  (0 <= chunkCount <= max_workers ->
   exists cp, InitializeChunkProgress chunkCount = Some cp /\
     length cp = Z.to_nat chunkCount /\
     (forall j e, cp !! j = Some e ->
        cpIndex e = Z.of_nat j /\ cpIsComplete e = false /\
        cpBytesDownloaded e = 0 /\ cpTotalBytes e = 0) /\
     (IsMultiStreamDownload cp = true <-> 2 <= chunkCount)).
Proof.
  unfold InitializeChunkProgress. split.
  - intros H. destruct (Z.ltb_spec chunkCount 0); [reflexivity | lia].
  - intros [H _]. destruct (Z.ltb_spec chunkCount 0); [lia|].
    eexists. split; [reflexivity|].
    split; [rewrite length_fmap, length_seqZ; reflexivity|]. split.
    + intros j e He. rewrite list_lookup_fmap in He.
      destruct (seqZ 0 chunkCount !! j) as [x|] eqn:Ex; [|discriminate].
      apply lookup_seqZ in Ex. destruct Ex as [-> _]. simpl in He.
      inversion He; subst e. simpl. repeat split; lia.
    + unfold IsMultiStreamDownload. rewrite length_fmap, length_seqZ, Z.gtb_ltb.
      rewrite Z2Nat.id by lia. split; intros H1.
      * apply Z.ltb_lt in H1. lia.
      * apply Z.ltb_lt. lia.
Qed.

Lemma InitializeChunkProgress_entries_witness :
  exists cp, InitializeChunkProgress 4 = Some cp /\
    length cp = Z.to_nat 4 /\
    (forall j e, cp !! j = Some e ->
       cpIndex e = Z.of_nat j /\ cpIsComplete e = false /\
       cpBytesDownloaded e = 0 /\ cpTotalBytes e = 0) /\
    (IsMultiStreamDownload cp = true <-> 2 <= 4).
Proof. apply (proj2 (InitializeChunkProgress_entries 4)). unfold max_workers. lia. Defined.

(** ** Progress tracking, again *)

Lemma BytesCompleted_updateProgress now n total pt :
  BytesCompleted (fst (updateProgress now n total pt))
  = Int64.wrap (BytesCompleted pt + n).
Proof.
  unfold updateProgress.
  destruct (Time_Sub now (LastReported pt) >=? Second); reflexivity.
Qed.

Lemma BytesCompleted_UpdateProgress now n total pt :
  BytesCompleted (UpdateProgress now n total pt) = Int64.wrap (BytesCompleted pt + n).
Proof. reflexivity. Qed.

(** X9. Both trackers count every byte they are told of, whatever the
    times of the calls and whether or not a speed sample is taken: after
    any run of updates the byte count is the count before plus the bytes of
    all the calls, in [int64] arithmetic. *)
Theorem trackers_count_every_byte (calls : list (Time * Z * Z)) (pt : ProgressTracker) :
  Int64.in_range (BytesCompleted pt) ->
  BytesCompleted (updateProgress_all calls pt)
  = Int64.wrap (BytesCompleted pt + bytes_of calls) /\
  BytesCompleted (UpdateProgress_all calls pt)
  = Int64.wrap (BytesCompleted pt + bytes_of calls).
Proof.
  intros Hr.
  assert (H : forall calls pt0,
            Int64.wrap (BytesCompleted (updateProgress_all calls pt0))
            = Int64.wrap (BytesCompleted pt0 + bytes_of calls) /\
            Int64.wrap (BytesCompleted (UpdateProgress_all calls pt0))
            = Int64.wrap (BytesCompleted pt0 + bytes_of calls)).
  { clear. induction calls as [|[[now n] total] calls IH]; intros pt0; simpl.
    - rewrite Z.add_0_r. split; reflexivity.
    - destruct (IH (fst (updateProgress now n total pt0))) as [IH1 _].
      destruct (IH (UpdateProgress now n total pt0)) as [_ IH2].
      unfold updateProgress_all, UpdateProgress_all in *. simpl.
      rewrite IH1, IH2, BytesCompleted_updateProgress, BytesCompleted_UpdateProgress.
      rewrite !wrap_add. split; f_equal; lia. }
  assert (Hin : forall calls pt0, Int64.in_range (BytesCompleted pt0) ->
            Int64.in_range (BytesCompleted (updateProgress_all calls pt0)) /\
            Int64.in_range (BytesCompleted (UpdateProgress_all calls pt0))).
  { clear. induction calls as [|[[now n] total] calls IH]; intros pt0 Hr; simpl.
    - split; exact Hr.
    - unfold updateProgress_all, UpdateProgress_all in *. simpl. split.
      + apply IH. rewrite BytesCompleted_updateProgress. apply wrap_in_range.
      + apply IH. rewrite BytesCompleted_UpdateProgress. apply wrap_in_range. }
  destruct (H calls pt) as [H1 H2]. destruct (Hin calls pt Hr) as [R1 R2].
  split; [rewrite <- H1 | rewrite <- H2]; symmetry; apply wrap_small; assumption.
Qed.

Lemma trackers_count_every_byte_witness :
  BytesCompleted
    (updateProgress_all [(1000 * Second + 500000000, 1000, 2000);
                         (1001 * Second, 24, 2000)] tracker_sampled)
  = Int64.wrap (BytesCompleted tracker_sampled
                + bytes_of [(1000 * Second + 500000000, 1000, 2000);
                            (1001 * Second, 24, 2000)]) /\
  BytesCompleted
    (UpdateProgress_all [(1000 * Second + 500000000, 1000, 2000);
                         (1001 * Second, 24, 2000)] tracker_sampled)
  = Int64.wrap (BytesCompleted tracker_sampled
                + bytes_of [(1000 * Second + 500000000, 1000, 2000);
                            (1001 * Second, 24, 2000)]).
Proof.
  apply (trackers_count_every_byte
           [(1000 * Second + 500000000, 1000, 2000); (1001 * Second, 24, 2000)]
           tracker_sampled).
  unfold Int64.in_range, Int64.min_int, Int64.max_int. simpl. lia.
Defined.

(** X10. With a known total size, the percentage UpdateProgress stores is
    never above 100, also when more bytes than the total have been counted;
    the total it stores is the one of the call and the call's time becomes
    the time of the last report. *)
Theorem UpdateProgress_percentage_clamped now bytesRead totalSize pt :
  0 < totalSize ->
  (100 <? Percentage (UpdateProgress now bytesRead totalSize pt))%float = false /\
  TotalBytes (UpdateProgress now bytesRead totalSize pt) = totalSize /\
  LastReported (UpdateProgress now bytesRead totalSize pt) = now.
Proof.
  intros Ht. split; [|split; reflexivity].
  unfold UpdateProgress. cbn [Percentage].
  assert (H : (totalSize >? 0) = true) by (rewrite Z.gtb_ltb; apply Z.ltb_lt; exact Ht).
  rewrite H.
  match goal with |- context [if (100 <? ?p)%float then _ else _] =>
    destruct (100 <? p)%float eqn:E end.
  - reflexivity.
  - exact E.
Qed.

Lemma UpdateProgress_percentage_clamped_witness :
  PrimFloat.ltb 100%float
    (Percentage (UpdateProgress (1001 * Second) 5000 2000 tracker_sampled)) = false /\
  TotalBytes (UpdateProgress (1001 * Second) 5000 2000 tracker_sampled) = 2000 /\
  LastReported (UpdateProgress (1001 * Second) 5000 2000 tracker_sampled) = 1001 * Second.
Proof.
  apply (UpdateProgress_percentage_clamped (1001 * Second) 5000 2000 tracker_sampled).
  lia.
Defined.

(** ** Headers learnt during a single-stream download *)

(** X11. handleUpdatedHeaders only ever improves what is known of the
    server: a known size is never changed (a size is taken over only while
    none is known), range support once seen is never withdrawn, name, type
    and final URL are kept, and no other field of the downloader is
    touched; once the elevation has been checked it stays checked. *)
Theorem handleUpdatedHeaders_monotone (completed : Z) (headers : ServerData)
    (checked : bool) (totalSize : Z) (d : Downloader) :
  let d' := fst (handleUpdatedHeaders completed headers checked totalSize d) in
  let h := ServerHeaders d in
  let h' := ServerHeaders d' in
  (Filesize h <> 0 -> Filesize h' = Filesize h) /\
  (Filesize h = 0 -> Filesize h' = if Filesize headers >? 0 then Filesize headers else 0) /\
  AcceptsRanges h' = (AcceptsRanges h || AcceptsRanges headers)%bool /\
  Filename h' = Filename h /\ Filetype h' = Filetype h /\ FinalURL h' = FinalURL h /\
  with_ServerHeaders h d' = d /\
  (checked = true ->
   snd (handleUpdatedHeaders completed headers checked totalSize d) = true).
Proof.
  destruct d as [u fi p hd [fn fs0 ft ar fu] cs cm paused st e].
  destruct headers as [fn1 fs1 ft1 ar1 fu1].
  unfold handleUpdatedHeaders, with_ServerHeaders; simpl.
  split.
  { intros Hne. destruct (Z.eqb_spec fs0 0); [contradiction|].
    rewrite andb_false_r. simpl. destruct (ar1 && negb ar)%bool; reflexivity. }
  split.
  { intros ->. simpl. rewrite andb_true_r.
    destruct (fs1 >? 0); simpl; destruct (ar1 && negb ar)%bool; reflexivity. }
  split.
  { destruct ((fs1 >? 0) && (fs0 =? 0))%bool; simpl; destruct ar, ar1; reflexivity. }
  split.
  { destruct ((fs1 >? 0) && (fs0 =? 0))%bool; simpl;
      destruct (ar1 && negb ar)%bool; reflexivity. }
  split.
  { destruct ((fs1 >? 0) && (fs0 =? 0))%bool; simpl;
      destruct (ar1 && negb ar)%bool; reflexivity. }
  split.
  { destruct ((fs1 >? 0) && (fs0 =? 0))%bool; simpl;
      destruct (ar1 && negb ar)%bool; reflexivity. }
  split; [reflexivity|].
  intros ->. reflexivity.
Qed.

(** ** Probe, again *)

Section ProbeProofs.

Context {lib : GoLib}.
Variable client_Do : nat -> string -> DoResult.

(** What one attempt of the probe can return, and what it costs. *)
Lemma tryGetServerData_cases url st :
  let r := tryGetServerData client_Do url st in
  (sent st <= sent (snd r) <= S (sent st))%nat /\
  slept (snd r) = slept st /\
  ((exists data, fst r = (Some data, None)) \/
   fst r = (None, None) \/
   (exists e, fst r = (None, Some e))).
Proof.
  unfold tryGetServerData.
  destruct (http_NewRequest "HEAD" url) as [e|]; simpl.
  - split; [lia|]. split; [reflexivity|]. right. right. eauto.
  - destruct (client_Do (sent st) url) as [e|resp]; simpl.
    + split; [lia|]. split; [reflexivity|]. right. right. eauto.
    + destruct (StatusCode resp >=? 400); simpl.
      * split; [lia|]. split; [reflexivity|]. right. left. reflexivity.
      * split; [lia|]. split; [reflexivity|]. left. eauto.
Qed.

(** X12. GetServerData sends at most three requests and sleeps at most
    four seconds.  It returns server data without an error, nothing at all,
    or an error without data; the error is always the aggregated one
    ("failed after 3 attempts: ..."), and it is returned only after both
    waits of two seconds. *)
Theorem GetServerData_bounded url st :
  let r := GetServerData client_Do url st in
  (sent st <= sent (snd r) <= sent st + 3)%nat /\
  slept st <= slept (snd r) <= slept st + 4 /\
  ((exists data, fst r = (Some data, None)) \/
   fst r = (None, None) \/
   (exists e,
      fst r = (None, Some (ErrorString
                 (String.append "failed after 3 attempts: " (Error_string e)))) /\
      slept (snd r) = slept st + 4)).
Proof.
  unfold GetServerData. change (Z.to_nat probe_maxRetries) with 3%nat.
  cbn [GetServerData_loop].
  pose proof (tryGetServerData_cases url st) as H1.
  destruct (tryGetServerData client_Do url st) as [[data1 err1] st1].
  simpl in H1. destruct H1 as (Hs1 & Hz1 & Hc1).
  destruct err1 as [e1|].
  2:{ simpl. split; [lia|]. split; [lia|].
      destruct Hc1 as [[d Hd]|[Hd|[e Hd]]]; inversion Hd; subst; eauto. }
  change (1 <? probe_maxRetries) with true. cbv iota.
  set (st1' := {| sent := sent st1; slept := slept st1 + 2 |}).
  pose proof (tryGetServerData_cases url st1') as H2.
  destruct (tryGetServerData client_Do url st1') as [[data2 err2] st2].
  simpl in H2. destruct H2 as (Hs2 & Hz2 & Hc2).
  destruct err2 as [e2|].
  2:{ simpl. split; [lia|]. split; [lia|].
      destruct Hc2 as [[d Hd]|[Hd|[e Hd]]]; inversion Hd; subst; eauto. }
  change (1 + 1 <? probe_maxRetries) with true. cbv iota.
  set (st2' := {| sent := sent st2; slept := slept st2 + 2 |}).
  pose proof (tryGetServerData_cases url st2') as H3.
  destruct (tryGetServerData client_Do url st2') as [[data3 err3] st3].
  simpl in H3. destruct H3 as (Hs3 & Hz3 & Hc3).
  destruct err3 as [e3|].
  2:{ simpl. split; [lia|]. split; [lia|].
      destruct Hc3 as [[d Hd]|[Hd|[e Hd]]]; inversion Hd; subst; eauto. }
  change (1 + 1 + 1 <? probe_maxRetries) with false. cbv iota.
  simpl. split; [lia|]. split; [lia|].
  right. right. exists e3. split; [reflexivity|]. lia.
Qed.

(** X13. A transport error on the first attempt is retried: when the
    second request is answered with a status below 400, GetServerData
    returns the server data of that answer, after two requests and one
    wait of two seconds. *)
Theorem GetServerData_retry_recovers url st e resp :
  http_NewRequest "HEAD" url = None ->
  client_Do (sent st) url = inl e ->
  client_Do (S (sent st)) url = inr resp ->
  StatusCode resp < 400 ->
  GetServerData client_Do url st
  = ((Some (serverDataOf resp), None),
     {| sent := S (S (sent st)); slept := slept st + 2 |}).
Proof.
  intros Hreq H1 H2 Hst.
  unfold GetServerData. change (Z.to_nat probe_maxRetries) with 3%nat.
  cbn [GetServerData_loop]. unfold tryGetServerData at 1. rewrite Hreq, H1.
  change (1 <? probe_maxRetries) with true. cbv iota.
  unfold tryGetServerData at 1. cbn [sent slept]. rewrite Hreq, H2.
  assert (H : (StatusCode resp >=? 400) = false) by (rewrite Z.geb_leb; apply Z.leb_gt; lia).
  rewrite H. reflexivity.
Qed.

(** X14. Three transport errors in a row end the probe with an error that
    counts the attempts and carries the text of the last error only, after
    three requests and two waits. *)
Theorem GetServerData_gives_up url st e1 e2 e3 :
  http_NewRequest "HEAD" url = None ->
  client_Do (sent st) url = inl e1 ->
  client_Do (S (sent st)) url = inl e2 ->
  client_Do (S (S (sent st))) url = inl e3 ->
  GetServerData client_Do url st
  = ((None, Some (ErrorString
               (String.append "failed after 3 attempts: " (Error_string e3)))),
     {| sent := S (S (S (sent st))); slept := slept st + 2 + 2 |}).
Proof.
  intros Hreq H1 H2 H3.
  unfold GetServerData. change (Z.to_nat probe_maxRetries) with 3%nat.
  cbn [GetServerData_loop]. unfold tryGetServerData at 1. rewrite Hreq, H1.
  change (1 <? probe_maxRetries) with true. cbv iota.
  unfold tryGetServerData at 1. cbn [sent slept]. rewrite Hreq, H2.
  change (1 + 1 <? probe_maxRetries) with true. cbv iota.
  unfold tryGetServerData at 1. cbn [sent slept]. rewrite Hreq, H3.
  change (1 + 1 + 1 <? probe_maxRetries) with false. cbv iota.
  reflexivity.
Qed.

(** X15. The server data of the probe always names the file: when neither
    Content-Disposition nor the URL gives a name, the name is
    [downloaded_file] followed by the extension of the content type; the
    size is 0 when there is no Content-Length. *)
Theorem serverDataOf_names_the_file (resp : Response) :
  Filename (serverDataOf resp) <> "" /\
  (urlFilename (RequestURL resp)
     (dispositionFilename (Header_Get (Header resp) "Content-Disposition")) = "" ->
   Filename (serverDataOf resp)
   = String.append "downloaded_file"
       (mimeExtensionFromContentType (Header_Get (Header resp) "Content-Type"))) /\
  (Header_Get (Header resp) "Content-Length" = "" -> Filesize (serverDataOf resp) = 0).
Proof.
  unfold serverDataOf; cbn [Filename Filesize].
  set (n4 := urlFilename (RequestURL resp)
               (dispositionFilename (Header_Get (Header resp) "Content-Disposition"))).
  split; [|split].
  - destruct (String.eqb_spec n4 "") as [E|E]; [|exact E].
    rewrite append_String. discriminate.
  - intros ->. reflexivity.
  - intros ->. reflexivity.
Qed.

(** X16. Whenever extractFilename finds a name for a response, the probe
    gives the file that same name. *)
Theorem extractFilename_agrees (resp : Response) :
  extractFilename resp <> "" ->
  Filename (serverDataOf resp) = extractFilename resp.
Proof.
  unfold serverDataOf, extractFilename, dispositionFilename, urlFilename;
    cbn [Filename].
  set (cd := Header_Get (Header resp) "Content-Disposition").
  destruct (String.eqb_spec cd "") as [Ecd|Ecd]; cbn [negb].
  - change (String.eqb "" "") with true. cbv iota.
    destruct (url_Parse_Path (RequestURL resp)) as [p|]; [|intros H; contradiction].
    destruct (negb (String.eqb (path_Base p) "") && Contains (path_Base p) ".")%bool;
      [|intros H; contradiction].
    intros H. destruct (String.eqb_spec (path_Base p) ""); [contradiction | reflexivity].
  - repeat match goal with
           | |- context [match ?x with _ => _ end] =>
               lazymatch x with
               | String.eqb _ _ => fail
               | _ => destruct x eqn:?
               end
           end;
      intros H;
      repeat match goal with
             | |- context [String.eqb ?a ?b] => destruct (String.eqb_spec a b)
             | H0 : context [String.eqb ?a ?b] |- _ => destruct (String.eqb_spec a b)
             end;
      try reflexivity; try contradiction; try congruence.
Qed.

End ProbeProofs.

Lemma GetServerData_retry_recovers_witness :
  GetServerData (lib := plainLib)
    (fun n _ => match n with
                | O => inl (ErrorString "dial tcp: timeout")
                | S _ => inr response_Bytes
                end)
    "http://origin/file.bin" {| sent := 0; slept := 0 |}
  = ((Some (serverDataOf (lib := plainLib) response_Bytes), None),
     {| sent := 2; slept := 0 + 2 |}).
Proof.
  apply (GetServerData_retry_recovers (lib := plainLib)
           (fun n _ => match n with
                       | O => inl (ErrorString "dial tcp: timeout")
                       | S _ => inr response_Bytes
                       end)
           "http://origin/file.bin" {| sent := 0; slept := 0 |}
           (ErrorString "dial tcp: timeout") response_Bytes);
    [ reflexivity | reflexivity | reflexivity | simpl; lia ].
Defined.

Lemma GetServerData_gives_up_witness :
  GetServerData (lib := plainLib)
    (fun n _ => match n with
                | 2%nat => inl (ErrorString "connection reset")
                | _ => inl (ErrorString "dial tcp: timeout")
                end)
    "http://origin/file.bin" {| sent := 0; slept := 0 |}
  = ((None, Some (ErrorString
               (String.append "failed after 3 attempts: "
                  (Error_string (ErrorString "connection reset"))))),
     {| sent := 3; slept := 0 + 2 + 2 |}).
Proof.
  apply (GetServerData_gives_up (lib := plainLib)
           (fun n _ => match n with
                       | 2%nat => inl (ErrorString "connection reset")
                       | _ => inl (ErrorString "dial tcp: timeout")
                       end)
           "http://origin/file.bin" {| sent := 0; slept := 0 |}
           (ErrorString "dial tcp: timeout") (ErrorString "dial tcp: timeout")
           (ErrorString "connection reset"));
    reflexivity.
Defined.

Lemma extractFilename_agrees_witness :
  Filename (serverDataOf (lib := urlPathLib)
              {| StatusCode := 200; Header := ∅; RequestURL := "file.bin" |})
  = extractFilename (lib := urlPathLib)
      {| StatusCode := 200; Header := ∅; RequestURL := "file.bin" |}.
Proof.
  apply (extractFilename_agrees (lib := urlPathLib)
           {| StatusCode := 200; Header := ∅; RequestURL := "file.bin" |}).
  vm_compute. discriminate.
Defined.

(** ** File placement *)

Lemma CheckPreferences_name_nonempty d : CheckPreferences_name d <> "".
Proof.
  unfold CheckPreferences_name.
  destruct (String.eqb_spec (fileName (Prefs d)) "") as [E1|E1]; cbn [negb]; [|exact E1].
  destruct (String.eqb_spec (Filename (ServerHeaders d)) "") as [E2|E2]; cbn [negb];
    [|exact E2].
  destruct (negb (String.eqb (Filetype (ServerHeaders d)) "")); [|discriminate].
  destruct (negb (String.eqb (mimeExtensionFromContentType (Filetype (ServerHeaders d))) ""));
    [rewrite append_String|]; discriminate.
Qed.



(** ** Requests *)

Lemma Header_Set_all_cons k v order h :
  Header_Set_all ((k, v) :: order) h = Header_Set_all order (Header_Set k v h).
Proof. reflexivity. Qed.

(** A header of the request comes from the headers it started with or from
    an entry the loop has met. *)
Lemma Header_Set_all_lookup_Some order : forall h c v,
  Header_Set_all order h !! c = Some v ->
  h !! c = Some v \/ exists k, CanonicalMIMEHeaderKey k = c /\ (k, v) ∈ order.
Proof.
  induction order as [|[k0 v0] order IH]; intros h c v H.
  - left. exact H.
  - rewrite Header_Set_all_cons in H. apply IH in H. destruct H as [H|(k & Hk & Hin)].
    + unfold Header_Set in H.
      destruct (decide (CanonicalMIMEHeaderKey k0 = c)) as [E|E].
      * rewrite E, lookup_insert_eq in H. inversion H; subst v0.
        right. exists k0. split; [exact E | apply elem_of_cons; auto].
      * rewrite lookup_insert_ne in H by exact E. left. exact H.
    + right. exists k. split; [exact Hk | apply elem_of_cons; auto].
Qed.

Lemma Header_Set_all_keeps order : forall h c v,
  (forall k' v', (k', v') ∈ order -> CanonicalMIMEHeaderKey k' = c -> v' = v) ->
  h !! c = Some v -> Header_Set_all order h !! c = Some v.
Proof.
  induction order as [|[k0 v0] order IH]; intros h c v Hu Hh.
  - exact Hh.
  - rewrite Header_Set_all_cons. apply IH.
    + intros k' v' Hin. apply Hu. apply elem_of_cons. auto.
    + unfold Header_Set.
      destruct (decide (CanonicalMIMEHeaderKey k0 = c)) as [E|E].
      * rewrite E, lookup_insert_eq. f_equal.
        apply (Hu k0 v0); [apply elem_of_cons; auto | exact E].
      * rewrite lookup_insert_ne by exact E. exact Hh.
Qed.

(** An entry whose canonical name no other entry shares is sent with its
    value. *)
Lemma Header_Set_all_lookup_unique order : forall h k v,
  (k, v) ∈ order ->
  (forall k' v', (k', v') ∈ order ->
     CanonicalMIMEHeaderKey k' = CanonicalMIMEHeaderKey k -> v' = v) ->
  Header_Set_all order h !! CanonicalMIMEHeaderKey k = Some v.
Proof.
  induction order as [|[k0 v0] order IH]; intros h k v Hin Hu.
  - inversion Hin.
  - rewrite Header_Set_all_cons. apply elem_of_cons in Hin. destruct Hin as [E|Hin].
    + inversion E; subst k0 v0. apply Header_Set_all_keeps.
      * intros k' v' Hin'. apply Hu. apply elem_of_cons. auto.
      * unfold Header_Set. apply lookup_insert_eq.
    + apply IH; [exact Hin|]. intros k' v' Hin'. apply Hu. apply elem_of_cons. auto.
Qed.

Lemma Header_Set_all_lookup_other order : forall h c,
  (forall k v, (k, v) ∈ order -> CanonicalMIMEHeaderKey k <> c) ->
  Header_Set_all order h !! c = h !! c.
Proof.
  induction order as [|[k0 v0] order IH]; intros h c Hn.
  - reflexivity.
  - rewrite Header_Set_all_cons, IH.
    + unfold Header_Set. apply lookup_insert_ne. apply (Hn k0 v0). apply elem_of_cons. auto.
    + intros k v Hin. apply (Hn k v). apply elem_of_cons. auto.
Qed.

Lemma ranges_over_elem_of order (m : gmap string string) k v :
  ranges_over order m -> (k, v) ∈ order <-> m !! k = Some v.
Proof.
  unfold ranges_over. intros H. rewrite H. apply elem_of_map_to_list.
Qed.

(** With custom headers whose names are canonical the loop leaves the
    custom headers as they are. *)
Lemma Header_Set_all_canonical order (m : gmap string string) :
  ranges_over order m ->
  (forall k, is_Some (m !! k) -> CanonicalMIMEHeaderKey k = k) ->
  Header_Set_all order ∅ = m.
Proof.
  intros Ho Hc. apply map_eq. intros c.
  destruct (m !! c) as [v|] eqn:E.
  - rewrite <- (Hc c) by eauto.
    apply Header_Set_all_lookup_unique.
    + apply (ranges_over_elem_of order m); assumption.
    + intros k' v' Hin He. apply (ranges_over_elem_of order m) in Hin; [|exact Ho].
      rewrite (Hc k'), (Hc c) in He by eauto. subst k'. congruence.
  - rewrite Header_Set_all_lookup_other; [apply lookup_empty|].
    intros k v Hin He. apply (ranges_over_elem_of order m) in Hin; [|exact Ho].
    rewrite (Hc k) in He by eauto. subst k. congruence.
Qed.

(** The headers a request carries after the loop over the custom headers
    and the cookie, but for the name [Range]. *)
Lemma custom_headers_sent order (d : Downloader) (h : gmap string string) :
  ranges_over order (Headers (dHeaders d)) ->
  h = (if negb (String.eqb (Cookies (dHeaders d)) "")
       then Header_Set "Cookie" (Cookies (dHeaders d)) (Header_Set_all order ∅)
       else Header_Set_all order ∅) ->
  (Cookies (dHeaders d) <> "" -> h !! "Cookie" = Some (Cookies (dHeaders d))) /\
  (forall c v, c <> "Cookie" \/ Cookies (dHeaders d) = "" ->
     h !! c = Some v ->
     exists k, CanonicalMIMEHeaderKey k = c /\ Headers (dHeaders d) !! k = Some v) /\
  (forall k v, Headers (dHeaders d) !! k = Some v ->
     CanonicalMIMEHeaderKey k <> "Cookie" \/ Cookies (dHeaders d) = "" ->
     (forall k', is_Some (Headers (dHeaders d) !! k') ->
        CanonicalMIMEHeaderKey k' = CanonicalMIMEHeaderKey k -> k' = k) ->
     h !! CanonicalMIMEHeaderKey k = Some v) /\
  (forall c, c <> "Cookie" \/ Cookies (dHeaders d) = "" ->
     (forall k, is_Some (Headers (dHeaders d) !! k) -> CanonicalMIMEHeaderKey k <> c) ->
     h !! c = None).
Proof.
  intros Ho ->.
  assert (Hck : CanonicalMIMEHeaderKey "Cookie" = "Cookie") by reflexivity.
  assert (Hskip : forall c, c <> "Cookie" \/ Cookies (dHeaders d) = "" ->
            (if negb (String.eqb (Cookies (dHeaders d)) "")
             then Header_Set "Cookie" (Cookies (dHeaders d)) (Header_Set_all order ∅)
             else Header_Set_all order ∅) !! c
            = Header_Set_all order ∅ !! c).
  { intros c Hc. destruct (String.eqb_spec (Cookies (dHeaders d)) "") as [E|E]; cbn [negb].
    - reflexivity.
    - destruct Hc as [Hc|Hc]; [|contradiction].
      unfold Header_Set. rewrite Hck. apply lookup_insert_ne. congruence. }
  split.
  { intros Hne. destruct (String.eqb_spec (Cookies (dHeaders d)) "") as [E|E]; cbn [negb].
    - contradiction.
    - unfold Header_Set. rewrite Hck. apply lookup_insert_eq. }
  split.
  { intros c v Hc H. rewrite (Hskip c Hc) in H.
    apply Header_Set_all_lookup_Some in H. destruct H as [H|(k & Hk & Hin)].
    - rewrite lookup_empty in H. discriminate.
    - exists k. split; [exact Hk|]. apply (ranges_over_elem_of order _ k v Ho). exact Hin. }
  split.
  { intros k v Hk Hc Hu. rewrite (Hskip _ Hc).
    apply Header_Set_all_lookup_unique.
    - apply (ranges_over_elem_of order _ k v Ho). exact Hk.
    - intros k' v' Hin He. apply (ranges_over_elem_of order _ k' v' Ho) in Hin.
      rewrite (Hu k') in Hin by eauto. congruence. }
  intros c Hc Hn. rewrite (Hskip c Hc).
  rewrite Header_Set_all_lookup_other; [apply lookup_empty|].
  intros k v Hin. apply Hn. apply (ranges_over_elem_of order _ k v Ho) in Hin. eauto.
Qed.

(** X18. The request downloadSingleChunk builds for a chunk is a GET to the
    URL of the job whose Range header is always the range of the chunk,
    whatever the custom headers hold and in whatever order the loop meets
    them: [Header.Set] stores every name in canonical form, so a custom
    [range] or [Range] is overwritten.  The cookie string, when there is
    one, is the Cookie header.  Every other header of the request is a
    custom header under its canonical name, and a custom header whose
    canonical name no other one shares is sent with its value.  When the
    names of the custom headers are canonical, the request is
    [chunkRequest]. *)
Theorem chunkRequest_headers (order : list (string * string)) (d : Downloader)
    (startByte endByte : Z) :
  ranges_over order (Headers (dHeaders d)) ->
  let req := chunkRequest_in_order order d startByte endByte in
  reqMethod req = "GET" /\ reqURL req = Url d /\
  reqHeader req !! "Range"
  = Some (String.append "bytes="
            (String.append (fmt_d startByte) (String.append "-" (fmt_d endByte)))) /\
  (Cookies (dHeaders d) <> "" ->
   reqHeader req !! "Cookie" = Some (Cookies (dHeaders d))) /\
  (forall c v, c <> "Range" -> c <> "Cookie" \/ Cookies (dHeaders d) = "" ->
     reqHeader req !! c = Some v ->
     exists k, CanonicalMIMEHeaderKey k = c /\ Headers (dHeaders d) !! k = Some v) /\
  (forall k v, Headers (dHeaders d) !! k = Some v ->
     CanonicalMIMEHeaderKey k <> "Range" ->
     CanonicalMIMEHeaderKey k <> "Cookie" \/ Cookies (dHeaders d) = "" ->
     (forall k', is_Some (Headers (dHeaders d) !! k') ->
        CanonicalMIMEHeaderKey k' = CanonicalMIMEHeaderKey k -> k' = k) ->
     reqHeader req !! CanonicalMIMEHeaderKey k = Some v) /\
  ((forall k, is_Some (Headers (dHeaders d) !! k) -> CanonicalMIMEHeaderKey k = k) ->
   req = chunkRequest d startByte endByte).
Proof.
  intros Ho. cbv zeta. unfold chunkRequest_in_order; cbn [reqMethod reqURL reqHeader].
  assert (Hrg : CanonicalMIMEHeaderKey "Range" = "Range") by reflexivity.
  assert (Hck : CanonicalMIMEHeaderKey "Cookie" = "Cookie") by reflexivity.
  destruct (custom_headers_sent order d _ Ho eq_refl) as (C1 & C2 & C3 & _).
  split; [reflexivity|]. split; [reflexivity|].
  split; [unfold Header_Set at 1; rewrite Hrg; apply lookup_insert_eq|].
  split.
  { intros Hne. unfold Header_Set at 1. rewrite Hrg.
    rewrite lookup_insert_ne by discriminate. apply C1. exact Hne. }
  split.
  { intros c v Hc1 Hc2. unfold Header_Set at 1. rewrite Hrg.
    rewrite lookup_insert_ne by congruence. apply C2. exact Hc2. }
  split.
  { intros k v Hk Hn1 Hn2 Hu. unfold Header_Set at 1. rewrite Hrg.
    rewrite lookup_insert_ne by congruence. apply C3; assumption. }
  intros Hcanon. unfold chunkRequest. f_equal.
  rewrite (Header_Set_all_canonical order _ Ho Hcanon).
  unfold Header_Set. rewrite Hrg, Hck. reflexivity.
Qed.

Lemma chunkRequest_headers_witness :
  let d := {| Url := "http://origin/file.bin";
              fileInfo := {| Dir := "/dl"; Name := "file.bin";
                             FullPath := "/dl/file.bin" |};
              Prefs := {| DownloadDir := "/dl"; fileName := ""; threadCount := 2;
                          maxRetries := 3 |};
              dHeaders := {| Cookies := "";
                             Headers := {["range" := "bytes=0-0"; "x-token" := "t"]} |};
              ServerHeaders := {| Filename := "file.bin"; Filesize := 8; Filetype := "";
                                  AcceptsRanges := true;
                                  FinalURL := "http://origin/file.bin" |};
              Chunks := []; dChunkManager := None; isPaused := false;
              Status := DOWNLOAD_IN_PROGRESS; Error := None |} in
  let req := chunkRequest_in_order (map_to_list (Headers (dHeaders d))) d 4 7 in
  reqHeader req !! "Range" = Some "bytes=4-7" /\
  reqHeader req !! "range" = None /\
  reqHeader req !! "X-Token" = Some "t".
Proof.
  cbv zeta.
  match goal with
  | |- context [chunkRequest_in_order ?o ?d 4 7] =>
      destruct (chunkRequest_headers o d 4 7) as (_ & _ & H1 & _ & H2 & H3 & _)
  end.
  - unfold ranges_over. reflexivity.
  - split; [exact H1|]. split.
    + match goal with |- ?x = None => destruct x as [v|] eqn:E; [|reflexivity] end.
      apply H2 in E; [|discriminate|right; reflexivity].
      destruct E as (k & Hk & Hl). exfalso.
      apply elem_of_map_to_list in Hl. vm_compute in Hl.
      repeat (apply elem_of_cons in Hl; destruct Hl as [Hl|Hl];
              [inversion Hl; subst k; vm_compute in Hk; discriminate|]).
      inversion Hl.
    + apply (H3 "x-token" "t"); [reflexivity | vm_compute; discriminate |
                                  right; reflexivity |].
      intros k' [v' Hl] Hk. apply elem_of_map_to_list in Hl. vm_compute in Hl.
      repeat (apply elem_of_cons in Hl; destruct Hl as [Hl|Hl];
              [inversion Hl; subst k'; first [reflexivity | vm_compute in Hk; discriminate]|]).
      inversion Hl.
Defined.

(** X19. The single-stream downloader resumes only from a server that
    accepts ranges: the resume offset is the size of the file already at
    the output path if the server accepts ranges and 0 otherwise, and
    finding it changes nothing.  With a positive offset the request asks
    for the bytes from the offset on, whatever the custom headers hold,
    and the output file is opened with its bytes kept.  With offset 0 the
    request has a Range header only if a custom header has [Range] as its
    canonical name ([range], say), with the value of such a header, and
    opening the output file empties it. *)
Theorem single_stream_resume (order : list (string * string)) (w : World) :
  ranges_over order (Headers (dHeaders (dl w))) ->
  let p := FullPath (fileInfo (dl w)) in
  let off :=
    if AcceptsRanges (ServerHeaders (dl w))
    then Z.of_nat (length (default [] (fs w !! p))) else 0 in
  let req := singleStreamRequest order (dl w) off in
  detectResumeOffset w = (Returns (off, None), w) /\
  0 <= off /\
  (if off >? 0
   then reqHeader req !! "Range"
        = Some (String.append "bytes=" (String.append (fmt_d off) "-"))
   else (forall v, reqHeader req !! "Range" = Some v ->
           exists k, CanonicalMIMEHeaderKey k = "Range" /\
                     Headers (dHeaders (dl w)) !! k = Some v) /\
        (forall k v, Headers (dHeaders (dl w)) !! k = Some v ->
           CanonicalMIMEHeaderKey k = "Range" ->
           (forall k', is_Some (Headers (dHeaders (dl w)) !! k') ->
              CanonicalMIMEHeaderKey k' = "Range" -> k' = k) ->
           reqHeader req !! "Range" = Some v) /\
        ((forall k, is_Some (Headers (dHeaders (dl w)) !! k) ->
            CanonicalMIMEHeaderKey k <> "Range") ->
         reqHeader req !! "Range" = None)) /\
  fst (openOutputFile off w) = Returns None /\
  dl (snd (openOutputFile off w)) = dl w /\
  fs (snd (openOutputFile off w)) !! p
  = (if off >? 0 then fs w !! p else Some []).
Proof.
  intros Ho p off req.
  assert (Hoff : 0 <= off) by (unfold off; destruct (AcceptsRanges _); lia).
  split.
  { unfold detectResumeOffset, FileExists, os_Stat_Size, bind, get, ret, off.
    fold p. destruct (fs w !! p) as [c|] eqn:E; simpl.
    - rewrite ?E. simpl. destruct (AcceptsRanges _); reflexivity.
    - destruct (AcceptsRanges _); reflexivity. }
  split; [exact Hoff|].
  split.
  { unfold req, singleStreamRequest; cbn [reqHeader].
    assert (Hrg : CanonicalMIMEHeaderKey "Range" = "Range") by reflexivity.
    destruct (custom_headers_sent order (dl w) _ Ho eq_refl) as (_ & C2 & C3 & C4).
    destruct (off >? 0) eqn:Epos; cbn [andb].
    - assert (AcceptsRanges (ServerHeaders (dl w)) = true) as ->.
      { unfold off in Epos. destruct (AcceptsRanges _); [reflexivity|discriminate]. }
      unfold Header_Set at 1. rewrite Hrg. apply lookup_insert_eq.
    - split; [|split].
      + intros v Hv. apply (C2 "Range" v); [left; discriminate | exact Hv].
      + intros k v Hk Hc Hu. rewrite <- Hc. apply C3.
        * exact Hk.
        * left. rewrite Hc. discriminate.
        * intros k' Hs He. apply Hu; [exact Hs | congruence].
      + intros Hn. apply C4; [left; discriminate | exact Hn]. }
  unfold openOutputFile, os_Open, os_Create, set_fs, bind, get, ret. fold p.
  destruct (off >? 0) eqn:Epos; simpl.
  - destruct (fs w !! p) eqn:E; [auto|].
    exfalso. unfold off in Epos. simpl in Epos.
    destruct (AcceptsRanges _); discriminate.
  - split; [reflexivity|]. split; [reflexivity|]. apply lookup_insert_eq.
Qed.

Lemma single_stream_resume_witness :
  let w := {| dl := big_job; fs := {["/dl/big.iso" := [Byte.x01; Byte.x02]]};
              ticks := 0; requests := 0; totalCompletedBytes := 0; events := [] |} in
  detectResumeOffset w = (Returns (2, None), w) /\
  reqHeader (singleStreamRequest [] big_job 2) !! "Range" = Some "bytes=2-" /\
  fs (snd (openOutputFile 2 w)) !! "/dl/big.iso" = Some [Byte.x01; Byte.x02].
Proof.
  cbv zeta.
  match goal with
  | |- detectResumeOffset ?w = _ /\ _ =>
      destruct (single_stream_resume [] w) as (H1 & _ & H2 & _ & _ & H3)
  end.
  - unfold ranges_over. reflexivity.
  - split; [exact H1|]. split; [exact H2 | exact H3].
Defined.

(** ** Chunk files *)

Lemma create_all_lookup names : forall (m : gmap string (list byte)) p,
  create_all names m !! p = if decide (p ∈ names) then Some [] else m !! p.
Proof.
  induction names as [|n names IH]; intros m p; simpl.
  - destruct (decide (p ∈ [])) as [H|H]; [inversion H | reflexivity].
  - rewrite IH.
    destruct (decide (p ∈ names)) as [Hin|Hnin].
    + rewrite decide_True by (apply elem_of_cons; auto). reflexivity.
    + destruct (decide (p = n)) as [->|Hne].
      * rewrite decide_True by (apply elem_of_cons; auto). apply lookup_insert_eq.
      * rewrite decide_False by (rewrite elem_of_cons; tauto).
        apply lookup_insert_ne. congruence.
Qed.

Lemma GenerateChunkFiles_loop_run names : forall i w,
  GenerateChunkFiles_loop i names w
  = (Returns None,
     {| dl := dl w; fs := create_all names (fs w); ticks := ticks w;
        requests := requests w; totalCompletedBytes := totalCompletedBytes w;
        events := events w |}).
Proof.
  induction names as [|n names IH]; intros i w.
  - destruct w; reflexivity.
  - cbn [GenerateChunkFiles_loop]. unfold bind at 1.
    unfold CreateFile, os_Create, set_fs, bind, ret. rewrite IH. reflexivity.
Qed.

(** X20. GenerateChunkFiles leaves every chunk file empty, whatever it
    held before, and touches nothing else; so the worker that looks for a
    resume offset in such a file afterwards finds 0: a multi-stream job
    never resumes from the chunk files of an earlier run. *)
Theorem GenerateChunkFiles_truncates (chunkFileNames : list string) (w : World)
    (p : string) (size : Z) :
  p ∈ chunkFileNames -> 0 <= size ->
  exists w',
    GenerateChunkFiles chunkFileNames w = (Returns None, w') /\
    fs w' !! p = Some [] /\
    (forall q, q ∉ chunkFileNames -> fs w' !! q = fs w !! q) /\
    dl w' = dl w /\ events w' = events w /\
    detectChunkResumeOffset p size w' = (Returns (0, None), w').
Proof.
  intros Hp Hsize. unfold GenerateChunkFiles. rewrite GenerateChunkFiles_loop_run.
  eexists. split; [reflexivity|]. cbn [fs dl events].
  assert (Hl : create_all chunkFileNames (fs w) !! p = Some []).
  { rewrite create_all_lookup, decide_True by exact Hp. reflexivity. }
  split; [exact Hl|].
  split; [intros q Hq; rewrite create_all_lookup, decide_False by exact Hq; reflexivity|].
  split; [reflexivity|]. split; [reflexivity|].
  rewrite detectChunkResumeOffset_run. unfold resumeOffset. cbn [fs].
  rewrite Hl. cbn [length]. change (Z.of_nat 0) with 0.
  destruct (Z.geb_spec 0 size); [|reflexivity].
  replace size with 0 by lia. reflexivity.
Qed.

Lemma GenerateChunkFiles_truncates_witness :
  exists w',
    GenerateChunkFiles ["/dl/a (0).udtemp"; "/dl/a (1).udtemp"]
      {| dl := big_job; fs := {["/dl/a (1).udtemp" := [Byte.x01; Byte.x02]]};
         ticks := 0; requests := 0; totalCompletedBytes := 0; events := [] |}
    = (Returns None, w') /\
    fs w' !! "/dl/a (1).udtemp" = Some [] /\
    detectChunkResumeOffset "/dl/a (1).udtemp" 2 w' = (Returns (0, None), w').
Proof.
  destruct (GenerateChunkFiles_truncates ["/dl/a (0).udtemp"; "/dl/a (1).udtemp"]
              {| dl := big_job; fs := {["/dl/a (1).udtemp" := [Byte.x01; Byte.x02]]};
                 ticks := 0; requests := 0; totalCompletedBytes := 0; events := [] |}
              "/dl/a (1).udtemp" 2) as (w' & H1 & H2 & _ & _ & _ & H3).
  - apply elem_of_cons. right. apply elem_of_cons. left. reflexivity.
  - lia.
  - exists w'. auto.
Defined.

Section MergeProofs.

Variable outputFilePath : string.

Lemma contents_of_cons n names (m : gmap string (list byte)) :
  contents_of (n :: names) m = default [] (m !! n) ++ contents_of names m.
Proof. reflexivity. Qed.

Lemma contents_of_agree names (m1 m2 : gmap string (list byte)) :
  (forall p, p ∈ names -> m1 !! p = m2 !! p) ->
  contents_of names m1 = contents_of names m2.
Proof.
  induction names as [|n names IH]; intros H; [reflexivity|].
  rewrite !contents_of_cons. rewrite (H n) by (apply elem_of_cons; auto).
  rewrite IH; [reflexivity|]. intros p Hp. apply H. apply elem_of_cons. auto.
Qed.

(** The loop of MergeChunkFiles over chunk files that are all there: their
    contents go to the end of the output file, in order, and they are
    removed. *)
Lemma MergeChunkFiles_loop_app pre : forall i w acc rest,
  NoDup pre -> outputFilePath ∉ pre ->
  (forall p, p ∈ pre -> is_Some (fs w !! p)) ->
  fs w !! outputFilePath = Some acc ->
  MergeChunkFiles_loop i (pre ++ rest) outputFilePath w
  = MergeChunkFiles_loop (i + Z.of_nat (length pre)) rest outputFilePath
      {| dl := dl w;
         fs := <[outputFilePath := acc ++ contents_of pre (fs w)]> (remove_all pre (fs w));
         ticks := ticks w; requests := requests w;
         totalCompletedBytes := totalCompletedBytes w; events := events w |}.
Proof.
  induction pre as [|p pre IH]; intros i w acc rest Hnd Hout Hall Hacc.
  - simpl. rewrite Z.add_0_r. f_equal. destruct w; simpl in *. f_equal.
    unfold contents_of. simpl. rewrite app_nil_r. symmetry. apply insert_id. exact Hacc.
  - apply NoDup_cons in Hnd as [Hp Hnd].
    apply not_elem_of_cons in Hout as [Hop Hout].
    destruct (Hall p) as [c Hc]; [apply elem_of_cons; auto|].
    cbn [app MergeChunkFiles_loop]. unfold bind at 1. unfold get at 1. cbv beta iota.
    rewrite Hc. unfold bind at 1. unfold file_Write, set_fs. cbv beta iota.
    unfold bind at 1. unfold os_Remove, bind, get. cbn [fs].
    rewrite lookup_insert_ne by congruence. rewrite Hc. cbn [set_fs ret].
    unfold set_fs, ret. cbv beta iota. cbn [dl fs ticks requests totalCompletedBytes events].
    rewrite Hacc. cbn [default].
    rewrite (IH _ _ (acc ++ c)); cbn [dl fs ticks requests totalCompletedBytes events].
    + replace (i + Z.of_nat (length (p :: pre))) with (i + 1 + Z.of_nat (length pre))
        by (cbn [length]; lia).
      unfold id. f_equal. f_equal.
      assert (Hco : contents_of pre (delete p (<[outputFilePath := acc ++ c]> (fs w)))
                    = contents_of pre (fs w)).
      { apply contents_of_agree. intros q Hq.
        rewrite lookup_delete_ne by (intros ->; contradiction).
        apply lookup_insert_ne. intros ->. contradiction. }
      rewrite Hco, contents_of_cons, Hc. cbn [default].
      rewrite <- app_assoc.
      apply map_eq. intros k.
      destruct (decide (k = outputFilePath)) as [->|Hk].
      * rewrite !lookup_insert_eq. reflexivity.
      * rewrite !lookup_insert_ne by congruence.
        cbn [remove_all foldl]. fold (remove_all pre (delete p (fs w))).
        rewrite !remove_all_lookup.
        destruct (decide (k ∈ pre)); [reflexivity|].
        destruct (decide (k = p)) as [->|Hkp].
        -- rewrite !lookup_delete_eq. reflexivity.
        -- rewrite !lookup_delete_ne by congruence.
           apply lookup_insert_ne. congruence.
    + exact Hnd.
    + exact Hout.
    + intros q Hq. rewrite lookup_delete_ne by (intros ->; contradiction).
      rewrite lookup_insert_ne by (intros ->; contradiction).
      apply Hall. apply elem_of_cons. auto.
    + rewrite lookup_delete_ne by congruence. apply lookup_insert_eq.
Qed.

(** X21. MergeChunkFiles over distinct chunk files that all exist, none of
    them the output file, returns nil and leaves the output file holding
    the contents of the chunk files in order, whatever it held before; the
    chunk files are gone and no other file is touched. *)
Theorem MergeChunkFiles_concatenates (chunkFileNames : list string) (w : World) :
  NoDup chunkFileNames -> outputFilePath ∉ chunkFileNames ->
  (forall p, p ∈ chunkFileNames -> is_Some (fs w !! p)) ->
  MergeChunkFiles chunkFileNames outputFilePath w
  = (Returns None,
     {| dl := dl w;
        fs := <[outputFilePath := contents_of chunkFileNames (fs w)]>
                (remove_all chunkFileNames (fs w));
        ticks := ticks w; requests := requests w;
        totalCompletedBytes := totalCompletedBytes w; events := events w |}).
Proof.
  intros Hnd Hout Hall.
  unfold MergeChunkFiles, CreateFile, os_Create, os_Open, set_fs, bind, get, ret.
  cbn [fs]. rewrite lookup_insert_eq.
  rewrite <- (app_nil_r chunkFileNames) at 1.
  rewrite (MergeChunkFiles_loop_app chunkFileNames 0 _ [] []);
    cbn [dl fs ticks requests totalCompletedBytes events].
  - cbn [MergeChunkFiles_loop ret]. unfold ret. f_equal. f_equal.
    rewrite (contents_of_agree chunkFileNames _ (fs w)).
    + cbn [app]. apply map_eq. intros k.
      destruct (decide (k = outputFilePath)) as [->|Hk].
      * rewrite !lookup_insert_eq. reflexivity.
      * rewrite !lookup_insert_ne by congruence. rewrite !remove_all_lookup.
        destruct (decide (k ∈ chunkFileNames)); [reflexivity|].
        apply lookup_insert_ne. congruence.
    + intros p Hp. apply lookup_insert_ne. intros ->. contradiction.
  - exact Hnd.
  - exact Hout.
  - intros p Hp. rewrite lookup_insert_ne by (intros ->; contradiction). auto.
  - apply lookup_insert_eq.
Qed.

(** X22. MergeChunkFiles that comes to a chunk file that is missing stops
    there with an error that gives its index and path and the text of the
    failed [os.Open]: by then the chunk files before it have been appended
    to the output file and removed, so the output file holds only their
    bytes, and the chunk files after it are left as they were. *)
Theorem MergeChunkFiles_missing_chunk (pre post : list string) (p : string) (w : World) :
  NoDup pre -> outputFilePath ∉ pre -> p ∉ pre -> p <> outputFilePath ->
  (forall q, q ∈ pre -> is_Some (fs w !! q)) ->
  fs w !! p = None ->
  MergeChunkFiles (pre ++ p :: post) outputFilePath w
  = (Returns (Some (ErrorString
       (String.append "failed to open chunk file "
          (String.append (fmt_d (Z.of_nat (length pre))) (String.append " ("
             (String.append p
                (String.append "): " (Error_string (PathError "open" p))))))))),
     {| dl := dl w;
        fs := <[outputFilePath := contents_of pre (fs w)]> (remove_all pre (fs w));
        ticks := ticks w; requests := requests w;
        totalCompletedBytes := totalCompletedBytes w; events := events w |}).
Proof.
  intros Hnd Hout Hp Hpo Hall Hmiss.
  unfold MergeChunkFiles, CreateFile, os_Create, os_Open, set_fs, bind, get, ret.
  cbn [fs]. rewrite lookup_insert_eq.
  rewrite (MergeChunkFiles_loop_app pre 0 _ [] (p :: post));
    cbn [dl fs ticks requests totalCompletedBytes events].
  - cbn [MergeChunkFiles_loop]. unfold bind, get, ret.
    cbn [dl fs ticks requests totalCompletedBytes events].
    assert (Hfs : <[outputFilePath := [] ++ contents_of pre (<[outputFilePath := []]> (fs w))]>
                    (remove_all pre (<[outputFilePath := []]> (fs w)))
                  = <[outputFilePath := contents_of pre (fs w)]> (remove_all pre (fs w))).
    { rewrite (contents_of_agree pre _ (fs w)).
      - cbn [app]. apply map_eq. intros k.
        destruct (decide (k = outputFilePath)) as [->|Hk].
        + rewrite !lookup_insert_eq. reflexivity.
        + rewrite !lookup_insert_ne by congruence. rewrite !remove_all_lookup.
          destruct (decide (k ∈ pre)); [reflexivity|].
          apply lookup_insert_ne. congruence.
      - intros q Hq. apply lookup_insert_ne. intros ->. contradiction. }
    rewrite Hfs.
    rewrite lookup_insert_ne by congruence.
    rewrite remove_all_lookup, decide_False by exact Hp. rewrite Hmiss.
    rewrite Z.add_0_l. reflexivity.
  - exact Hnd.
  - exact Hout.
  - intros q Hq. rewrite lookup_insert_ne by (intros ->; contradiction). auto.
  - apply lookup_insert_eq.
Qed.

End MergeProofs.

Lemma MergeChunkFiles_concatenates_witness :
  fs (snd (MergeChunkFiles ["/dl/a (0).udtemp"; "/dl/a (1).udtemp"] "/dl/a"
             {| dl := big_job;
                fs := {["/dl/a (0).udtemp" := [Byte.x01; Byte.x02];
                        "/dl/a (1).udtemp" := [Byte.x03];
                        "/dl/a" := [Byte.xff]]};
                ticks := 0; requests := 0; totalCompletedBytes := 0; events := [] |}))
  !! "/dl/a" = Some [Byte.x01; Byte.x02; Byte.x03].
Proof.
  rewrite (MergeChunkFiles_concatenates "/dl/a" ["/dl/a (0).udtemp"; "/dl/a (1).udtemp"]).
  - reflexivity.
  - apply (bool_decide_unpack _). vm_compute. exact I.
  - apply (bool_decide_unpack _). vm_compute. exact I.
  - apply Forall_forall. repeat constructor; eexists; reflexivity.
Defined.

Lemma MergeChunkFiles_missing_chunk_witness :
  let r :=
    MergeChunkFiles ["/dl/a (0).udtemp"; "/dl/a (1).udtemp"; "/dl/a (2).udtemp"] "/dl/a"
      {| dl := big_job;
         fs := {["/dl/a (0).udtemp" := [Byte.x01; Byte.x02];
                 "/dl/a (2).udtemp" := [Byte.x03]]};
         ticks := 0; requests := 0; totalCompletedBytes := 0; events := [] |} in
  fst r = Returns (Some (ErrorString
    "failed to open chunk file 1 (/dl/a (1).udtemp): open /dl/a (1).udtemp: no such file or directory")) /\
  fs (snd r) !! "/dl/a" = Some [Byte.x01; Byte.x02] /\
  fs (snd r) !! "/dl/a (0).udtemp" = None /\
  fs (snd r) !! "/dl/a (2).udtemp" = Some [Byte.x03].
Proof.
  cbv zeta.
  rewrite (MergeChunkFiles_missing_chunk "/dl/a" ["/dl/a (0).udtemp"]
             ["/dl/a (2).udtemp"] "/dl/a (1).udtemp").
  - repeat split; reflexivity.
  - apply (bool_decide_unpack _). vm_compute. exact I.
  - apply (bool_decide_unpack _). vm_compute. exact I.
  - apply (bool_decide_unpack _). vm_compute. exact I.
  - discriminate.
  - apply Forall_forall. repeat constructor; eexists; reflexivity.
  - reflexivity.
Defined.

(** ** The chunk worker *)

(** With a writer that never fails the loop is downloadChunkWithProgress. *)
Lemma downloadChunkWithProgress_on_reliable ctx idx file expected reader :
  forall tw w,
    downloadChunkWithProgress_on ctx idx reader file [] expected tw w
    = downloadChunkWithProgress ctx idx reader file expected tw w.
Proof.
  induction reader as [|[data err] rest IH]; intros tw w;
    cbn [downloadChunkWithProgress_on downloadChunkWithProgress].
  - reflexivity.
  - destruct (tw <? expected); [|reflexivity].
    cbn [head tail default file_Write_result].
    unfold checkPauseState, ctx_Done, tick, file_Write, atomic_AddInt64, set_fs, emit, block.
    unfold bind, get, ret.
    destruct (isPaused (dl w)); [reflexivity|].
    cbn [dl fs ticks requests totalCompletedBytes events].
    destruct (ctx (ticks w)); [reflexivity|].
    destruct (Z.of_nat (length data) >? 0);
      (destruct err as [e|]; [destruct e; reflexivity|]); apply IH.
Qed.

(** X23. However the loop of downloadChunkWithProgress ends (end of the
    body, a failed read, a failed write, cancellation, or waiting on a
    pause), the chunk file holds what it held, then the bytes the loop has
    counted, then what a failed write left: the counted bytes are exactly
    those added to the shared counter and to the count the loop returns,
    and bytes that are in the file but not counted are there only when the
    loop ends on a failed write.  The loop touches no other file and
    leaves the downloader alone. *)
Theorem downloadChunkWithProgress_accounting ctx idx file expected reader :
  forall writes tw w old,
    fs w !! file = Some old ->
    Int64.in_range tw -> Int64.in_range (totalCompletedBytes w) ->
    exists counted uncounted,
      let r := downloadChunkWithProgress_on ctx idx reader file writes expected tw w in
      fs (snd r) !! file = Some (old ++ counted ++ uncounted) /\
      (forall q, q <> file -> fs (snd r) !! q = fs w !! q) /\
      totalCompletedBytes (snd r)
      = Int64.wrap (totalCompletedBytes w + Z.of_nat (length counted)) /\
      dl (snd r) = dl w /\
      (forall tw' e, fst r = Returns (tw', e) ->
         tw' = Int64.wrap (tw + Z.of_nat (length counted))) /\
      (uncounted <> [] ->
       exists e,
         fst r = Returns (Int64.wrap (tw + Z.of_nat (length counted)),
                          Some (ErrorString
                                  (String.append "failed to write chunk data: "
                                     (Error_string e))))).
Proof.
  set (P := fun (tw : Z) (w : World) (old : list byte)
                (r : Run (Z * option error)) (w' : World) =>
         exists counted uncounted,
           fs w' !! file = Some (old ++ counted ++ uncounted) /\
           (forall q, q <> file -> fs w' !! q = fs w !! q) /\
           totalCompletedBytes w'
           = Int64.wrap (totalCompletedBytes w + Z.of_nat (length counted)) /\
           dl w' = dl w /\
           (forall tw' e, r = Returns (tw', e) ->
              tw' = Int64.wrap (tw + Z.of_nat (length counted))) /\
           (uncounted <> [] ->
            exists e,
              r = Returns (Int64.wrap (tw + Z.of_nat (length counted)),
                           Some (ErrorString
                                   (String.append "failed to write chunk data: "
                                      (Error_string e)))))).
  assert (Hstop : forall tw w old r w',
            fs w !! file = Some old ->
            Int64.in_range tw -> Int64.in_range (totalCompletedBytes w) ->
            (forall tw' e, r = Returns (tw', e) -> tw' = tw) ->
            fs w' = fs w -> totalCompletedBytes w' = totalCompletedBytes w ->
            dl w' = dl w ->
            P tw w old r w').
  { intros tw w old r w' Hold Htw Htcb Hr Hfs Hc Hd. exists [], []. cbn [length].
    change (Z.of_nat 0) with 0. rewrite !Z.add_0_r, !app_nil_r.
    rewrite !wrap_small by assumption. rewrite Hfs, Hc, Hd.
    split; [exact Hold|]. split; [reflexivity|]. split; [reflexivity|].
    split; [reflexivity|]. split; [exact Hr|]. intros H. contradiction. }
  assert (Hfail : forall tw w old e part w',
            fs w !! file = Some old ->
            Int64.in_range tw -> Int64.in_range (totalCompletedBytes w) ->
            fs w' = <[file := old ++ part]> (fs w) ->
            totalCompletedBytes w' = totalCompletedBytes w -> dl w' = dl w ->
            P tw w old
              (Returns (tw, Some (ErrorString
                                    (String.append "failed to write chunk data: "
                                       (Error_string e))))) w').
  { intros tw w old e part w' Hold Htw Htcb Hfs Hc Hd. exists [], part. cbn [length app].
    change (Z.of_nat 0) with 0. rewrite !Z.add_0_r.
    rewrite !wrap_small by assumption. rewrite Hfs, Hc, Hd.
    split; [apply lookup_insert_eq|].
    split; [intros q Hq; apply lookup_insert_ne; congruence|].
    split; [reflexivity|]. split; [reflexivity|].
    split; [intros tw' e' [= <- _]; reflexivity|]. intros _. exists e. reflexivity. }
  assert (Hstep : forall tw w old data w1 r w',
            fs w1 = <[file := old ++ data]> (fs w) ->
            totalCompletedBytes w1
            = Int64.wrap (totalCompletedBytes w + Z.of_nat (length data)) ->
            dl w1 = dl w ->
            P (Int64.wrap (tw + Z.of_nat (length data))) w1 (old ++ data) r w' ->
            P tw w old r w').
  { intros tw w old data w1 r w' Hfs Hc Hd (counted & uncounted & H1 & H2 & H3 & H4 & H5 & H6).
    exists (data ++ counted), uncounted.
    rewrite length_app, Nat2Z.inj_add, !Z.add_assoc.
    rewrite Hfs in H2. rewrite Hc in H3. rewrite Hd in H4.
    rewrite wrap_add in H3, H5, H6.
    split; [rewrite <- !app_assoc in *; exact H1|].
    split; [intros q Hq; rewrite H2 by exact Hq; apply lookup_insert_ne; congruence|].
    split; [exact H3|]. split; [exact H4|]. split; [exact H5 | exact H6]. }
  assert (Hmain : forall writes tw w old,
            fs w !! file = Some old ->
            Int64.in_range tw -> Int64.in_range (totalCompletedBytes w) ->
            P tw w old
              (fst (downloadChunkWithProgress_on ctx idx reader file writes expected tw w))
              (snd (downloadChunkWithProgress_on ctx idx reader file writes expected tw w))).
  { induction reader as [|[data err] rest IH]; intros writes tw w old Hold Htw Htcb;
      cbn [downloadChunkWithProgress_on].
    - destruct (tw <? expected).
      + unfold checkPauseState, ctx_Done, tick, bind, get, ret, emit, block.
        destruct (isPaused (dl w)); cbn [fst snd].
        * apply Hstop; auto. discriminate.
        * destruct (ctx (ticks w)); cbn [fst snd]; apply Hstop; auto; congruence.
      + unfold ret. cbn [fst snd]. apply Hstop; auto. congruence.
    - destruct (tw <? expected).
      + unfold checkPauseState, ctx_Done, tick, bind, get, ret, emit, block.
        destruct (isPaused (dl w)); cbn [fst snd].
        * apply Hstop; auto. discriminate.
        * destruct (ctx (ticks w)); cbn [fst snd]; [apply Hstop; auto; congruence|].
          destruct (Z.of_nat (length data) >? 0) eqn:Hn.
          -- destruct (default None (head writes)) as [[k e]|];
               cbn [file_Write_result]; unfold bind, file_Write, atomic_AddInt64, set_fs, ret;
               cbn [fst snd dl fs ticks requests totalCompletedBytes events];
               rewrite Hold; cbn [default].
             ++ eapply Hfail; eauto; reflexivity.
             ++ destruct err as [e|].
                ** destruct e; cbn [fst snd];
                     match goal with
                     | |- P _ _ _ _ ?W =>
                         apply (Hstep tw w old data W);
                           [reflexivity | reflexivity | reflexivity |];
                         apply Hstop;
                           [ cbn [fs]; apply lookup_insert_eq
                           | apply wrap_in_range
                           | cbn [totalCompletedBytes]; apply wrap_in_range
                           | congruence
                           | reflexivity | reflexivity | reflexivity ]
                     end.
                ** match goal with
                   | |- context [downloadChunkWithProgress_on _ _ _ _ _ _ _ ?W] =>
                       apply (Hstep tw w old data W);
                         [reflexivity | reflexivity | reflexivity |];
                       apply IH;
                         [ cbn [fs]; apply lookup_insert_eq
                         | apply wrap_in_range
                         | cbn [totalCompletedBytes]; apply wrap_in_range ]
                   end.
          -- destruct err as [e|].
             ++ destruct e; cbn [fst snd]; apply Hstop; auto; congruence.
             ++ match goal with
                | |- P tw w old
                       (fst (downloadChunkWithProgress_on _ _ _ _ _ _ _ ?w1)) _ =>
                    destruct (IH writes tw w1 old Hold Htw Htcb)
                      as (counted & uncounted & H1 & H2 & H3 & H4 & H5 & H6)
                end.
                exists counted, uncounted. auto 10.
      + unfold ret. cbn [fst snd]. apply Hstop; auto. congruence. }
  intros writes tw w old Hold Htw Htcb. exact (Hmain writes tw w old Hold Htw Htcb).
Qed.

Lemma downloadChunkWithProgress_accounting_witness :
  exists counted uncounted,
    let w :=
      {| dl := big_job; fs := {["/dl/a (0).udtemp" := [Byte.x00]]}; ticks := 0;
         requests := 0; totalCompletedBytes := 7; events := [] |} in
    let r :=
      downloadChunkWithProgress_on DownloadMultiStream_ctx 0
        [([Byte.x01; Byte.x02], None); ([Byte.x03; Byte.x04], None)]
        "/dl/a (0).udtemp" [None; Some (1%nat, ErrorString "no space left on device")]
        4 0 w in
    fs (snd r) !! "/dl/a (0).udtemp" = Some ([Byte.x00] ++ counted ++ uncounted) /\
    (forall q, q <> "/dl/a (0).udtemp" -> fs (snd r) !! q = fs w !! q) /\
    totalCompletedBytes (snd r) = Int64.wrap (7 + Z.of_nat (length counted)) /\
    dl (snd r) = big_job /\
    (forall tw' e, fst r = Returns (tw', e) ->
       tw' = Int64.wrap (0 + Z.of_nat (length counted))) /\
    (uncounted <> [] ->
     exists e,
       fst r = Returns (Int64.wrap (0 + Z.of_nat (length counted)),
                        Some (ErrorString
                                (String.append "failed to write chunk data: "
                                   (Error_string e))))).
Proof.
  apply (downloadChunkWithProgress_accounting DownloadMultiStream_ctx 0
           "/dl/a (0).udtemp" 4 [([Byte.x01; Byte.x02], None); ([Byte.x03; Byte.x04], None)]
           [None; Some (1%nat, ErrorString "no space left on device")] 0
           {| dl := big_job; fs := {["/dl/a (0).udtemp" := [Byte.x00]]}; ticks := 0;
              requests := 0; totalCompletedBytes := 7; events := [] |} [Byte.x00]).
  - reflexivity.
  - unfold Int64.in_range, Int64.min_int, Int64.max_int. lia.
  - unfold Int64.in_range, Int64.min_int, Int64.max_int. simpl. lia.
Defined.

(** A failed write leaves bytes in the chunk file that nothing has
    counted: the loop returns the count before the write. *)
Example failed_write_is_not_counted :
  let w :=
    {| dl := big_job; fs := {["/dl/a (0).udtemp" := []]}; ticks := 0;
       requests := 0; totalCompletedBytes := 0; events := [] |} in
  let r :=
    downloadChunkWithProgress_on DownloadMultiStream_ctx 0
      [([Byte.x01; Byte.x02], None); ([Byte.x03; Byte.x04], None)]
      "/dl/a (0).udtemp" [None; Some (1%nat, ErrorString "no space left on device")]
      4 0 w in
  fst r = Returns (2, Some (ErrorString
                     "failed to write chunk data: no space left on device")) /\
  fs (snd r) !! "/dl/a (0).udtemp" = Some [Byte.x01; Byte.x02; Byte.x03] /\
  totalCompletedBytes (snd r) = 2.
Proof. vm_compute. repeat split; reflexivity. Qed.

Section WorkerCases.

Context {lib : GoLib}.
Variable ctx : nat -> bool.
Variable chunk_Do : nat -> Request -> error + ChunkResponse.

(** X24. downloadSingleChunk takes nothing but 206 Partial Content: on any
    other status, 200 included, it returns an error naming the status
    after one request; the chunk file is neither opened nor created, no
    chunk is marked completed and only on-chunk-start has been raised. *)
Theorem downloadSingleChunk_rejects_status idx c file off w resp :
  http_NewRequest "GET" (Url (dl w)) = None ->
  chunk_Do (requests w) (chunkRequest (dl w) (Int64.wrap (Start c + off)) (End c))
  = inr resp ->
  respStatus resp <> 206 ->
  downloadSingleChunk ctx chunk_Do idx c file off w
  = (Returns (Some (ErrorString
               (String.append "unexpected status code: " (fmt_d (respStatus resp))))),
     {| dl := dl w; fs := fs w; ticks := ticks w; requests := S (requests w);
        totalCompletedBytes := totalCompletedBytes w;
        events := events w ++ [OnChunkStart idx (Start c) (End c)] |}).
Proof.
  intros Hreq Hdo Hst. unfold downloadSingleChunk, bind, emit, get, client_Do_chunk, ret.
  cbn [dl requests]. rewrite Hreq. cbn [dl requests]. rewrite Hdo.
  destruct (Z.eqb_spec (respStatus resp) 206); [contradiction|]. reflexivity.
Qed.

(** X25. A worker that finds its chunk file already holding the bytes of
    the chunk (or more) sends no request and leaves the file as it is: it
    adds the size of the chunk to the shared counter, marks the chunk
    completed, raises on-chunk-finish with that size and reports no
    error. *)
Theorem chunkWorker_skips_complete_chunk idx c c0 file content w :
  fs w !! file = Some content ->
  Size c <= Z.of_nat (length content) ->
  0 <= idx -> Chunks (dl w) !! Z.to_nat idx = Some c0 ->
  chunkWorker ctx chunk_Do idx c file w
  = (Returns None,
     {| dl := with_Chunks (<[Z.to_nat idx := complete c0]> (Chunks (dl w)))
                (dChunkManager (dl w)) (dl w);
        fs := fs w; ticks := ticks w; requests := requests w;
        totalCompletedBytes := Int64.wrap (totalCompletedBytes w + Size c);
        events := events w ++ [OnChunkFinish idx (Start c) (End c) (Size c)] |}).
Proof.
  intros Hf Hsz Hidx Hc. unfold chunkWorker. unfold bind at 1.
  rewrite detectChunkResumeOffset_run. unfold resumeOffset. rewrite Hf.
  destruct (Z.geb_spec (Z.of_nat (length content)) (Size c)); [|lia].
  cbv beta iota. rewrite Z.geb_leb, Z.leb_refl.
  unfold atomic_AddInt64, markCompleted, emit, set_dl. unfold bind, get, ret.
  cbn [dl fs ticks requests totalCompletedBytes events].
  destruct (Z.ltb_spec idx 0); [lia|]. rewrite Hc. reflexivity.
Qed.

End WorkerCases.

Lemma downloadSingleChunk_rejects_status_witness :
  fst (downloadSingleChunk (lib := plainLib) DownloadMultiStream_ctx
         (fun _ _ => inr {| respStatus := 200; Body := [([Byte.x01], Some EOF)] |})
         0 {| Index := 0; Start := 0; End := 0; Size := 1; IsCompleted := false |}
         "/dl/a (0).udtemp" 0
         {| dl := big_job; fs := ∅; ticks := 0; requests := 0;
            totalCompletedBytes := 0; events := [] |})
  = Returns (Some (ErrorString "unexpected status code: 200")).
Proof.
  rewrite (downloadSingleChunk_rejects_status (lib := plainLib) DownloadMultiStream_ctx
             (fun _ _ => inr {| respStatus := 200; Body := [([Byte.x01], Some EOF)] |})
             0 {| Index := 0; Start := 0; End := 0; Size := 1; IsCompleted := false |}
             "/dl/a (0).udtemp" 0
             {| dl := big_job; fs := ∅; ticks := 0; requests := 0;
                totalCompletedBytes := 0; events := [] |}
             {| respStatus := 200; Body := [([Byte.x01], Some EOF)] |}).
  - reflexivity.
  - reflexivity.
  - reflexivity.
  - discriminate.
Defined.

Lemma chunkWorker_skips_complete_chunk_witness :
  let c := {| Index := 0; Start := 0; End := 1; Size := 2; IsCompleted := false |} in
  let w :=
    {| dl := with_Chunks [c] None big_job;
       fs := {["/dl/a (0).udtemp" := [Byte.x01; Byte.x02; Byte.x03]]};
       ticks := 0; requests := 0; totalCompletedBytes := 0; events := [] |} in
  let r :=
    chunkWorker (lib := plainLib) DownloadMultiStream_ctx (fun _ _ => inl EOF)
      0 c "/dl/a (0).udtemp" w in
  fst r = Returns None /\ requests (snd r) = 0%nat /\ fs (snd r) = fs w /\
  totalCompletedBytes (snd r) = 2 /\ Chunks (dl (snd r)) = [complete c].
Proof.
  cbv zeta.
  rewrite (chunkWorker_skips_complete_chunk (lib := plainLib) DownloadMultiStream_ctx
             (fun _ _ => inl EOF) 0
             {| Index := 0; Start := 0; End := 1; Size := 2; IsCompleted := false |}
             {| Index := 0; Start := 0; End := 1; Size := 2; IsCompleted := false |}
             "/dl/a (0).udtemp" [Byte.x01; Byte.x02; Byte.x03]).
  - repeat split; reflexivity.
  - reflexivity.
  - simpl. lia.
  - lia.
  - reflexivity.
Defined.

(** ** The job as a whole *)

Section JobProofs.

Context {lib : GoLib} {plib : PathLib}.
Variable ctx : nat -> bool.
Variable chunk_Do : nat -> Request -> error + ChunkResponse.

(** The loop of downloadChunkWithProgress leaves the downloader alone, does
    not panic, and waits only on a paused download. *)
Lemma downloadChunkWithProgress_dl idx file expected reader : forall tw w,
  dl (snd (downloadChunkWithProgress ctx idx reader file expected tw w)) = dl w /\
  fst (downloadChunkWithProgress ctx idx reader file expected tw w) <> Panics /\
  (fst (downloadChunkWithProgress ctx idx reader file expected tw w) = Blocks ->
   isPaused (dl w) = true).
Proof.
  induction reader as [|[data err] rest IH]; intros tw w; cbn [downloadChunkWithProgress].
  - destruct (tw <? expected); [|unfold ret; simpl; repeat split; discriminate].
    unfold checkPauseState, ctx_Done, tick, bind, get, ret, emit, block.
    destruct (isPaused (dl w)) eqn:Hp; simpl; [repeat split; discriminate|].
    destruct (ctx (ticks w)); simpl; repeat split; discriminate.
  - destruct (tw <? expected); [|unfold ret; simpl; repeat split; discriminate].
    unfold checkPauseState, ctx_Done, tick, bind, get, ret, emit, block.
    destruct (isPaused (dl w)) eqn:Hp; simpl; [repeat split; discriminate|].
    destruct (ctx (ticks w)); simpl; [repeat split; discriminate|].
    destruct (Z.of_nat (length data) >? 0); simpl; destruct err as [e|];
      try (destruct e; simpl; repeat split; discriminate).
    all: match goal with
         | |- context [downloadChunkWithProgress _ _ _ _ _ ?t ?w1] =>
             destruct (IH t w1) as (H1 & H2 & H3)
         end; simpl in H1, H3; rewrite Hp in H3; auto.
Qed.

Lemma openChunkFile_dl file off w :
  exists x w', openChunkFile file off w = (Returns x, w') /\ dl w' = dl w.
Proof.
  unfold openChunkFile, os_Open, os_Create, set_fs, bind, get, ret.
  destruct (off >? 0); eexists; eexists; split; reflexivity.
Qed.

(** What one attempt at a chunk does to the downloader: nothing, or the
    chunk is marked completed, which it is when the attempt reports no
    error. *)
Lemma downloadSingleChunk_marks idx c c0 file off w :
  0 <= idx -> Chunks (dl w) !! Z.to_nat idx = Some c0 ->
  let r := downloadSingleChunk ctx chunk_Do idx c file off w in
  fst r <> Panics /\
  (fst r = Blocks -> isPaused (dl w) = true) /\
  (fst r = Returns None -> dl (snd r) = marked_at (Z.to_nat idx) c0 (dl w)) /\
  (dl (snd r) = dl w \/ dl (snd r) = marked_at (Z.to_nat idx) c0 (dl w)).
Proof.
  intros Hidx Hc. cbv zeta.
  destruct (downloadSingleChunk ctx chunk_Do idx c file off w) as [rs ws] eqn:E.
  cbn [fst snd]. revert E. unfold downloadSingleChunk.
  unfold bind at 1. unfold emit at 1. cbv beta iota.
  unfold bind at 1. unfold get at 1. cbv beta iota. cbn [dl requests].
  destruct (http_NewRequest "GET" (Url (dl w))).
  { unfold ret. intros [= <- <-]. cbn [dl]. repeat split; try discriminate. left. reflexivity. }
  unfold bind at 1. unfold client_Do_chunk at 1. cbv beta iota. cbn [dl requests].
  destruct (chunk_Do _ _) as [err|resp].
  { unfold ret. intros [= <- <-]. cbn [dl]. repeat split; try discriminate. left. reflexivity. }
  destruct (negb (respStatus resp =? 206)).
  { unfold ret. intros [= <- <-]. cbn [dl]. repeat split; try discriminate. left. reflexivity. }
  unfold bind at 1.
  match goal with
  | |- context [openChunkFile file off ?w0] =>
      destruct (openChunkFile_dl file off w0) as (x & wo & -> & Hwo)
  end.
  cbn [dl] in Hwo. cbv beta iota.
  destruct x as [e|].
  { unfold ret. intros [= <- <-]. rewrite Hwo.
    repeat split; try discriminate. left. reflexivity. }
  unfold bind at 1.
  match goal with
  | |- context [downloadChunkWithProgress ctx idx ?rd file ?ex 0 wo] =>
      destruct (downloadChunkWithProgress_dl idx file ex rd 0 wo) as (H1 & H2 & H3);
      destruct (downloadChunkWithProgress ctx idx rd file ex 0 wo) as [rr wd]
  end.
  cbn [fst snd] in H1, H2, H3. rewrite Hwo in H1, H3.
  destruct rr as [[bw [e|]]| |]; cbv beta iota.
  - unfold bind, emit, ret. intros [= <- <-]. cbn [dl]. rewrite H1.
    repeat split; try discriminate. left. reflexivity.
  - unfold markCompleted, emit, set_dl. unfold bind, get, ret.
    destruct (Z.ltb_spec idx 0); [lia|]. rewrite H1, Hc.
    intros [= <- <-]. cbn [dl]. rewrite H1. unfold marked_at.
    repeat split; try discriminate. right. reflexivity.
  - intros [= <- <-]. rewrite H1. repeat split; try discriminate; auto.
  - contradiction.
Qed.

Lemma chunkWorker_marks idx c c0 file w :
  0 <= idx -> Chunks (dl w) !! Z.to_nat idx = Some c0 ->
  let r := chunkWorker ctx chunk_Do idx c file w in
  fst r <> Panics /\
  (fst r = Blocks -> isPaused (dl w) = true) /\
  (fst r = Returns None -> dl (snd r) = marked_at (Z.to_nat idx) c0 (dl w)) /\
  (dl (snd r) = dl w \/ dl (snd r) = marked_at (Z.to_nat idx) c0 (dl w)).
Proof.
  intros Hidx Hc. cbv zeta.
  destruct (chunkWorker ctx chunk_Do idx c file w) as [rw ww] eqn:E.
  cbn [fst snd]. revert E. unfold chunkWorker. unfold bind at 1.
  rewrite detectChunkResumeOffset_run. cbv beta iota.
  destruct (resumeOffset w file (Size c) >=? Size c).
  - unfold atomic_AddInt64, markCompleted, emit, set_dl. unfold bind, get, ret.
    cbn [dl fs ticks requests totalCompletedBytes events].
    destruct (Z.ltb_spec idx 0); [lia|]. rewrite Hc. intros [= <- <-]. cbn [dl].
    unfold marked_at. repeat split; try discriminate. right. reflexivity.
  - unfold bind at 1.
    pose proof (downloadSingleChunk_marks idx c c0 file (resumeOffset w file (Size c)) w
                  Hidx Hc) as H.
    cbv zeta in H.
    destruct (downloadSingleChunk ctx chunk_Do idx c file (resumeOffset w file (Size c)) w)
      as [rs ws].
    cbn [fst snd] in H. destruct H as (H1 & H2 & H3 & H4).
    destruct rs as [[e|]| |]; unfold ret; intros [= <- <-].
    + repeat split; try discriminate. exact H4.
    + repeat split; try discriminate; auto.
    + repeat split; try discriminate; auto.
    + contradiction.
Qed.

(** A worker leaves the downloader as it was but for its own chunk, which
    is marked completed when the worker reports no error. *)
Lemma chunkWorker_step idx c c0 file w :
  0 <= idx -> Chunks (dl w) !! Z.to_nat idx = Some c0 ->
  let r := chunkWorker ctx chunk_Do idx c file w in
  fst r <> Panics /\
  (fst r = Blocks -> isPaused (dl w) = true) /\
  exists cs1,
    dl (snd r) = with_Chunks cs1 (dChunkManager (dl w)) (dl w) /\
    length cs1 = length (Chunks (dl w)) /\
    (forall j, j <> Z.to_nat idx -> cs1 !! j = Chunks (dl w) !! j) /\
    (fst r = Returns None -> cs1 !! Z.to_nat idx = Some (complete c0)).
Proof.
  intros Hidx Hc. cbv zeta.
  destruct (chunkWorker_marks idx c c0 file w Hidx Hc) as (H1 & H2 & H3 & H4).
  split; [exact H1|]. split; [exact H2|].
  assert (Hlt : (Z.to_nat idx < length (Chunks (dl w)))%nat)
    by (apply lookup_lt_is_Some; eauto).
  destruct H4 as [H4|H4].
  - exists (Chunks (dl w)). split; [rewrite H4; destruct (dl w); reflexivity|].
    split; [reflexivity|]. split; [reflexivity|].
    intros Hr. specialize (H3 Hr). rewrite H4 in H3.
    apply (f_equal Chunks) in H3. unfold marked_at in H3. cbn [Chunks with_Chunks] in H3.
    rewrite H3 at 1. apply list_lookup_insert_eq. exact Hlt.
  - exists (<[Z.to_nat idx := complete c0]> (Chunks (dl w))).
    split; [exact H4|]. split; [apply length_insert|].
    split; [intros j Hj; apply list_lookup_insert_ne; congruence|].
    intros _. apply list_lookup_insert_eq. exact Hlt.
Qed.

Lemma runWorkers_marks chunks : forall i names errs w,
  0 <= i -> (Z.to_nat i + length chunks <= length (Chunks (dl w)))%nat ->
  let r := runWorkers ctx chunk_Do i chunks names errs w in
  ((Z.to_nat i + length chunks <= length names)%nat -> fst r <> Panics) /\
  (fst r = Blocks -> isPaused (dl w) = true) /\
  exists cs',
    dl (snd r) = with_Chunks cs' (dChunkManager (dl w)) (dl w) /\
    length cs' = length (Chunks (dl w)) /\
    (forall j, (j < Z.to_nat i)%nat -> cs' !! j = Chunks (dl w) !! j) /\
    (forall errs', fst r = Returns errs' ->
       exists new, errs' = errs ++ new /\
         (new = [] ->
          forall j, (Z.to_nat i <= j < Z.to_nat i + length chunks)%nat ->
            cs' !! j = complete <$> Chunks (dl w) !! j)).
Proof.
  induction chunks as [|c rest IH]; intros i names errs w Hi Hlen; cbv zeta.
  - cbn [runWorkers]. unfold ret. cbn [fst snd].
    split; [discriminate|]. split; [discriminate|].
    exists (Chunks (dl w)). split; [destruct (dl w); reflexivity|].
    split; [reflexivity|]. split; [reflexivity|].
    intros errs' [= <-]. exists []. split; [symmetry; apply app_nil_r|].
    intros _ j Hj. cbn [length] in Hj. lia.
  - cbn [length] in Hlen.
    destruct (runWorkers ctx chunk_Do i (c :: rest) names errs w) as [rr wr] eqn:E.
    cbn [fst snd]. revert E. cbn [runWorkers].
    destruct (names !! Z.to_nat i) as [file|] eqn:En.
    + destruct (lookup_lt_is_Some_2 (Chunks (dl w)) (Z.to_nat i) ltac:(lia)) as [c0 Hc0].
      unfold bind at 1.
      pose proof (chunkWorker_step i c c0 file w Hi Hc0) as H. cbv zeta in H.
      destruct (chunkWorker ctx chunk_Do i c file w) as [r1 w1].
      cbn [fst snd] in H. destruct H as (P1 & P2 & cs1 & Q1 & Q2 & Q3 & Q4).
      assert (Hnext : Z.to_nat (i + 1) = S (Z.to_nat i)) by lia.
      destruct r1 as [o| |]; [| |contradiction].
      * intros E.
        assert (Hw1 : (Z.to_nat (i + 1) + length rest <= length (Chunks (dl w1)))%nat).
        { rewrite Q1. cbn [Chunks with_Chunks]. lia. }
        pose proof (IH (i + 1) names
                      (match o with Some e => errs ++ [e] | None => errs end) w1
                      ltac:(lia) Hw1) as H.
        cbv zeta in H. rewrite E in H. cbn [fst snd] in H.
        destruct H as (R1 & R2 & cs' & S1 & S2 & S3 & S4).
        rewrite Q1 in R2, S1, S2, S3, S4.
        cbn [Chunks dChunkManager isPaused with_Chunks] in R2, S1, S2, S3, S4.
        split; [intros Hn; cbn [length] in Hn; apply R1; lia|]. split; [exact R2|].
        exists cs'. split; [exact S1|]. split; [lia|].
        split.
        { intros j Hj. rewrite S3 by lia. apply Q3. lia. }
        intros errs' Hr. destruct (S4 errs' Hr) as (new & Hnew & Hall).
        destruct o as [e|].
        -- exists ([e] ++ new). split; [rewrite Hnew, <- app_assoc; reflexivity|].
           discriminate.
        -- exists new. split; [exact Hnew|]. intros Hnil j Hj. cbn [length] in Hj.
           destruct (decide (j = Z.to_nat i)) as [->|Hne].
           ++ rewrite S3 by lia. rewrite Q4 by reflexivity. rewrite Hc0. reflexivity.
           ++ rewrite (Hall Hnil j) by lia. rewrite Q3 by exact Hne. reflexivity.
      * intros [= <- <-]. split; [discriminate|]. split; [intros _; apply P2; reflexivity|].
        exists cs1. split; [exact Q1|]. split; [exact Q2|].
        split; [intros j Hj; apply Q3; lia|]. discriminate.
    + unfold panic. intros [= <- <-].
      split.
      { intros Hn. cbn [length] in Hn. apply lookup_ge_None in En. lia. }
      split; [discriminate|].
      exists (Chunks (dl w)). split; [destruct (dl w); reflexivity|].
      split; [reflexivity|]. split; [reflexivity|]. discriminate.
Qed.

(** The concurrent download as a whole. *)
Lemma downloadChunksConcurrently_marks names w :
  let r := downloadChunksConcurrently ctx chunk_Do names w in
  ((length (Chunks (dl w)) <= length names)%nat -> fst r <> Panics) /\
  (fst r = Blocks -> isPaused (dl w) = true) /\
  (exists cs', dl (snd r) = with_Chunks cs' (dChunkManager (dl w)) (dl w)) /\
  (fst r = Returns None ->
   dl (snd r) = with_Chunks (complete <$> Chunks (dl w)) (dChunkManager (dl w)) (dl w)).
Proof.
  cbv zeta.
  destruct (downloadChunksConcurrently ctx chunk_Do names w) as [rr wr] eqn:E.
  cbn [fst snd]. revert E. unfold downloadChunksConcurrently.
  unfold bind at 1. unfold get at 1. cbv beta iota.
  unfold bind at 1. cbv beta iota. unfold bind at 1.
  match goal with
  | |- context [runWorkers ctx chunk_Do 0 ?cs names [] ?w0] =>
      pose proof (runWorkers_marks cs 0 names [] w0 ltac:(lia) ltac:(cbn [dl]; lia)) as H;
      cbv zeta in H;
      destruct (runWorkers ctx chunk_Do 0 cs names [] w0) as [r1 w1]
  end.
  cbn [fst snd dl] in H. destruct H as (R1 & R2 & cs' & S1 & S2 & S3 & S4).
  destruct r1 as [errorChan| |].
  - assert (Hret : forall o, (Returns (A := option error) o, w1) = (rr, wr) ->
               o = match errorChan with e :: _ => Some e | [] => None end ->
               (((length (Chunks (dl w)) <= length names)%nat -> rr <> Panics) /\
                (rr = Blocks -> isPaused (dl w) = true) /\
                (exists cs'0, dl wr = with_Chunks cs'0 (dChunkManager (dl w)) (dl w)) /\
                (rr = Returns None ->
                 dl wr = with_Chunks (complete <$> Chunks (dl w))
                           (dChunkManager (dl w)) (dl w)))).
    { intros o [= <- <-] Ho. split; [discriminate|]. split; [discriminate|].
      split; [eauto|]. intros [= Hnone]. rewrite Hnone in Ho.
      destruct errorChan; [|discriminate].
      destruct (S4 [] eq_refl) as (new & Hnew & Hall).
      rewrite S1. f_equal. apply list_eq. intros j.
      rewrite list_lookup_fmap.
      destruct (decide (j < length (Chunks (dl w)))%nat) as [Hj|Hj].
      - apply Hall; [destruct new; [reflexivity | discriminate]|].
        change (Z.to_nat 0) with 0%nat. lia.
      - rewrite !lookup_ge_None_2; [reflexivity | lia | lia]. }
    destruct errorChan as [|e es]; unfold ret; intros E; eapply Hret; eauto.
  - intros [= <- <-]. split; [discriminate|]. split; [intros _; apply R2; reflexivity|].
    split; [eauto|]. discriminate.
  - intros [= <- <-]. split; [intros Hn; exfalso; apply R1; [simpl; lia | reflexivity]|].
    split; [discriminate|]. split; [eauto|]. discriminate.
Qed.

(** X26. When the concurrent download reports no error, every chunk of the
    job is marked completed and keeps its index, range and size, and no
    field of the downloader other than the chunks (and the chunk manager,
    which shares them) has changed. *)
Theorem workers_done_all_completed (chunkFileNames : list string) (w : World) :
  fst (downloadChunksConcurrently ctx chunk_Do chunkFileNames w) = Returns None ->
  let d' := dl (snd (downloadChunksConcurrently ctx chunk_Do chunkFileNames w)) in
  Chunks d' = complete <$> Chunks (dl w) /\
  with_Chunks (Chunks (dl w)) (dChunkManager (dl w)) d' = dl w.
Proof.
  intros H d'.
  assert (Hd : d' = with_Chunks (complete <$> Chunks (dl w)) (dChunkManager (dl w)) (dl w))
    by (apply (downloadChunksConcurrently_marks chunkFileNames w); exact H).
  rewrite Hd. split; [reflexivity|]. destruct (dl w); reflexivity.
Qed.

Lemma MergeChunkFiles_loop_dl names out : forall i w,
  exists x w',
    MergeChunkFiles_loop i names out w = (Returns x, w') /\
    dl w' = dl w /\ events w' = events w.
Proof.
  induction names as [|n names IH]; intros i w; cbn [MergeChunkFiles_loop].
  - unfold ret. eauto.
  - unfold bind at 1. unfold get at 1. cbv beta iota.
    destruct (fs w !! n) as [content|].
    + unfold bind at 1. unfold file_Write, set_fs. cbv beta iota.
      unfold bind at 1.
      match goal with
      | |- context [os_Remove n ?w0] =>
          assert (Hr : exists x w1, os_Remove n w0 = (Returns x, w1) /\
                                    dl w1 = dl w /\ events w1 = events w)
      end.
      { unfold os_Remove, bind, get, set_fs, ret. cbn [fs].
        destruct (_ !! n); eexists; eexists; (split; [reflexivity|]); split; reflexivity. }
      destruct Hr as (x & w1 & -> & Hd & He). cbv beta iota.
      destruct (IH (i + 1) w1) as (y & w2 & -> & Hd2 & He2).
      exists y, w2. split; [reflexivity|]. split; congruence.
    + unfold ret. eauto.
Qed.

Lemma MergeChunkFiles_dl names out w :
  exists x w',
    MergeChunkFiles names out w = (Returns x, w') /\
    dl w' = dl w /\ events w' = events w.
Proof.
  unfold MergeChunkFiles, CreateFile, os_Create, os_Open, set_fs, bind, get, ret.
  cbn [fs]. rewrite lookup_insert_eq.
  match goal with
  | |- context [MergeChunkFiles_loop 0 names out ?w0] =>
      destruct (MergeChunkFiles_loop_dl names out 0 w0) as (x & w' & -> & Hd & He)
  end.
  exists x, w'. split; [reflexivity|]. split; assumption.
Qed.

(** What is left after the chunk files are there: the download of the
    chunks, and the cleanup or the merge. *)
Lemma executeMultiStreamDownload_chunks_outcome names w :
  (length (Chunks (dl w)) <= length names)%nat ->
  let r := executeMultiStreamDownload_chunks ctx chunk_Do names w in
  match fst r with
  | Panics => False
  | Blocks => isPaused (dl w) = true
  | Returns _ =>
      Status (dl (snd r)) = DOWNLOAD_COMPLETED /\
        last (events (snd r)) = Some OnFinish /\
        Chunks (dl (snd r)) = complete <$> Chunks (dl w) /\
        Error (dl (snd r)) = Error (dl w)
      \/ (exists e, Status (dl (snd r)) = DOWNLOAD_FAILED /\
                    Error (dl (snd r)) = Some e /\
                    last (events (snd r)) = Some (OnError e))
      \/ Status (dl (snd r)) = DOWNLOAD_STOPPED /\ last (events (snd r)) = Some OnStop
  end.
Proof.
  intros Hlen. cbv zeta.
  destruct (executeMultiStreamDownload_chunks ctx chunk_Do names w) as [rr wr] eqn:E.
  cbn [fst snd]. revert E. unfold executeMultiStreamDownload_chunks. unfold bind at 1.
  pose proof (downloadChunksConcurrently_marks names w) as H. cbv zeta in H.
  destruct (downloadChunksConcurrently ctx chunk_Do names w) as [rd wd].
  cbn [fst snd] in H. destruct H as (H1 & H2 & (cs' & H3) & H4).
  destruct rd as [[err|]| |].
  - unfold bind at 1. rewrite CleanupChunkFiles_run. cbv beta iota.
    unfold ctx_Err, tick, handleDownloadError, set_dl, emit. unfold bind, ret.
    cbn [dl fs ticks requests totalCompletedBytes events].
    destruct (ctx (ticks wd)).
    + intros [= <- <-]. cbn [dl events Status with_Status]. right. right.
      split; [reflexivity | apply last_snoc].
    + intros [= <- <-]. cbn [dl events Status Error with_Status with_Error]. right. left.
      exists err. split; [reflexivity|]. split; [reflexivity | apply last_snoc].
  - specialize (H4 eq_refl).
    unfold mergeChunksToFinalFile. unfold bind at 1. unfold bind at 1.
    unfold emit at 1. cbv beta iota. unfold bind at 1. unfold get at 1. cbv beta iota.
    unfold bind at 1. cbn [dl].
    match goal with
    | |- context [MergeChunkFiles names ?out ?w0] =>
        destruct (MergeChunkFiles_dl names out w0) as (x & wm & -> & Hd & He)
    end.
    cbn [dl events] in Hd, He. cbv beta iota.
    destruct x as [e|].
    + unfold handleDownloadError, set_dl, emit. unfold bind, ret.
      intros [= <- <-]. cbn [dl events Status Error with_Status with_Error]. right. left.
      eexists. split; [reflexivity|]. split; [reflexivity | apply last_snoc].
    + unfold finalizeDownload, set_dl, emit. unfold bind, ret.
      intros [= <- <-]. cbn [dl events Status Error Chunks with_Status]. left.
      split; [reflexivity|]. split; [apply last_snoc|].
      rewrite Hd, H4. split; reflexivity.
  - intros [= <- <-]. apply H2. reflexivity.
  - intros [= <- <-]. apply (H1 Hlen). reflexivity.
Qed.


End JobProofs.

Lemma workers_done_all_completed_witness :
  let d' := dl (snd (downloadChunksConcurrently (lib := plainLib) DownloadMultiStream_ctx
                       (fun _ _ => inr origin_ok) job_names job_planned)) in
  Chunks d' = complete <$> Chunks (dl job_planned) /\
  with_Chunks (Chunks (dl job_planned)) (dChunkManager (dl job_planned)) d'
  = dl job_planned.
Proof.
  apply (workers_done_all_completed (lib := plainLib) DownloadMultiStream_ctx
           (fun _ _ => inr origin_ok) job_names job_planned).
  vm_compute. reflexivity.
Defined.

